(** * eigobot: payment reconciliation, event de-duplication and daily fan-out

    A shallow embedding of the core of [src/telegramBot.js] and
    [src/scheduler.js], followed by the properties of the specification
    that were checked against it and by further properties of the code:
    how button data is routed, what a check does under any answers of its
    surroundings, what subscribing records, and what the fan-out, the first
    lesson and the pronunciation sanitizers do.

    Conventions.  JavaScript strings are modelled as [string] (the fields
    the code reads are ASCII: references, addresses, decimal amounts);
    numbers that the code only uses as integers are [Z]; a [Map] keyed by
    strings is a [gmap string _], a [Set] of strings a [gset string].
    Values of [config.js], which is not part of the sources at hand, are the
    fields of the record [Config]. *)

From Stdlib Require Import ZArith Ascii String List Bool DecimalString DecimalPos.
From stdpp Require Import gmap strings list fin_maps.
Import ListNotations.
Local Open Scope string_scope.
Local Open Scope Z_scope.
Local Open Scope list_scope.

(* ===================================================================== *)
(** ** JavaScript primitives used by the handlers *)
(* ===================================================================== *)

Module Js.

(** A JSON value whose only use in the code is a truthiness test. *)
Inductive Val : Type :=
| Undefined
| Null
| Boolean (b : bool)
| Number (n : Z)
| Str (s : string)
| Object.

(** ToBoolean. *)
Definition truthy (v : Val) : bool :=
  match v with
  | Undefined | Null => false
  | Boolean b => b
  | Number n => negb (n =? 0)
  | Str s => negb (String.eqb s EmptyString)
  | Object => true
  end.

(** Truthiness of a string-valued optional field: absent and the empty
    string are falsy. *)
Definition present (o : option string) : bool :=
  match o with
  | Some s => negb (String.eqb s EmptyString)
  | None => false
  end.

(** [s.startsWith(p)]. *)
Fixpoint startsWith (s p : string) : bool :=
  match p, s with
  | EmptyString, _ => true
  | String c p', String d s' => Ascii.eqb c d && startsWith s' p'
  | String _ _, EmptyString => false
  end.

(** [s.includes(sub)]. *)
Fixpoint includes (s sub : string) : bool :=
  startsWith s sub ||
  match s with
  | EmptyString => false
  | String _ s' => includes s' sub
  end.

(** [arr.slice(-k)]: the last [k] elements, the whole array when it is
    shorter. *)
Definition slice_last {A} (k : nat) (arr : list A) : list A :=
  drop (length arr - k)%nat arr.

(** White space skipped by [parseInt] (the ASCII part of
    StrWhiteSpaceChar). *)
Definition isWhite (c : ascii) : bool :=
  let n := nat_of_ascii c in
  (Nat.eqb n 32 || (Nat.leb 9 n && Nat.leb n 13))%nat.

Fixpoint trimStart (s : string) : string :=
  match s with
  | String c s' => if isWhite c then trimStart s' else s
  | EmptyString => s
  end.

(** Value of a digit character in radices up to 36. *)
Definition digitValue (c : ascii) : option Z :=
  let n := Z.of_nat (nat_of_ascii c) in
  if (48 <=? n) && (n <=? 57) then Some (n - 48)
  else if (97 <=? n) && (n <=? 122) then Some (n - 87)
  else if (65 <=? n) && (n <=? 90) then Some (n - 55)
  else None.

(** Longest prefix of radix-[r] digits, read left to right; [seen] tells
    whether a digit has been consumed. *)
Fixpoint digits (r : Z) (s : string) (seen : bool) (acc : Z) : option Z :=
  match s with
  | String c s' =>
      match digitValue c with
      | Some d => if d <? r then digits r s' true (acc * r + d)
                  else if seen then Some acc else None
      | None => if seen then Some acc else None
      end
  | EmptyString => if seen then Some acc else None
  end.

(** [parseInt(s, radix)]; [None] is NaN.  [radix = None] is a call with
    one argument.  The result is the exact integer; JavaScript rounds it
    to a double, which changes nothing below 2^53 and keeps every
    comparison with a bound below 2^53. *)
Definition parseInt (s : string) (radix : option Z) : option Z :=
  let s1 := trimStart s in
  let '(neg, s2) :=
    match s1 with
    | String "-" t => (true, t)
    | String "+" t => (false, t)
    | _ => (false, s1)
    end in
  let strip := match radix with
               | None | Some 0 | Some 16 => true
               | Some _ => false
               end in
  let r := match radix with
           | None | Some 0 => 10
           | Some r => r
           end in
  if (r <? 2) || (36 <? r) then None
  else
    let '(r, s3) :=
      match s2 with
      | String "0" (String x t) =>
          if strip && (Ascii.eqb x "x" || Ascii.eqb x "X") then (16, t) else (r, s2)
      | _ => (r, s2)
      end in
    match digits r s3 false 0 with
    | Some n => Some (if neg then - n else n)
    | None => None
    end.

End Js.

(* ===================================================================== *)
(** ** Configuration and data model *)
(* ===================================================================== *)

(** The values of [config.js] the handlers read.  [usdtAmountMicro] is
    [Math.floor(config.USDT_AMOUNT * config.TON_CONVERSIONS.MICRO_USDT_TO_USDT)],
    the one expression evaluated both when a payment is recorded and when
    it is checked. *)
Record Config : Type := {
  USDT_CONTRACT_ADDRESS : string;
  usdtAmountMicro : Z;
  SUBSCRIPTION_DAYS : Z;
  MAX_ATTEMPTS : nat;
  INITIAL_DELAY_MS : Z;
  RETRY_DELAY_MS : Z;
  TRANSACTION_LIMIT : Z
}.

(** One element of the array stored in [pendingPayments] ([newPayment] in
    [handleSubscribe]).  The float [tonAmount] is only displayed and is
    left out. *)
Record PendingPayment : Type := {
  reference : string;
  amount : Z;
  usdtAmount : Z;
  timestamp : Z
}.

(** The part of a tonapi transaction that [handleCheckPayment] reads. *)
Record JettonTransfer : Type := {
  jetton_master_address : option string;
  jt_amount : string;
  forward_ton_amount : Js.Val;
  forward_payload : option string
}.

Record DecodedBody : Type := {
  text : option string;
  jetton_transfer : option JettonTransfer
}.

Record Message : Type := {
  source : Js.Val;
  destination : Js.Val;
  decoded_body : option DecodedBody
}.

Record Transaction : Type := {
  in_msg : option Message;
  out_msgs : option (list Message)
}.

(* ===================================================================== *)
(** ** The dual-rail matcher (body of the polling loop) *)
(* ===================================================================== *)

Module Matcher.

(** The test applied to [tx.in_msg] and to every element of
    [tx.out_msgs]: a truthy [decoded_body.text] that equals or includes
    the reference. *)
Definition textMatches (ref : string) (m : Message) : bool :=
  match decoded_body m with
  | Some body =>
      match text body with
      | Some messageText =>
          Js.present (Some messageText) &&
          (String.eqb messageText ref || Js.includes messageText ref)
      | None => false
      end
  | None => false
  end.

(** One iteration of the first [for (const tx of transactions)] loop. *)
Definition tonTxMatches (ref : string) (tx : Transaction) : bool :=
  match in_msg tx with
  | Some m => textMatches ref m
  | None => false
  end
  ||
  match out_msgs tx with
  | Some msgs => existsb (textMatches ref) msgs
  | None => false
  end.

(** The native rail: the loop stops at the first transaction that
    matches. *)
Definition tonCheck (ref : string) (transactions : list Transaction) : bool :=
  existsb (tonTxMatches ref) transactions.

(** The test applied to every [outMsg] in the jetton loop. *)
Definition jettonMsgMatches (cfg : Config) (ref : string) (outMsg : Message) : bool :=
  Js.truthy (source outMsg) && Js.truthy (destination outMsg) &&
  match decoded_body outMsg with
  | Some body =>
      match jetton_transfer body with
      | Some jt =>
          match jetton_master_address jt with
          | Some a => String.eqb a (USDT_CONTRACT_ADDRESS cfg)
          | None => false
          end &&
          (let expectedAmount := usdtAmountMicro cfg in
           match Js.parseInt (jt_amount jt) None with
           | Some receivedAmount =>
               (expectedAmount <=? receivedAmount) &&
               Js.truthy (forward_ton_amount jt) &&
               Js.present (forward_payload jt) &&
               match forward_payload jt with
               | Some payload => Js.includes payload ref || String.eqb payload ref
               | None => false
               end
           | None => false
           end)
      | None => false
      end
  | None => false
  end.

Definition jettonTxMatches (cfg : Config) (ref : string) (tx : Transaction) : bool :=
  match out_msgs tx with
  | Some msgs => existsb (jettonMsgMatches cfg ref) msgs
  | None => false
  end.

(** The token rail, entered only when the native rail found nothing. *)
Definition usdtCheck (cfg : Config) (ref : string) (transactions : list Transaction) : bool :=
  existsb (jettonTxMatches cfg ref) transactions.

(** Body of [for (const paymentData of paymentsReversed)]: does this
    pending payment set [paymentFound]? *)
Definition paymentMatches (cfg : Config) (transactions : list Transaction)
    (paymentData : PendingPayment) : bool :=
  if tonCheck (reference paymentData) transactions then true
  else usdtCheck cfg (reference paymentData) transactions.

(** The scan over [[...paymentsToCheck].reverse()]; the result is
    [foundPaymentData]. *)
Definition findPayment (cfg : Config) (paymentsToCheck : list PendingPayment)
    (transactions : list Transaction) : option PendingPayment :=
  find (paymentMatches cfg transactions) (rev paymentsToCheck).

(** *** Vocabulary of the specification *)

(** [sub] occurs in [s]; [sub] itself is one such [s]. *)
Definition contains (s sub : string) : Prop := ∃ a b, s = a +:+ sub +:+ b.

(** The inbound message of [tx] or one of its outbound messages carries
    the textual memo [memo]. *)
Definition carriesMemo (tx : Transaction) (memo : string) : Prop :=
  memo ≠ EmptyString ∧
  ∃ m body,
    (in_msg tx = Some m ∨ ∃ msgs, out_msgs tx = Some msgs ∧ In m msgs) ∧
    decoded_body m = Some body ∧ text body = Some memo.

(** [outMsg] is an outbound message of a transaction of the batch. *)
Definition outboundOf (transactions : list Transaction) (outMsg : Message) : Prop :=
  ∃ tx msgs, In tx transactions ∧ out_msgs tx = Some msgs ∧ In outMsg msgs.

(** The token-rail condition in the words of the specification: a jetton
    transfer of the configured master contract, of at least the expected
    amount, whose forward payload equals or contains the reference. *)
Definition tokenTransferAsSpecified (cfg : Config) (ref : string) (outMsg : Message) : Prop :=
  ∃ body jt received payload,
    decoded_body outMsg = Some body ∧ jetton_transfer body = Some jt ∧
    jetton_master_address jt = Some (USDT_CONTRACT_ADDRESS cfg) ∧
    Js.parseInt (jt_amount jt) None = Some received ∧
    usdtAmountMicro cfg ≤ received ∧
    forward_payload jt = Some payload ∧
    (payload = ref ∨ contains payload ref).

(** The same condition with what the code also asks for: a source and a
    destination on the message, a truthy [forward_ton_amount], and a
    non-empty payload. *)
Definition tokenTransferAccepted (cfg : Config) (ref : string) (outMsg : Message) : Prop :=
  Js.truthy (source outMsg) = true ∧
  Js.truthy (destination outMsg) = true ∧
  ∃ body jt received payload,
    decoded_body outMsg = Some body ∧ jetton_transfer body = Some jt ∧
    jetton_master_address jt = Some (USDT_CONTRACT_ADDRESS cfg) ∧
    Js.parseInt (jt_amount jt) None = Some received ∧
    usdtAmountMicro cfg ≤ received ∧
    Js.truthy (forward_ton_amount jt) = true ∧
    forward_payload jt = Some payload ∧ payload ≠ EmptyString ∧
    (payload = ref ∨ contains payload ref).

End Matcher.

(* ===================================================================== *)
(** ** The bot object and its surroundings *)
(* ===================================================================== *)

(** The four mutable collections created by the constructor of
    [TelegramBotHandler]. *)
Record BotState : Type := {
  processedCallbacks : gset string;
  processedMessages : gset string;
  pendingPayments : gmap string (list PendingPayment);
  checkingPayments : gset string
}.

(** State right after [new TelegramBotHandler()]. *)
Definition initialBot : BotState :=
  {| processedCallbacks := ∅; processedMessages := ∅;
     pendingPayments := ∅; checkingPayments := ∅ |}.

Definition setPendingPayments (f : gmap string (list PendingPayment) → gmap string (list PendingPayment))
    (st : BotState) : BotState :=
  {| processedCallbacks := processedCallbacks st;
     processedMessages := processedMessages st;
     pendingPayments := f (pendingPayments st);
     checkingPayments := checkingPayments st |}.

Definition setCheckingPayments (f : gset string → gset string) (st : BotState) : BotState :=
  {| processedCallbacks := processedCallbacks st;
     processedMessages := processedMessages st;
     pendingPayments := pendingPayments st;
     checkingPayments := f (checkingPayments st) |}.

Definition setProcessedCallbacks (f : gset string → gset string) (st : BotState) : BotState :=
  {| processedCallbacks := f (processedCallbacks st);
     processedMessages := processedMessages st;
     pendingPayments := pendingPayments st;
     checkingPayments := checkingPayments st |}.

Definition setProcessedMessages (f : gset string → gset string) (st : BotState) : BotState :=
  {| processedCallbacks := processedCallbacks st;
     processedMessages := f (processedMessages st);
     pendingPayments := pendingPayments st;
     checkingPayments := checkingPayments st |}.

(** The texts [handleCheckPayment] sends to the user. *)
Inductive Reply : Type :=
| ReplyAlreadyChecking
| ReplyNoPending
| ReplyChecking
| ReplyUnavailable
| ReplyConfirmed
| ReplyNotFound
| ReplyProblem.

Definition replyText (r : Reply) : string :=
  match r with
  | ReplyAlreadyChecking => "⏳ お支払いの確認が進行中です。お待ちください..."
  | ReplyNoPending => "❌ 保留中の支払いが見つかりません。再度購読してください。"
  | ReplyChecking => "🔍 お支払いを確認中です... しばらくお待ちください。"
  | ReplyUnavailable => "❌ お支払いの確認が一時的に利用できません。数分後にもう一度お試しください。"
  | ReplyConfirmed => "🎉 お支払いが確認されました！30日間の購読が有効になりました。"
  | ReplyNotFound => "❌ 3回試行してもお支払いが見つかりませんでした。数分後にもう一度お試しください。"
  | ReplyProblem => "❌ お支払いの確認中に問題が発生しました。もう一度お試しください。"
  end.

(** The terminal outcomes of a reconciliation as the specification names
    them; each is the meaning of one reply. *)
Inductive Outcome : Type :=
| CONFIRMED
| EXHAUSTED
| TRANSPORT_ERROR
| ALREADY_CHECKING
| NO_PENDING_PAYMENT.

Definition outcomeOfReply (r : Reply) : option Outcome :=
  match r with
  | ReplyAlreadyChecking => Some ALREADY_CHECKING
  | ReplyNoPending => Some NO_PENDING_PAYMENT
  | ReplyUnavailable => Some TRANSPORT_ERROR
  | ReplyConfirmed => Some CONFIRMED
  | ReplyNotFound => Some EXHAUSTED
  | ReplyChecking | ReplyProblem => None
  end.

(** Result of one [axios.get]: a request that throws before the
    transactions are read, or a response whose [data.transactions] may be
    missing. *)
Inductive FetchResult : Type :=
| FetchError
| FetchOk (transactions : option (list Transaction)).

(** Calls that leave the bot object, with what came back.  Each one is an
    [await]: other handlers may run while it is pending. *)
Inductive Call : Type :=
| SendMessage (chatId : Z) (r : Reply) (delivered : bool)
| Sleep (ms : Z)
| AxiosGet (attempt : nat) (result : FetchResult)
| CreateSubscription (userId ref : string) (days : Z) (stored : bool)
| SendImmediateSentence (chatId : Z) (userId : string).

(** The world a handler runs in: the bot object and the history of calls,
    oldest first, each with the bot state visible to other handlers while
    the call was pending. *)
Record World : Type := {
  bot : BotState;
  history : list (Call * BotState)
}.

(** How the surroundings answer.  The ledger is asked once per attempt;
    the chat transport and the store are indexed by the position of the
    call in the history, so any pattern of failures can be described. *)
Record Env : Type := {
  ledger : nat → FetchResult;
  chatOk : nat → bool;
  storeOk : nat → bool
}.

(** Completion of an awaited call or of a block: a value or a thrown
    error. *)
Inductive Completion (A : Type) : Type :=
| Normal (a : A)
| Thrown.
Arguments Normal {A} a.
Arguments Thrown {A}.

Module Async.

(** Computations over a state [S] that may throw. *)
Definition M (S A : Type) : Type := S → Completion A * S.

Definition ret {S A} (a : A) : M S A := fun w => (Normal a, w).

Definition bind {S A B} (m : M S A) (k : A → M S B) : M S B :=
  fun w =>
    match m w with
    | (Normal a, w') => k a w'
    | (Thrown, w') => (Thrown, w')
    end.

(** [try { body } catch (e) { handler }]. *)
Definition tryCatch {S A} (body handler : M S A) : M S A :=
  fun w =>
    match body w with
    | (Normal a, w') => (Normal a, w')
    | (Thrown, w') => handler w'
    end.

(** [try { body } finally { final }] for a [final] that cannot throw. *)
Definition tryFinally {S A} (body : M S A) (final : S → S) : M S A :=
  fun w => let '(c, w') := body w in (c, final w').

Definition unitOrThrow (ok : bool) : Completion unit :=
  if ok then Normal tt else Thrown.

End Async.

Declare Scope async_scope.
Delimit Scope async_scope with async.
Notation "x <- c ;; k" := (Async.bind c (fun x => k))
  (at level 100, c at next level, right associativity) : async_scope.
Notation "c ;; k" := (Async.bind c (fun _ => k))
  (at level 100, right associativity) : async_scope.

(* ===================================================================== *)
(** ** [handleCheckPayment]: the reconciliation loop *)
(* ===================================================================== *)

Module Reconcile.
Import Async.
Local Open Scope async_scope.

(** How control leaves the [for (let attempt = 1; ...)] loop. *)
Inductive LoopExit : Type :=
| Break (foundPaymentData : PendingPayment)
| Fallthrough
| Returned.

Definition checkKey (userId : string) : string := "checking_" +:+ userId.

Definition addChecking (key : string) : BotState → BotState :=
  setCheckingPayments (fun s => {[key]} ∪ s).

Definition deleteChecking (key : string) : BotState → BotState :=
  setCheckingPayments (fun s => s ∖ {[key]}).

Definition deletePending (userId : string) : BotState → BotState :=
  setPendingPayments (delete userId).

(** [response.data.transactions || []]. *)
Definition transactionsOf (data : option (list Transaction)) : list Transaction :=
  match data with
  | Some transactions => transactions
  | None => []
  end.

Definition getBot : M World BotState := fun w => (Normal (bot w), w).

(** A synchronous update of the bot object. *)
Definition onBot (f : BotState → BotState) (w : World) : World :=
  {| bot := f (bot w); history := history w |}.

Definition modify (f : BotState → BotState) : M World unit :=
  fun w => (Normal tt, onBot f w).

(** Record a call together with the bot state at the time. *)
Definition logCall (c : Call) (w : World) : World :=
  {| bot := bot w; history := history w ++ [(c, bot w)] |}.

Section WithEnv.
Variable cfg : Config.
Variable env : Env.

(** [await this.bot.sendMessage(chatId, text)]. *)
Definition sendMessage (chatId : Z) (r : Reply) : M World unit :=
  fun w =>
    let ok := chatOk env (length (history w)) in
    (unitOrThrow ok, logCall (SendMessage chatId r ok) w).

(** [await new Promise(resolve => setTimeout(resolve, ms))]. *)
Definition sleep (ms : Z) : M World unit :=
  fun w => (Normal tt, logCall (Sleep ms) w).

(** [await axios.get(...)] followed by [response.data.transactions]. *)
Definition axiosGet (attempt : nat) : M World (option (list Transaction)) :=
  fun w =>
    let r := ledger env attempt in
    (match r with
     | FetchError => Thrown
     | FetchOk data => Normal data
     end, logCall (AxiosGet attempt r) w).

(** [await database.createSubscription(userId, reference, days)]. *)
Definition createSubscription (userId ref : string) (days : Z) : M World unit :=
  fun w =>
    let ok := storeOk env (length (history w)) in
    (unitOrThrow ok, logCall (CreateSubscription userId ref days ok) w).

(** [await this.sendImmediateSentence(chatId, userId)]: its whole body
    is inside a [try] whose [catch] only logs, so it never throws. *)
Definition sendImmediateSentence (chatId : Z) (userId : string) : M World unit :=
  fun w => (Normal tt, logCall (SendImmediateSentence chatId userId) w).

(** The retry loop.  [remaining] counts the iterations left, so that
    [attempt + remaining = maxAttempts + 1]; the body yields [Some] when
    control leaves the loop and [None] when it goes on. *)
Fixpoint pollLoop (chatId : Z) (paymentsToCheck : list PendingPayment)
    (remaining attempt : nat) : M World LoopExit :=
  match remaining with
  | O => ret Fallthrough
  | S remaining' =>
      let maxAttempts := MAX_ATTEMPTS cfg in
      step <- tryCatch
        (data <- axiosGet attempt ;;
         let transactions := transactionsOf data in
         match Matcher.findPayment cfg paymentsToCheck transactions with
         | Some foundPaymentData => ret (Some (Break foundPaymentData))
         | None =>
             (if (attempt <? maxAttempts)%nat
              then sleep (RETRY_DELAY_MS cfg) else ret tt) ;;
             ret None
         end)
        (if (attempt <? maxAttempts)%nat
         then sleep (RETRY_DELAY_MS cfg) ;; ret None
         else sendMessage chatId ReplyUnavailable ;; ret (Some Returned)) ;;
      match step with
      | Some exit => ret exit
      | None => pollLoop chatId paymentsToCheck remaining' (S attempt)
      end
  end.

(** What follows the loop inside the inner [try]. *)
Definition afterLoop (chatId : Z) (userId : string) (exit : LoopExit) : M World unit :=
  match exit with
  | Returned => ret tt
  | Break foundPaymentData =>
      createSubscription userId (reference foundPaymentData) (SUBSCRIPTION_DAYS cfg) ;;
      modify (deletePending userId) ;;
      sendMessage chatId ReplyConfirmed ;;
      sendImmediateSentence chatId userId
  | Fallthrough => sendMessage chatId ReplyNotFound
  end.

(** The inner [try ... catch ... finally], entered once the polling
    phase is reached. *)
Definition innerTry (chatId : Z) (userId : string)
    (paymentsToCheck : list PendingPayment) : M World unit :=
  tryFinally
    (tryCatch
       (exit <- pollLoop chatId paymentsToCheck (MAX_ATTEMPTS cfg) 1 ;;
        afterLoop chatId userId exit)
       (sendMessage chatId ReplyProblem))
    (onBot (deleteChecking (checkKey userId))).

(** The body of the outer [try].  [userId] is the string taken from the
    callback data, so [userId.toString()] is [userId]; the values stored by
    [handleSubscribe] are arrays, so [paymentsToCheck] is the stored
    array.  It is read here as the list the array holds when the run
    starts, which is what the run scans when it is taken on its own; a
    [handleSubscribe] that runs while the check awaits extends the same
    array object by [push]. *)
Definition checkBody (chatId : Z) (userId : string) : M World unit :=
  st <- getBot ;;
  match pendingPayments st !! userId with
  | None =>
      modify (deleteChecking (checkKey userId)) ;;
      sendMessage chatId ReplyNoPending
  | Some paymentsToCheck =>
      if (length paymentsToCheck =? 0)%nat then
        modify (deleteChecking (checkKey userId)) ;;
        sendMessage chatId ReplyNoPending
      else
        sendMessage chatId ReplyChecking ;;
        sleep (INITIAL_DELAY_MS cfg) ;;
        innerTry chatId userId paymentsToCheck
  end.

(** The handler of the outer [catch]. *)
Definition outerCatch (chatId : Z) (userId : string) : M World unit :=
  sendMessage chatId ReplyProblem ;;
  modify (deleteChecking (checkKey userId)).

Definition handleCheckPayment (chatId : Z) (userId : string) : M World unit :=
  st <- getBot ;;
  if decide (checkKey userId ∈ checkingPayments st) then
    sendMessage chatId ReplyAlreadyChecking
  else
    modify (addChecking (checkKey userId)) ;;
    tryCatch (checkBody chatId userId) (outerCatch chatId userId).

(** World in which the polling phase starts: the flag is set and the
    notice that the check is running has been delivered. *)
Definition pollingWorld (chatId : Z) (userId : string) (w : World) : World :=
  let st := addChecking (checkKey userId) (bot w) in
  {| bot := st;
     history := history w ++ [(SendMessage chatId ReplyChecking true, st);
                              (Sleep (INITIAL_DELAY_MS cfg), st)] |}.

End WithEnv.

(** Replies the handler issued, oldest first, delivered or not. *)
Definition issued (h : list (Call * BotState)) : list Reply :=
  omap (fun e => match fst e with
                 | SendMessage _ r _ => Some r
                 | _ => None
                 end) h.

(** The outcome of a run, read off the calls it made: the meaning of the
    last reply it issued that names an outcome. *)
Definition outcome (h : list (Call * BotState)) : option Outcome :=
  last (omap outcomeOfReply (issued h)).

Definition isFetch (c : Call) : bool :=
  match c with AxiosGet _ _ => true | _ => false end.

Definition isCreateSubscription (c : Call) : bool :=
  match c with CreateSubscription _ _ _ _ => true | _ => false end.

(** The calls that a run always makes with its flag set: every call but
    the reply that nothing is pending and the apology.  The reply that
    nothing is pending and the apology of the outer handler are sent once
    the flag is removed. *)
Definition inFlight (c : Call) : bool :=
  match c with
  | SendMessage _ ReplyNoPending _ | SendMessage _ ReplyProblem _ => false
  | _ => true
  end.

(** The calls of a history, without the state snapshots. *)
Definition calls (h : list (Call * BotState)) : list Call := map fst h.

(** An attempt that finds nothing: the request fails, or no pending
    payment matches the transactions returned. *)
Definition fruitless (cfg : Config) (env : Env) (paymentsToCheck : list PendingPayment)
    (attempt : nat) : bool :=
  match ledger env attempt with
  | FetchError => true
  | FetchOk data =>
      match Matcher.findPayment cfg paymentsToCheck (transactionsOf data) with
      | Some _ => false
      | None => true
      end
  end.

(** What a fruitless attempt that is not the last one adds to the
    history. *)
Definition retried (cfg : Config) (env : Env) (st : BotState) (attempt : nat)
    : list (Call * BotState) :=
  [(AxiosGet attempt (ledger env attempt), st); (Sleep (RETRY_DELAY_MS cfg), st)].

(** The calls of [n] such attempts in a row, the first one being
    [attempt]. *)
Definition retries (cfg : Config) (env : Env) (st : BotState) (attempt n : nat)
    : list (Call * BotState) :=
  flat_map (retried cfg env st) (seq attempt n).

(** The trigger is turned away: it leaves the bot object as it found it
    and makes one call, the reply that a check is already running. *)
Definition turnedAway (cfg : Config) (env : Env) (chatId : Z) (userId : string)
    (w : World) : Prop :=
  let r := handleCheckPayment cfg env chatId userId w in
  bot (snd r) = bot w ∧
  history (snd r) =
    history w ++ [(SendMessage chatId ReplyAlreadyChecking
                     (chatOk env (length (history w))), bot w)].

End Reconcile.

(* ===================================================================== *)
(** ** [handleSubscribe]: recording a pending payment *)
(* ===================================================================== *)

Module Ledger.

(** [this.pendingPayments.get(userId) || []]. *)
Definition pendingOf (userId : string) (st : BotState) : list PendingPayment :=
  match pendingPayments st !! userId with
  | Some payments => payments
  | None => []
  end.

(** The lines of [handleSubscribe] that store [newPayment]: [push], then
    [slice(-3)], then [set], with no [await] in between; the array that
    [push] extended is replaced in the map by the slice. *)
Definition record (userId : string) (newPayment : PendingPayment) (st : BotState) : BotState :=
  let existingPayments := pendingOf userId st in
  let pushed := (existingPayments ++ [newPayment])%list in
  let recentPayments := Js.slice_last 3 pushed in
  setPendingPayments (<[userId := recentPayments]>) st.

(** Successive [record] calls for one user, oldest payment first. *)
Definition recordAll (userId : string) (payments : list PendingPayment) (st : BotState) : BotState :=
  fold_left (fun s p => record userId p s) payments st.

(** [this.pendingPayments.delete(userId)]. *)
Definition clear (userId : string) (st : BotState) : BotState :=
  Reconcile.deletePending userId st.

End Ledger.

(* ===================================================================== *)
(** ** [setupEventHandlers]: de-duplication of chat events *)
(* ===================================================================== *)

Module Dedup.

Record CallbackQuery : Type := {
  cq_id : string;
  cq_data : string;
  cq_from_id : Z
}.

Record TextMessage : Type := {
  message_id : Z;
  from_id : Z;
  from_is_bot : bool;
  msg_text : option string
}.

(** Decimal rendering of an integer inside a template literal.  This is
    what JavaScript prints for the integers a number holds exactly, below
    2^53 in absolute value; from 10^21 on JavaScript prints an exponent. *)
Definition numberToString (n : Z) : string :=
  DecimalString.NilZero.string_of_int (Z.to_int n).

(** [`${callbackQuery.id}_${callbackQuery.data}`]. *)
Definition callbackId (cq : CallbackQuery) : string :=
  cq_id cq +:+ "_" +:+ cq_data cq.

(** [`${msg.message_id}_${msg.from.id}`]. *)
Definition messageId (msg : TextMessage) : string :=
  numberToString (message_id msg) +:+ "_" +:+ numberToString (from_id msg).

(** What a listener did with an event. *)
Inductive Dispatch : Type :=
| Started      (** the handler was called *)
| Duplicate    (** the key was in the set: ignored *)
| Skipped      (** a command, a bot, or no text: not a de-duplicated event *)
| NoListener.  (** nothing runs *)

(** Listener of ['callback_query'] up to the call of
    [handleCallbackQuery]. *)
Definition onCallbackQuery (cq : CallbackQuery) (st : BotState) : Dispatch * BotState :=
  let callbackId := callbackId cq in
  if decide (callbackId ∈ processedCallbacks st) then (Duplicate, st)
  else (Started, setProcessedCallbacks (fun s => {[callbackId]} ∪ s) st).

(** The [.catch] attached to the promise of [handleCallbackQuery]. *)
Definition onCallbackQueryCatch (cq : CallbackQuery) (st : BotState) : BotState :=
  setProcessedCallbacks (fun s => s ∖ {[callbackId cq]}) st.

(** Listener of ['message']. *)
Definition onMessage (msg : TextMessage) (st : BotState) : Dispatch * BotState :=
  if Js.present (msg_text msg) &&
     match msg_text msg with Some t => Js.startsWith t "/" | None => false end
  then (Skipped, st)
  else if from_is_bot msg then (Skipped, st)
  else if Js.present (msg_text msg) then
    let messageId := messageId msg in
    if decide (messageId ∈ processedMessages st) then (Duplicate, st)
    else (Started, setProcessedMessages (fun s => {[messageId]} ∪ s) st)
  else (Skipped, st).

(** Messages that reach the de-duplication test: a non-empty text that is
    not a command, from a sender that is not a bot. *)
Definition isUserText (msg : TextMessage) : bool :=
  match msg_text msg with
  | Some t => Js.present (Some t) && negb (Js.startsWith t "/") && negb (from_is_bot msg)
  | None => false
  end.

(** What can happen to the de-duplication sets: an event arrives, or the
    promise of a handler started earlier rejects.  [this.handleMessage(msg)]
    is called without [.catch], so its rejection runs no code of the
    bot. *)
Inductive Event : Type :=
| CallbackArrives (cq : CallbackQuery)
| CallbackHandlerRejects (cq : CallbackQuery)
| MessageArrives (msg : TextMessage)
| MessageHandlerRejects (msg : TextMessage).

Definition step (st : BotState) (e : Event) : Dispatch * BotState :=
  match e with
  | CallbackArrives cq => onCallbackQuery cq st
  | CallbackHandlerRejects cq => (NoListener, onCallbackQueryCatch cq st)
  | MessageArrives msg => onMessage msg st
  | MessageHandlerRejects _ => (NoListener, st)
  end.

(** Run a sequence of events, collecting what each listener did. *)
Fixpoint run (st : BotState) (events : list Event) : list Dispatch * BotState :=
  match events with
  | [] => ([], st)
  | e :: rest =>
      let '(d, st') := step st e in
      let '(ds, st'') := run st' rest in
      (d :: ds, st'')
  end.

End Dedup.

(* ===================================================================== *)
(** ** [sendDailyMessages]: the daily fan-out *)
(* ===================================================================== *)

Module Scheduler.
Import Async.
Local Open Scope async_scope.

(** A row of [getActiveUsers]. *)
Record User : Type := {
  telegram_user_id : string;
  difficulty_level : Z
}.

Section WithContent.
(** The object returned by [deepseekService.generateEnglishSentence]
    and the string built from it by [createDailyMessage], a function of
    its argument only.  It is taken to return for every content; in the
    source it throws on content whose word list cannot be walked (a [null]
    entry, for instance), inside the [try] of the row. *)
Variable SentenceData : Type.
Variable createDailyMessage : SentenceData → string.

(** Calls made by one run, with what came back. *)
Inductive Call : Type :=
| GetActiveUsers (ok : bool)
| Generate (level : Z) (ok : bool)
| SaveSentence (sentenceData : SentenceData) (level : Z) (ok : bool)
| AddMessage (chatId : Z) (message : string) (ok : bool).

(** Answers of the store, the generation backend and the queue.  The
    loop over users makes at most one [saveSentence] and one
    [addMessage] per iteration, so both are indexed by the position of
    the user in [activeUsers]. *)
Record Env : Type := {
  activeUsers : option (list User);
  generate : Z → option SentenceData;
  saveOk : nat → bool;
  enqueueOk : nat → bool
}.

Variable env : Env.

Definition Log : Type := list Call.

Definition log (c : Call) : Log → Log := fun l => (l ++ [c])%list.

Definition getActiveUsers : M Log (list User) :=
  fun l =>
    match activeUsers env with
    | Some rows => (Normal rows, log (GetActiveUsers true) l)
    | None => (Thrown, log (GetActiveUsers false) l)
    end.

Definition generateEnglishSentence (level : Z) : M Log SentenceData :=
  fun l =>
    match generate env level with
    | Some s => (Normal s, log (Generate level true) l)
    | None => (Thrown, log (Generate level false) l)
    end.

Definition saveSentence (i : nat) (s : SentenceData) (level : Z) : M Log unit :=
  fun l => (unitOrThrow (saveOk env i), log (SaveSentence s level (saveOk env i)) l).

Definition addMessage (i : nat) (chatId : Z) (message : string) : M Log unit :=
  fun l => (unitOrThrow (enqueueOk env i), log (AddMessage chatId message (enqueueOk env i)) l).

(** [for (let level = 1; level <= 5; level++)], filling
    [difficultySentences]. *)
Fixpoint generateLevels (levels : list Z) (difficultySentences : gmap Z SentenceData)
    : M Log (gmap Z SentenceData) :=
  match levels with
  | [] => ret difficultySentences
  | level :: rest =>
      cache <- tryCatch
        (s <- generateEnglishSentence level ;;
         ret (<[level := s]> difficultySentences))
        (ret difficultySentences) ;;
      generateLevels rest cache
  end.

(** [for (const user of activeUsers)]; [i] is the position of [user]. *)
Fixpoint queueUsers (difficultySentences : gmap Z SentenceData)
    (users : list User) (i : nat) : M Log unit :=
  match users with
  | [] => ret tt
  | user :: rest =>
      tryCatch
        (match difficultySentences !! difficulty_level user with
         | Some sentenceData =>
             saveSentence i sentenceData (difficulty_level user) ;;
             let message := createDailyMessage sentenceData in
             match Js.parseInt (telegram_user_id user) (Some 10) with
             | None => ret tt
             | Some chatId => addMessage i chatId message
             end
         | None => ret tt
         end)
        (ret tt) ;;
      queueUsers difficultySentences rest (S i)
  end.

Definition sendDailyMessages : M Log unit :=
  tryCatch
    (users <- getActiveUsers ;;
     difficultySentences <- generateLevels [1; 2; 3; 4; 5] ∅ ;;
     queueUsers difficultySentences users 0)
    (ret tt).

(** The [addMessage] calls of a log, oldest first. *)
Definition enqueued (l : Log) : list (Z * string) :=
  omap (fun c => match c with
                 | AddMessage chatId message _ => Some (chatId, message)
                 | _ => None
                 end) l.

(** The content cached for a tier during a run: what generation
    returned for the tiers 1 to 5, nothing for any other number. *)
Definition cached (level : Z) : option SentenceData :=
  if (1 <=? level) && (level <=? 5) then generate env level else None.

(** The cache after the generation loop went through [levels]. *)
Definition fill (levels : list Z) (difficultySentences : gmap Z SentenceData)
    : gmap Z SentenceData :=
  fold_left (fun cache level =>
               match generate env level with
               | Some s => <[level := s]> cache
               | None => cache
               end) levels difficultySentences.

(** The calls of the generation loop. *)
Definition generateLog (levels : list Z) : Log :=
  map (fun level => Generate level (bool_decide (is_Some (generate env level)))) levels.

(** The calls of the iteration for the user at position [i]. *)
Definition userCalls (difficultySentences : gmap Z SentenceData) (i : nat) (user : User)
    : Log :=
  match difficultySentences !! difficulty_level user with
  | Some sentenceData =>
      SaveSentence sentenceData (difficulty_level user) (saveOk env i) ::
      (if saveOk env i then
         match Js.parseInt (telegram_user_id user) (Some 10) with
         | Some chatId =>
             [AddMessage chatId (createDailyMessage sentenceData) (enqueueOk env i)]
         | None => []
         end
       else [])
  | None => []
  end.

(** The enqueue owed to the user at position [i]. *)
Definition delivery (i : nat) (user : User) : option (Z * string) :=
  match cached (difficulty_level user) with
  | Some sentenceData =>
      if saveOk env i then
        match Js.parseInt (telegram_user_id user) (Some 10) with
        | Some chatId => Some (chatId, createDailyMessage sentenceData)
        | None => None
        end
      else None
  | None => None
  end.

End WithContent.

Arguments GetActiveUsers {SentenceData} ok.
Arguments Generate {SentenceData} level ok.
Arguments SaveSentence {SentenceData} sentenceData level ok.
Arguments AddMessage {SentenceData} chatId message ok.
Arguments activeUsers {SentenceData} e.
Arguments generate {SentenceData} e level.
Arguments saveOk {SentenceData} e i.
Arguments enqueueOk {SentenceData} e i.
Arguments generateLevels {SentenceData} env levels difficultySentences.
Arguments queueUsers {SentenceData} createDailyMessage env difficultySentences users i.
Arguments sendDailyMessages {SentenceData} createDailyMessage env.
Arguments enqueued {SentenceData} l.
Arguments fill {SentenceData} env levels difficultySentences.
Arguments generateLog {SentenceData} env levels.
Arguments cached {SentenceData} env level.
Arguments userCalls {SentenceData} createDailyMessage env difficultySentences i user.
Arguments delivery {SentenceData} createDailyMessage env i user.

End Scheduler.

(* ===================================================================== *)
(** ** Concrete inputs used in examples *)
(* ===================================================================== *)

Module Sample.

Definition cfg : Config :=
  {| USDT_CONTRACT_ADDRESS := "EQCxE6mUtQJKFnGfaROTKOt1lZbDiiX1kCixRv7Nw2Id_sDs";
     usdtAmountMicro := 1000000;
     SUBSCRIPTION_DAYS := 30;
     MAX_ATTEMPTS := 3;
     INITIAL_DELAY_MS := 5000;
     RETRY_DELAY_MS := 10000;
     TRANSACTION_LIMIT := 20 |}.

(** Two pending payments of user 7, [older] created before [newer]. *)
Definition older : PendingPayment :=
  {| reference := "english-bot-7-1700000000000"; amount := 400000000;
     usdtAmount := 1000000; timestamp := 1700000000000 |}.

Definition newer : PendingPayment :=
  {| reference := "english-bot-7-1700000060000"; amount := 400000000;
     usdtAmount := 1000000; timestamp := 1700000060000 |}.

(** The reference of [older]. *)
Definition R : string := reference older.

Definition textMsg (memo : string) : Message :=
  {| source := Js.Object; destination := Js.Object;
     decoded_body := Some {| text := Some memo; jetton_transfer := None |} |}.

(** An incoming native transfer with a comment. *)
Definition tonTx (memo : string) : Transaction :=
  {| in_msg := Some (textMsg memo); out_msgs := Some [] |}.

Definition jettonMsg (forwardTon : Js.Val) (payload : string) : Message :=
  {| source := Js.Object; destination := Js.Object;
     decoded_body :=
       Some {| text := None;
               jetton_transfer :=
                 Some {| jetton_master_address := Some (USDT_CONTRACT_ADDRESS cfg);
                         jt_amount := "1000000";
                         forward_ton_amount := forwardTon;
                         forward_payload := Some payload |} |} |}.

(** A transaction whose outbound message is a jetton transfer. *)
Definition jettonTx (forwardTon : Js.Val) (payload : string) : Transaction :=
  {| in_msg := None; out_msgs := Some [jettonMsg forwardTon payload] |}.

(** A USDT transfer for [older] that forwards 1 nanoTON with its payload,
    and the same transfer forwarding nothing. *)
Definition usdtPaid : Transaction := jettonTx (Js.Number 1) (reference older).

Definition usdtPaidNoForward : Transaction := jettonTx (Js.Number 0) (reference older).

(** The bot with the two pending payments of user 7 recorded. *)
Definition botWithPending : BotState :=
  Ledger.recordAll "7" [older; newer] initialBot.

Definition world (st : BotState) : World := {| bot := st; history := [] |}.

(** Surroundings in which every call succeeds and the ledger shows the
    payment of [older] from the second attempt on. *)
Definition envPaidLate : Env :=
  {| ledger := fun attempt =>
       if (attempt <? 2)%nat then FetchOk (Some [])
       else FetchOk (Some [tonTx (reference older)]);
     chatOk := fun _ => true;
     storeOk := fun _ => true |}.

(** The same, with a store that rejects the subscription. *)
Definition envStoreDown : Env :=
  {| ledger := ledger envPaidLate; chatOk := fun _ => true; storeOk := fun _ => false |}.

(** A ledger service that always fails. *)
Definition envLedgerDown : Env :=
  {| ledger := fun _ => FetchError; chatOk := fun _ => true; storeOk := fun _ => true |}.

(** A ledger that answers and never shows a payment. *)
Definition envUnpaid : Env :=
  {| ledger := fun _ => FetchOk (Some []); chatOk := fun _ => true; storeOk := fun _ => true |}.

(** A chat that rejects every message, for instance because the user
    blocked the bot. *)
Definition envChatDown : Env :=
  {| ledger := fun _ => FetchOk (Some []); chatOk := fun _ => false; storeOk := fun _ => true |}.

Definition callback : Dedup.CallbackQuery :=
  {| Dedup.cq_id := "4382911"; Dedup.cq_data := "check_payment_7"; Dedup.cq_from_id := 7 |}.

(** Fan-out: three subscribers at tiers 1, 1 and 3; the generated content
    is its English text. *)
Definition subscribers : list Scheduler.User :=
  [ {| Scheduler.telegram_user_id := "1001"; Scheduler.difficulty_level := 1 |};
    {| Scheduler.telegram_user_id := "1002"; Scheduler.difficulty_level := 1 |};
    {| Scheduler.telegram_user_id := "1003"; Scheduler.difficulty_level := 3 |} ].

Definition lesson (level : Z) : string :=
  if level =? 1 then "Hello." else "The weather is very nice today.".

Definition render (sentenceData : string) : string :=
  "Today: " +:+ sentenceData.

(** Every backend works. *)
Definition fanoutAllWell : Scheduler.Env string :=
  {| Scheduler.activeUsers := Some subscribers;
     Scheduler.generate := fun level => Some (lesson level);
     Scheduler.saveOk := fun _ => true;
     Scheduler.enqueueOk := fun _ => true |}.


(** Every backend works, and the query returns the row of one user
    twice, as the join does for a user with two active subscriptions. *)
Definition fanoutRowTwice : Scheduler.Env string :=
  {| Scheduler.activeUsers :=
       Some [ {| Scheduler.telegram_user_id := "1001"; Scheduler.difficulty_level := 1 |};
              {| Scheduler.telegram_user_id := "1001"; Scheduler.difficulty_level := 1 |} ];
     Scheduler.generate := fun level => Some (lesson level);
     Scheduler.saveOk := fun _ => true;
     Scheduler.enqueueOk := fun _ => true |}.

Definition message : Dedup.TextMessage :=
  {| Dedup.message_id := 311; Dedup.from_id := 7; Dedup.from_is_bot := false;
     Dedup.msg_text := Some "hello" |}.

End Sample.

(* ===================================================================== *)
(** ** Further parts of the bot: callback data, subscribing, the first
       lesson, pronunciations *)
(* ===================================================================== *)

(* ===================================================================== *)
(** ** Keys, references and button data built from a user identifier *)
(* ===================================================================== *)

Module Reference.

(** The integers that a JavaScript number holds exactly
    ([Number.isSafeInteger]): for these, [numberToString] is what
    JavaScript prints and [Js.parseInt] of the digits is what JavaScript
    returns. *)
Definition safeInteger (n : Z) : Prop :=
  - 9007199254740992 < n < 9007199254740992.

(** [userId.toString()] for the numeric identifier of a Telegram user: the
    key of [pendingPayments].  (A JavaScript number prints as plain decimal
    digits below 10^21, far above identifiers and clock values.) *)
Definition userKey (userId : Z) : string := Dedup.numberToString userId.

(** [`english-bot-${userId}-${Date.now()}`]. *)
Definition paymentReference (userId now : Z) : string :=
  "english-bot-" +:+ Dedup.numberToString userId +:+ "-" +:+ Dedup.numberToString now.

(** [`check_payment_${userId}`], the data of the button that starts the
    check. *)
Definition checkPaymentData (userId : Z) : string :=
  "check_payment_" +:+ Dedup.numberToString userId.

(** [`level_${k}`]: for [k] from 1 to 5 the data of the difficulty buttons
    of [handleSettings], ['level_1'] to ['level_5']. *)
Definition levelData (level : Z) : string :=
  "level_" +:+ Dedup.numberToString level.

(** Every character of [s] satisfies [p]. *)
Fixpoint allChars (p : ascii → bool) (s : string) : bool :=
  match s with
  | EmptyString => true
  | String c s' => p c && allChars p s'
  end.

Definition isDigit (c : ascii) : bool :=
  let n := nat_of_ascii c in (Nat.leb 48 n && Nat.leb n 57)%nat.

Definition notUnderscore (c : ascii) : bool := negb (Ascii.eqb c "_").
Definition notE (c : ascii) : bool := negb (Ascii.eqb c "e").

(** The number written by the digits of [d], read left to right after the
    digits already read gave [acc]. *)
Fixpoint uintValue (d : Decimal.uint) (acc : Z) : Z :=
  match d with
  | Decimal.Nil => acc
  | Decimal.D0 d => uintValue d (acc * 10 + 0)
  | Decimal.D1 d => uintValue d (acc * 10 + 1)
  | Decimal.D2 d => uintValue d (acc * 10 + 2)
  | Decimal.D3 d => uintValue d (acc * 10 + 3)
  | Decimal.D4 d => uintValue d (acc * 10 + 4)
  | Decimal.D5 d => uintValue d (acc * 10 + 5)
  | Decimal.D6 d => uintValue d (acc * 10 + 6)
  | Decimal.D7 d => uintValue d (acc * 10 + 7)
  | Decimal.D8 d => uintValue d (acc * 10 + 8)
  | Decimal.D9 d => uintValue d (acc * 10 + 9)
  end.

End Reference.

(* ===================================================================== *)
(** ** [handleCallbackQuery]: which handler a button press reaches *)
(* ===================================================================== *)

Module Router.

(** [s.split(sep)] for a separator of one character. *)
Fixpoint split (sep : ascii) (s : string) : list string :=
  match s with
  | EmptyString => [EmptyString]
  | String c s' =>
      if Ascii.eqb c sep then EmptyString :: split sep s'
      else
        match split sep s' with
        | part :: parts => String c part :: parts
        | [] => [String c EmptyString]
        end
  end.

(** The handler called by the [switch] of [handleCallbackQuery], with the
    argument computed from the data. *)
Inductive Route : Type :=
| ToHelp
| ToStatus
| ToSubscribe
| ToSettings
| ToStart
| ToUnsubscribe
| ToSetLevel (level : option Z)
| ToCheckPayment (targetUserId : option string)
| NoHandler.

Definition route (data : string) : Route :=
  if String.eqb data "help" then ToHelp
  else if String.eqb data "status" then ToStatus
  else if String.eqb data "subscribe" then ToSubscribe
  else if String.eqb data "settings" then ToSettings
  else if String.eqb data "back_to_main" then ToStart
  else if String.eqb data "unsubscribe" then ToUnsubscribe
  else if Js.startsWith data "level_" then
    ToSetLevel (match split "_" data !! 1%nat with
                | Some part => Js.parseInt part None
                | None => None
                end)
  else if Js.startsWith data "check_payment_" then
    ToCheckPayment (split "_" data !! 2%nat)
  else NoHandler.

End Router.

(* ===================================================================== *)
(** ** What a history and a sequence of events show *)
(* ===================================================================== *)

Module Trace.

(** The attempt numbers of the ledger requests of a history, oldest
    first. *)
Definition fetchAttempts (h : list (Call * BotState)) : list nat :=
  omap (fun e => match fst e with
                 | AxiosGet attempt _ => Some attempt
                 | _ => None
                 end) h.

(** The subscription writes of a history: user, reference, days and
    whether the store accepted. *)
Definition subscriptions (h : list (Call * BotState)) : list (string * string * Z * bool) :=
  omap (fun e => match fst e with
                 | CreateSubscription userId ref days stored => Some (userId, ref, days, stored)
                 | _ => None
                 end) h.

(** The text messages of a sequence of events that reach the
    de-duplication test, oldest first. *)
Definition userTexts (events : list Dedup.Event) : list Dedup.TextMessage :=
  omap (fun e => match e with
                 | Dedup.MessageArrives msg =>
                     if Dedup.isUserText msg then Some msg else None
                 | _ => None
                 end) events.

End Trace.

Module Sanitize.

(** A JavaScript string as its sequence of UTF-16 code units; the
    regular expressions below have no [u] flag and work on code units. *)
Definition CodeUnits : Type := list N.

(** The class [\s] of a regular expression, which is also what [trim]
    removes: WhiteSpace and LineTerminator. *)
Definition isSpace (c : N) : bool :=
  ((9 <=? c) && (c <=? 13) || (c =? 32) || (c =? 160) || (c =? 5760) ||
   (8192 <=? c) && (c <=? 8202) || (c =? 8232) || (c =? 8233) ||
   (c =? 8239) || (c =? 8287) || (c =? 12288) || (c =? 65279))%N.

Definition isLatinLetter (c : N) : bool :=
  ((97 <=? c) && (c <=? 122) || (65 <=? c) && (c <=? 90))%N.

(** Complement of the class [[^a-zA-Z\s\-']] of [scheduler.js]. *)
Definition latinKept (c : N) : bool :=
  (isLatinLetter c || isSpace c || (c =? 45) || (c =? 39))%N.

(** Complement of the class [[^\u30A0-\u30FF\s\-ー]] of
    [telegramBot.js]; the long vowel mark is U+30FC. *)
Definition katakanaKept (c : N) : bool :=
  ((12448 <=? c) && (c <=? 12543) || isSpace c || (c =? 45) || (c =? 12540))%N.

Fixpoint trimStart (s : CodeUnits) : CodeUnits :=
  match s with
  | c :: s' => if isSpace c then trimStart s' else s
  | [] => []
  end.

Definition trimEnd (s : CodeUnits) : CodeUnits := rev (trimStart (rev s)).

(** [s.trim()]. *)
Definition trim (s : CodeUnits) : CodeUnits := trimEnd (trimStart s).

(** [text.toString().replace(/[^...]/g, '').trim()] behind the guard
    [if (!text) return ''], for a [text] that is a string. *)
Definition sanitize (kept : N → bool) (text : CodeUnits) : CodeUnits :=
  match text with
  | [] => []
  | _ => trim (filter (fun c => kept c = true) text)
  end.

(** [sanitizePronunciation] of [scheduler.js]. *)
Definition sanitizeLatin : CodeUnits → CodeUnits := sanitize latinKept.

(** [sanitizePronunciation] of [telegramBot.js]. *)
Definition sanitizeKatakana : CodeUnits → CodeUnits := sanitize katakanaKept.

(** No white space at either end. *)
Definition trimmed (s : CodeUnits) : Prop :=
  match s with [] => True | c :: _ => isSpace c = false end ∧
  match rev s with [] => True | c :: _ => isSpace c = false end.

End Sanitize.

Module Subscribe.
Import Async.
Local Open Scope async_scope.

(** Characters that [encodeURIComponent] leaves as they are. *)
Definition isUnreserved (c : ascii) : bool :=
  let n := nat_of_ascii c in
  ((Nat.leb 48 n && Nat.leb n 57) || (Nat.leb 65 n && Nat.leb n 90) ||
   (Nat.leb 97 n && Nat.leb n 122) ||
   existsb (Nat.eqb n) [45; 95; 46; 33; 126; 42; 39; 40; 41])%nat.

Definition hexDigit (n : nat) : ascii :=
  ascii_of_nat (if Nat.ltb n 10 then 48 + n else 55 + n)%nat.

(** [encodeURIComponent(s)] for a well-formed string, given by its UTF-8
    bytes: every byte that is not an unreserved character becomes [%XX]. *)
Fixpoint encodeURIComponent (s : string) : string :=
  match s with
  | EmptyString => EmptyString
  | String c s' =>
      if isUnreserved c then String c (encodeURIComponent s')
      else
        let n := nat_of_ascii c in
        String "%" (String (hexDigit (n / 16)) (String (hexDigit (n mod 16))
          (encodeURIComponent s')))
  end.

(** The two fixed texts [handleSubscribe] sends. *)
Inductive Notice : Type :=
| AlreadyActive
| Apology.

Definition noticeText (n : Notice) : string :=
  match n with
  | AlreadyActive => "✅ すでにアクティブな購読があります！"
  | Apology => "❌ お支払い中に問題が発生しました。もう一度お試しください。"
  end.

(** The parts of the offer that vary: the price text inside the message,
    the three payment links and the data of the button that starts the
    check. *)
Record Offer : Type := {
  priceText : string;
  telegramWalletLink : string;
  tonDeepLink : string;
  tonUsdtDeepLink : string;
  checkButtonData : string
}.

Section WithPrices.
(** The amount of TON quoted for one dollar is a JavaScript number that
    is not an integer; what the code computes from it is kept abstract:
    its truthiness, [Math.floor(x * config.TON_CONVERSIONS.NANO_TO_TON)]
    for a finite [x], and [x.toFixed(4)]. *)
Variable Amount : Type.
Variable truthyAmount : Amount → bool.
Variable toNano : Amount → Z.
Variable toFixed4 : Amount → string.
(** [1.0 / fallbackPrice]. *)
Variable fallbackAmount : Amount.
Variable cfg : Config.
(** [config.TON_ADDRESS]. *)
Variable TON_ADDRESS : string.

(** Calls that leave the bot object, with what came back. *)
Inductive Call : Type :=
| GetActiveSubscription (userKey : string) (result : option bool)
| GetTonAmountForUSD (result : option (option Amount))
| FormatPriceMessage (tonAmountForUSD : Amount) (result : option string)
| SendNotice (chatId : Z) (notice : Notice) (delivered : bool)
| SendOffer (chatId : Z) (offer : Offer) (delivered : bool).

(** How the surroundings answer: the store has an active subscription
    or not, or throws; the price service quotes an amount, or nothing, or
    throws; the two readings of [Date.now()]; the price text, unless
    formatting throws; the chat transport, by position of the call. *)
Record Env : Type := {
  activeSubscription : option bool;
  quote : option (option Amount);
  referenceTime : Z;
  recordTime : Z;
  priceMessage : Amount → option string;
  chatOk : nat → bool
}.

Record State : Type := {
  botState : BotState;
  log : list Call
}.

Variable env : Env.

Definition logCall (c : Call) (w : State) : State :=
  {| botState := botState w; log := log w ++ [c] |}.

Definition getActiveSubscription (userKey : string) : M State bool :=
  fun w =>
    (match activeSubscription env with Some b => Normal b | None => Thrown end,
     logCall (GetActiveSubscription userKey (activeSubscription env)) w).

Definition getTonAmountForUSD : M State (option Amount) :=
  fun w =>
    (match quote env with Some q => Normal q | None => Thrown end,
     logCall (GetTonAmountForUSD (quote env)) w).

Definition formatPriceMessage (tonAmountForUSD : Amount) : M State string :=
  fun w =>
    (match priceMessage env tonAmountForUSD with Some t => Normal t | None => Thrown end,
     logCall (FormatPriceMessage tonAmountForUSD (priceMessage env tonAmountForUSD)) w).

Definition sendNotice (chatId : Z) (n : Notice) : M State unit :=
  fun w =>
    let ok := chatOk env (length (log w)) in
    (unitOrThrow ok, logCall (SendNotice chatId n ok) w).

Definition sendOffer (chatId : Z) (offer : Offer) : M State unit :=
  fun w =>
    let ok := chatOk env (length (log w)) in
    (unitOrThrow ok, logCall (SendOffer chatId offer ok) w).

Definition modifyBot (f : BotState → BotState) : M State unit :=
  fun w => (Normal tt, {| botState := f (botState w); log := log w |}).

(** The amount used after [if (!tonAmountForUSD) { ... }]. *)
Definition quotedOrFallback (quoted : option Amount) : Amount :=
  match quoted with
  | Some a => if truthyAmount a then a else fallbackAmount
  | None => fallbackAmount
  end.

(** [newPayment]. *)
Definition newPayment (userId : Z) (tonAmountForUSD : Amount) : PendingPayment :=
  {| reference := Reference.paymentReference userId (referenceTime env);
     amount := toNano tonAmountForUSD;
     usdtAmount := usdtAmountMicro cfg;
     timestamp := recordTime env |}.

(** The links and the keyboard built for [paymentReference]. *)
Definition offerFor (userId : Z) (tonAmountForUSD : Amount) (priceMessage : string) : Offer :=
  let usdtAmount := usdtAmountMicro cfg in
  let tonAmountNano := toNano tonAmountForUSD in
  let paymentReference := Reference.paymentReference userId (referenceTime env) in
  {| priceText := priceMessage;
     telegramWalletLink :=
       "https://t.me/wallet?start=pay&address=" +:+ TON_ADDRESS +:+
       "&amount=" +:+ toFixed4 tonAmountForUSD +:+
       "&comment=" +:+ encodeURIComponent paymentReference;
     tonDeepLink :=
       "ton://transfer/" +:+ TON_ADDRESS +:+
       "?amount=" +:+ Dedup.numberToString tonAmountNano +:+
       "&text=" +:+ paymentReference;
     tonUsdtDeepLink :=
       "ton://transfer/" +:+ TON_ADDRESS +:+
       "?amount=" +:+ Dedup.numberToString usdtAmount +:+
       "&text=" +:+ paymentReference +:+
       "&jetton=" +:+ USDT_CONTRACT_ADDRESS cfg;
     checkButtonData := Reference.checkPaymentData userId |}.

Definition handleSubscribe (chatId userId : Z) : M State unit :=
  tryCatch
    (existingSubscription <- getActiveSubscription (Reference.userKey userId) ;;
     if existingSubscription then sendNotice chatId AlreadyActive
     else
       quoted <- getTonAmountForUSD ;;
       let tonAmountForUSD := quotedOrFallback quoted in
       modifyBot (Ledger.record (Reference.userKey userId)
                    (newPayment userId tonAmountForUSD)) ;;
       priceMessage <- formatPriceMessage tonAmountForUSD ;;
       sendOffer chatId (offerFor userId tonAmountForUSD priceMessage))
    (sendNotice chatId Apology).

(** The offers of a log, sent or not. *)
Definition offers (l : list Call) : list Offer :=
  omap (fun c => match c with SendOffer _ offer _ => Some offer | _ => None end) l.

End WithPrices.

Arguments GetActiveSubscription {Amount} userKey result.
Arguments GetTonAmountForUSD {Amount} result.
Arguments FormatPriceMessage {Amount} tonAmountForUSD result.
Arguments SendNotice {Amount} chatId notice delivered.
Arguments SendOffer {Amount} chatId offer delivered.
Arguments activeSubscription {Amount} e.
Arguments quote {Amount} e.
Arguments referenceTime {Amount} e.
Arguments recordTime {Amount} e.
Arguments priceMessage {Amount} e tonAmountForUSD.
Arguments chatOk {Amount} e i.
Arguments botState {Amount} s.
Arguments log {Amount} s.
Arguments quotedOrFallback {Amount} truthyAmount fallbackAmount quoted.
Arguments newPayment {Amount} toNano cfg env userId tonAmountForUSD.
Arguments offerFor {Amount} toNano toFixed4 cfg TON_ADDRESS env userId tonAmountForUSD priceMessage.
Arguments handleSubscribe {Amount} truthyAmount toNano toFixed4 fallbackAmount cfg TON_ADDRESS env chatId userId.
Arguments offers {Amount} l.

End Subscribe.

Module Lesson.
Import Async.
Local Open Scope async_scope.

(** An element of [word_breakdown]: an object with a word, its meaning
    and its pronunciation, or a plain string. *)
Inductive Entry : Type :=
| WordObject (word meaning pinyin : string)
| WordText (s : string).

Record SentenceData : Type := {
  english_text : string;
  japanese_translation : string;
  word_breakdown : list Entry
}.

(** [fallbackSentences[1]]. *)
Definition fallback1 : SentenceData :=
  {| english_text := "Hello.";
     japanese_translation := "こんにちは。";
     word_breakdown := [WordObject "Hello" "こんにちは" "harou"] |}.

(** [fallbackSentences] of [generateSentence]. *)
Definition fallbackSentences (level : Z) : option SentenceData :=
  if level =? 1 then Some fallback1
  else if level =? 2 then
    Some {| english_text := "I like to eat pizza.";
            japanese_translation := "私はピザを食べるのが好きです。";
            word_breakdown :=
              [WordObject "I" "私" "ai"; WordObject "like" "好き" "raiku";
               WordObject "to eat" "食べる" "tu iito"; WordObject "pizza" "ピザ" "piza"] |}
  else if level =? 3 then
    Some {| english_text := "The weather is very nice today.";
            japanese_translation := "今日はとても良い天気です。";
            word_breakdown :=
              [WordObject "The" "その" "za"; WordObject "weather" "天気" "uezza";
               WordObject "is" "です" "izu"; WordObject "very" "とても" "veri";
               WordObject "nice" "良い" "naisu"; WordObject "today" "今日" "tudei"] |}
  else if level =? 4 then
    Some {| english_text := "I like reading books in the library.";
            japanese_translation := "私は図書館で本を読むのが好きです。";
            word_breakdown :=
              [WordObject "I" "私" "ai"; WordObject "like" "好き" "raiku";
               WordObject "reading" "読むこと" "riidingu";
               WordObject "books" "本" "bukkusu"; WordObject "in" "で" "in";
               WordObject "the" "その" "za"; WordObject "library" "図書館" "raibreri"] |}
  else if level =? 5 then
    Some {| english_text := "I look forward to hearing from you soon.";
            japanese_translation := "近いうちにご連絡をお待ちしております。";
            word_breakdown :=
              [WordObject "I" "私" "ai";
               WordObject "look forward" "楽しみにする" "rukku fowaado";
               WordObject "to" "に" "tu"; WordObject "hearing" "聞くこと" "hiaringu";
               WordObject "from" "から" "furomu"; WordObject "you" "あなた" "yuu";
               WordObject "soon" "すぐに" "suun"] |}
  else None.

(** [fallbackSentences[difficultyLevel] || fallbackSentences[1]]. *)
Definition fallbackFor (difficultyLevel : Z) : SentenceData :=
  match fallbackSentences difficultyLevel with
  | Some s => s
  | None => fallback1
  end.

(** The code units of a string of ASCII characters. *)
Definition codeUnits (s : string) : Sanitize.CodeUnits :=
  map (fun c => N.of_nat (nat_of_ascii c)) (list_ascii_of_string s).

(** The pronunciation printed for an entry of the word breakdown by
    [sendImmediateSentence]: [this.sanitizePronunciation(word.pinyin || '')]
    for an object with a word, a meaning and an ASCII pronunciation;
    nothing for any other entry. *)
Definition printedPronunciation (e : Entry) : option Sanitize.CodeUnits :=
  match e with
  | WordObject word meaning pinyin =>
      if Js.present (Some word) && Js.present (Some meaning)
      then Some (Sanitize.sanitizeKatakana (codeUnits pinyin))
      else None
  | WordText _ => None
  end.

Section WithMessage.
(** The text built from the sentence, a function of [sentenceData]
    only. *)
Variable createMessage : SentenceData → string.

Inductive Call : Type :=
| GetUser (userId : string) (result : option (option Z))
| Generate (difficultyLevel : Z) (ok : bool)
| SaveSentence (sentenceData : SentenceData) (difficultyLevel : Z) (ok : bool)
| SendLesson (chatId : Z) (message : string) (delivered : bool).

(** How the surroundings answer: the store finds the user with a
    difficulty level, finds nothing, or throws; the generation backend
    returns a sentence or throws; the store accepts the record or not; the
    chat delivers or not. *)
Record Env : Type := {
  user : option (option Z);
  generate : Z → option SentenceData;
  saveOk : bool;
  chatOk : bool
}.

Variable env : Env.

Definition getUser (userId : string) : M (list Call) (option Z) :=
  fun l =>
    (match user env with Some u => Normal u | None => Thrown end,
     l ++ [GetUser userId (user env)]).

Definition generateEnglishSentence (difficultyLevel : Z) : M (list Call) SentenceData :=
  fun l =>
    match generate env difficultyLevel with
    | Some s => (Normal s, l ++ [Generate difficultyLevel true])
    | None => (Thrown, l ++ [Generate difficultyLevel false])
    end.

Definition generateSentence (difficultyLevel : Z) : M (list Call) SentenceData :=
  tryCatch (generateEnglishSentence difficultyLevel) (ret (fallbackFor difficultyLevel)).

Definition saveSentence (s : SentenceData) (difficultyLevel : Z) : M (list Call) unit :=
  fun l => (unitOrThrow (saveOk env), l ++ [SaveSentence s difficultyLevel (saveOk env)]).

Definition sendMessage (chatId : Z) (message : string) : M (list Call) unit :=
  fun l => (unitOrThrow (chatOk env), l ++ [SendLesson chatId message (chatOk env)]).

Definition sendImmediateSentence (chatId : Z) (userId : string) : M (list Call) unit :=
  tryCatch
    (found <- getUser userId ;;
     match found with
     | None => ret tt
     | Some difficulty_level =>
         sentenceData <- generateSentence difficulty_level ;;
         saveSentence sentenceData difficulty_level ;;
         sendMessage chatId (createMessage sentenceData)
     end)
    (ret tt).

(** The sentence a user of the given level gets. *)
Definition sentenceFor (difficultyLevel : Z) : SentenceData :=
  match generate env difficultyLevel with
  | Some s => s
  | None => fallbackFor difficultyLevel
  end.

End WithMessage.

End Lesson.

Module Checkout.

(** A checkout in which nothing is quoted, so that the fallback amount is
    used; amounts of TON are given in nanoTON. *)
Definition subscribeEnv : Subscribe.Env Z :=
  {| Subscribe.activeSubscription := Some false;
     Subscribe.quote := Some None;
     Subscribe.referenceTime := 1700000000000;
     Subscribe.recordTime := 1700000000001;
     Subscribe.priceMessage := fun _ => Some "0.4000 TON";
     Subscribe.chatOk := fun _ => true |}.

(** The ledger shows the payment at the first attempt. *)
Definition paidEnv : Env :=
  {| ledger := fun _ =>
       FetchOk (Some [Sample.tonTx (Reference.paymentReference 7 1700000000000)]);
     chatOk := fun _ => true;
     storeOk := fun _ => true |}.

(** The bot object after user 7 asked to subscribe in chat 42, and the
    payment recorded for that. *)
Definition afterSubscribe : BotState :=
  Subscribe.botState
    (snd (Subscribe.handleSubscribe (fun a => negb (a =? 0)) id (fun _ => "0.4000")
            400000000 Sample.cfg "UQ-bot-wallet" subscribeEnv 42 7
            {| Subscribe.botState := initialBot; Subscribe.log := [] |})).

Definition payment : PendingPayment :=
  Subscribe.newPayment id Sample.cfg subscribeEnv 7 400000000.

End Checkout.

(* ===================================================================== *)
(** ** The states the bot object can be in *)
(* ===================================================================== *)

Module Reach.

Section WithPrices.
Variable Amount : Type.
Variable truthyAmount : Amount → bool.
Variable toNano : Amount → Z.
Variable toFixed4 : Amount → string.
Variable fallbackAmount : Amount.
Variable cfg : Config.
Variable TON_ADDRESS : string.

(** The states of the bot object that can be reached from the state the
    constructor sets up by whole runs: a run of [handleSubscribe] or of
    [handleCheckPayment] from start to end, whatever the surroundings
    answer and whoever the user is, and the listeners of chat events. *)
Inductive Reachable : BotState → Prop :=
| reach_initial : Reachable initialBot
| reach_subscribe (st : BotState) (env : Subscribe.Env Amount) (chatId userId : Z)
    (log : list (Subscribe.Call Amount)) :
    Reachable st →
    Reachable
      (Subscribe.botState
         (snd (Subscribe.handleSubscribe truthyAmount toNano toFixed4 fallbackAmount cfg
                 TON_ADDRESS env chatId userId
                 {| Subscribe.botState := st; Subscribe.log := log |})))
| reach_check (st : BotState) (env : Env) (chatId : Z) (userId : string)
    (history : list (Call * BotState)) :
    Reachable st →
    Reachable
      (bot (snd (Reconcile.handleCheckPayment cfg env chatId userId
                   {| bot := st; history := history |})))
| reach_event (st : BotState) (e : Dedup.Event) :
    Reachable st → Reachable (snd (Dedup.step st e)).

End WithPrices.

End Reach.

(* ===================================================================== *)
(** ** Checks that overlap *)
(* ===================================================================== *)

Module Race.

(** Lines 699-701: what the outer [catch] of [handleCheckPayment] does
    once its send of line 697 has resolved, applied to the bot object as it
    is at that time. *)
Definition outerCatchResumes (userId : string) : BotState → BotState :=
  Reconcile.deleteChecking (Reconcile.checkKey userId).

(** A ledger that shows no payment and a chat that is out of reach for
    two sends in a row, the eighth and the ninth call of a run, and
    delivers before and after. *)
Definition envBlip : Env :=
  {| ledger := fun _ => FetchOk (Some []);
     chatOk := fun i => negb ((7 <=? i) && (i <=? 8))%nat;
     storeOk := fun _ => true |}.

End Race.

(* ===================================================================== *)
(** * Properties *)
(* ===================================================================== *)

(** ** Strings and arrays *)

Lemma string_app_cons (c : ascii) (s t : string) :
  String c s +:+ t = String c (s +:+ t).
Proof. reflexivity. Qed.

Lemma string_app_empty_r (s : string) : s +:+ EmptyString = s.
Proof.
  induction s as [|c s IH]; [done | by rewrite string_app_cons, IH].
Qed.

Lemma startsWith_spec (s p : string) :
  Js.startsWith s p = true ↔ ∃ t, s = p +:+ t.
Proof.
  revert s. induction p as [|c p IH]; intros s.
  - split; [intros _; by exists s | by destruct s].
  - destruct s as [|d s]; simpl.
    + split; [done | intros [t Ht]; discriminate].
    + rewrite andb_true_iff, IH. split.
      * intros [Hc [t ->]]. apply Ascii.eqb_eq in Hc as ->. by exists t.
      * intros [t Ht]. rewrite string_app_cons in Ht. injection Ht as -> ->.
        split; [apply Ascii.eqb_refl | by exists t].
Qed.

Lemma includes_unfold (s sub : string) :
  Js.includes s sub =
  Js.startsWith s sub ||
  match s with EmptyString => false | String _ s' => Js.includes s' sub end.
Proof. by destruct s. Qed.

Lemma includes_spec (s sub : string) :
  Js.includes s sub = true ↔ ∃ a b, s = a +:+ sub +:+ b.
Proof.
  induction s as [|d s IH];
    rewrite includes_unfold, orb_true_iff, startsWith_spec.
  - split.
    + intros [[t Ht] | ?]; [|done]. by exists EmptyString, t.
    + intros [a [b Hab]]. left. destruct a; [by exists b | discriminate].
  - rewrite IH. split.
    + intros [[t Ht] | [a [b ->]]]; [by exists EmptyString, t | by exists (String d a), b].
    + intros [[|c a] [b Hab]].
      * left. by exists b.
      * right. rewrite string_app_cons in Hab. injection Hab as -> ->. by exists a, b.
Qed.

Lemma includes_self (s : string) : Js.includes s s = true.
Proof.
  apply includes_spec. exists EmptyString, EmptyString.
  change (EmptyString +:+ s +:+ EmptyString) with (s +:+ EmptyString). by rewrite string_app_empty_r.
Qed.

Lemma present_Some (s : string) : Js.present (Some s) = true ↔ s ≠ EmptyString.
Proof.
  simpl. rewrite negb_true_iff. split.
  - intros H ->. by rewrite String.eqb_refl in H.
  - intros H. by apply String.eqb_neq.
Qed.

Lemma slice_last_length {A} (k : nat) (l : list A) :
  length (Js.slice_last k l) = (length l `min` k)%nat.
Proof. unfold Js.slice_last. rewrite length_drop. lia. Qed.

Lemma slice_last_short {A} (k : nat) (l : list A) :
  (length l ≤ k)%nat → Js.slice_last k l = l.
Proof.
  intros H. unfold Js.slice_last.
  replace (length l - k)%nat with 0%nat by lia. done.
Qed.

(** Trimming, pushing and trimming again keeps what trimming once after
    the push keeps. *)
Lemma slice_last_push {A} (k : nat) (l : list A) (x : A) :
  (0 < k)%nat →
  Js.slice_last k (Js.slice_last k l ++ [x]) = Js.slice_last k (l ++ [x]).
Proof.
  intros Hk. unfold Js.slice_last.
  rewrite !length_app, length_drop. simpl.
  destruct (decide (length l ≤ k)%nat) as [Hle | Hgt].
  - replace (length l - k)%nat with 0%nat by lia. simpl.
    by replace (length l - 0)%nat with (length l) by lia.
  - rewrite (drop_app_le l [x] (length l + 1 - k)) by lia.
    rewrite (drop_app_le (drop (length l - k) l)) by (rewrite length_drop; lia).
    rewrite drop_drop. do 2 f_equal. lia.
Qed.

(** ** The matcher *)

Section MatcherFacts.
Import Matcher.
Variable cfg : Config.

Lemma contains_self (s : string) : contains s s.
Proof. apply includes_spec, includes_self. Qed.

Lemma eq_or_contains (s ref : string) :
  (s = ref ∨ contains s ref) ↔ contains s ref.
Proof. split; [intros [-> | H]; [apply contains_self | done] | by right]. Qed.

Lemma textMatches_iff (ref : string) (m : Message) :
  textMatches ref m = true ↔
  ∃ body memo, decoded_body m = Some body ∧ text body = Some memo ∧
               memo ≠ EmptyString ∧ contains memo ref.
Proof.
  unfold textMatches. split.
  - destruct (decoded_body m) as [body|]; [|done].
    destruct (text body) as [memo|] eqn:Ht; [|done].
    rewrite andb_true_iff, orb_true_iff, present_Some, String.eqb_eq.
    intros [Hne Hc]. exists body, memo. repeat split; try done.
    apply eq_or_contains. destruct Hc as [-> | Hc]; [by left | right].
    by apply includes_spec.
  - intros (body & memo & -> & -> & Hne & Hc).
    rewrite andb_true_iff, orb_true_iff, present_Some. split; [done|].
    right. by apply includes_spec.
Qed.

Lemma tonTxMatches_iff (ref : string) (tx : Transaction) :
  tonTxMatches ref tx = true ↔ ∃ memo, carriesMemo tx memo ∧ contains memo ref.
Proof.
  unfold tonTxMatches, carriesMemo. rewrite orb_true_iff. split.
  - intros [Hin | Hout].
    + destruct (in_msg tx) as [m|] eqn:Hm; [|done].
      apply textMatches_iff in Hin as (body & memo & Hb & Ht & Hne & Hc).
      exists memo. split; [|done]. split; [done|]. exists m, body. eauto.
    + destruct (out_msgs tx) as [msgs|] eqn:Hm; [|done].
      apply existsb_exists in Hout as (m & Hin & Hmatch).
      apply textMatches_iff in Hmatch as (body & memo & Hb & Ht & Hne & Hc).
      exists memo. split; [|done]. split; [done|]. exists m, body.
      split; [right; eauto | done].
  - intros (memo & (Hne & m & body & Hwhere & Hb & Ht) & Hc).
    assert (textMatches ref m = true) as Hm
      by (apply textMatches_iff; exists body, memo; done).
    destruct Hwhere as [-> | (msgs & -> & Hin)]; [by left | right].
    apply existsb_exists. eauto.
Qed.

(** The native rail finds a payment exactly when some transaction of the
    batch carries a memo in which the reference occurs. *)
Lemma tonCheck_iff (ref : string) (txs : list Transaction) :
  tonCheck ref txs = true ↔
  ∃ tx memo, In tx txs ∧ carriesMemo tx memo ∧ contains memo ref.
Proof.
  unfold tonCheck. rewrite existsb_exists. split.
  - intros (tx & Hin & Hm). apply tonTxMatches_iff in Hm as (memo & ? & ?).
    by exists tx, memo.
  - intros (tx & memo & Hin & Hc & Hs). exists tx. split; [done|].
    apply tonTxMatches_iff. by exists memo.
Qed.

Lemma jettonMsgMatches_iff (ref : string) (outMsg : Message) :
  jettonMsgMatches cfg ref outMsg = true ↔ tokenTransferAccepted cfg ref outMsg.
Proof.
  unfold jettonMsgMatches, tokenTransferAccepted. split.
  - rewrite !andb_true_iff. intros [[Hs Hd] H]. split; [done|]. split; [done|].
    destruct (decoded_body outMsg) as [body|]; [|done].
    destruct (jetton_transfer body) as [jt|] eqn:Hjt; [|done].
    apply andb_true_iff in H as [Ha H].
    destruct (jetton_master_address jt) as [a|] eqn:Haddr; [|done].
    apply String.eqb_eq in Ha as ->.
    destruct (Js.parseInt (jt_amount jt) None) as [received|] eqn:Hp; [|done].
    rewrite !andb_true_iff in H. destruct H as [[[Hle Hf] Hpres] Hpay].
    destruct (forward_payload jt) as [payload|] eqn:Hfp; [|done].
    exists body, jt, received, payload.
    apply present_Some in Hpres. apply Z.leb_le in Hle.
    repeat split; try done.
    apply orb_true_iff in Hpay as [Hi | He].
    + right. by apply includes_spec.
    + left. by apply String.eqb_eq.
  - intros (Hs & Hd & body & jt & received & payload &
            -> & -> & -> & Hp & Hle & Hf & Hfp & Hne & Hc).
    rewrite Hs, Hd, String.eqb_refl, Hp, Hfp, Hf. simpl.
    apply Z.leb_le in Hle. rewrite Hle. simpl.
    apply String.eqb_neq in Hne. rewrite Hne. simpl.
    apply eq_or_contains, includes_spec in Hc. by rewrite Hc.
Qed.

(** The token rail finds a payment exactly when some outbound message of
    the batch is a transfer the code accepts. *)
Lemma usdtCheck_iff (ref : string) (txs : list Transaction) :
  usdtCheck cfg ref txs = true ↔
  ∃ outMsg, outboundOf txs outMsg ∧ tokenTransferAccepted cfg ref outMsg.
Proof.
  unfold usdtCheck, outboundOf. rewrite existsb_exists. split.
  - intros (tx & Hin & Hm). unfold jettonTxMatches in Hm.
    destruct (out_msgs tx) as [msgs|] eqn:Ho; [|done].
    apply existsb_exists in Hm as (outMsg & Hin' & Hm).
    exists outMsg. split; [by exists tx, msgs | by apply jettonMsgMatches_iff].
  - intros (outMsg & (tx & msgs & Hin & Ho & Hin') & Hacc).
    exists tx. split; [done|]. unfold jettonTxMatches. rewrite Ho.
    apply existsb_exists. exists outMsg. split; [done | by apply jettonMsgMatches_iff].
Qed.

Lemma paymentMatches_orb (txs : list Transaction) (p : PendingPayment) :
  paymentMatches cfg txs p =
  tonCheck (reference p) txs || usdtCheck cfg (reference p) txs.
Proof. unfold paymentMatches. by destruct (tonCheck _ _). Qed.


Lemma find_none_Forall {A} (f : A → bool) (l : list A) :
  find f l = None ↔ Forall (fun x => f x = false) l.
Proof.
  induction l as [|x l IH]; simpl.
  - split; [constructor | done].
  - destruct (f x) eqn:Hx; split; try done.
    + intros H. apply Forall_cons_1 in H as [? _]. congruence.
    + intros H. constructor; [done | by apply IH].
    + intros H. apply Forall_cons_1 in H as [_ ?]. by apply IH.
Qed.

(** The scan returns the newest pending payment that matches. *)
Lemma findPayment_Some (ps : list PendingPayment) (txs : list Transaction)
    (p : PendingPayment) :
  findPayment cfg ps txs = Some p ↔
  ∃ before after, ps = before ++ p :: after ∧
                  paymentMatches cfg txs p = true ∧
                  Forall (fun q => paymentMatches cfg txs q = false) after.
Proof.
  unfold findPayment. induction ps as [|q ps IH] using rev_ind.
  - simpl. split; [done | intros (b & a & H & _); by destruct b].
  - rewrite rev_app_distr. simpl.
    destruct (paymentMatches cfg txs q) eqn:Hq.
    + split.
      * intros [= <-]. exists ps, []. split; [done|]. split; [done | constructor].
      * intros (b & a & Heq & Hp & Hall).
        destruct a as [|a0 a] using rev_ind.
        -- apply app_inj_tail in Heq as [_ ->]. done.
        -- clear IHa. rewrite app_comm_cons, app_assoc in Heq.
           apply app_inj_tail in Heq as [_ ->].
           apply Forall_app in Hall as [_ Hall].
           apply Forall_cons_1 in Hall as [Hf _]. congruence.
    + rewrite IH. split.
      * intros (b & a & -> & Hp & Hall). exists b, (a ++ [q]).
        split; [by rewrite <- app_assoc|]. split; [done|].
        apply Forall_app. split; [done | by constructor].
      * intros (b & a & Heq & Hp & Hall).
        destruct a as [|a0 a] using rev_ind.
        -- apply app_inj_tail in Heq as [_ ->]. congruence.
        -- clear IHa. rewrite app_comm_cons, app_assoc in Heq.
           apply app_inj_tail in Heq as [-> ->].
           apply Forall_app in Hall as [Hall _]. by exists b, a.
Qed.

Lemma findPayment_None (ps : list PendingPayment) (txs : list Transaction) :
  findPayment cfg ps txs = None ↔
  Forall (fun q => paymentMatches cfg txs q = false) ps.
Proof.
  unfold findPayment. rewrite find_none_Forall. split; intros H.
  - rewrite <- (rev_involutive ps). by apply Forall_rev.
  - by apply Forall_rev.
Qed.

End MatcherFacts.

(** C5.  For a pending payment with reference R and any batch of
    transactions: the native rail matches when a transaction's inbound or
    outbound message has a memo equal to R; it also matches when the memo
    is R with characters before or after it; and when R occurs in no memo
    of the batch and the token rail finds nothing, the matcher returns no
    match. *)
Theorem native_rail_substring_policy
    (cfg : Config) (p : PendingPayment) (txs : list Transaction) :
  (∀ tx, In tx txs → Matcher.carriesMemo tx (reference p) →
     Matcher.tonCheck (reference p) txs = true ∧
     Matcher.findPayment cfg [p] txs = Some p)
  ∧
  (∀ tx a b, In tx txs → Matcher.carriesMemo tx (a +:+ reference p +:+ b) →
     Matcher.tonCheck (reference p) txs = true ∧
     Matcher.findPayment cfg [p] txs = Some p)
  ∧
  ((∀ tx memo, In tx txs → Matcher.carriesMemo tx memo →
      ¬ Matcher.contains memo (reference p)) →
   Matcher.usdtCheck cfg (reference p) txs = false →
   Matcher.tonCheck (reference p) txs = false ∧
   Matcher.findPayment cfg [p] txs = None).
Proof.
  assert (∀ tx memo, In tx txs → Matcher.carriesMemo tx memo →
            Matcher.contains memo (reference p) →
            Matcher.tonCheck (reference p) txs = true ∧
            Matcher.findPayment cfg [p] txs = Some p) as Hfound.
  { intros tx memo Hin Hc Hs.
    assert (Matcher.tonCheck (reference p) txs = true) as Hton
      by (apply tonCheck_iff; by exists tx, memo).
    split; [done|]. unfold Matcher.findPayment. simpl.
    by rewrite paymentMatches_orb, Hton. }
  split; [|split].
  - intros tx Hin Hc. apply (Hfound tx _ Hin Hc), contains_self.
  - intros tx a b Hin Hc. apply (Hfound tx _ Hin Hc). by exists a, b.
  - intros Hnone Husdt.
    assert (Matcher.tonCheck (reference p) txs = false) as Hton.
    { apply not_true_is_false. intros H.
      apply tonCheck_iff in H as (tx & memo & Hin & Hc & Hs).
      by apply (Hnone tx memo). }
    split; [done|]. unfold Matcher.findPayment. simpl.
    by rewrite paymentMatches_orb, Hton, Husdt.
Qed.

(** C6.  The scan goes through the pending payments newest first and
    returns the first one that matches on either rail: the result is the
    newest matching payment.  With an older payment R1 and a newer payment
    R2, a batch that matches only R1 gives R1, and a batch that matches
    both gives R2; the scan returns nothing exactly when no pending payment
    matches. *)
Theorem newest_matching_payment_wins
    (cfg : Config) (txs : list Transaction) :
  (∀ ps p, Matcher.findPayment cfg ps txs = Some p ↔
     ∃ before after, ps = before ++ p :: after ∧
       Matcher.paymentMatches cfg txs p = true ∧
       Forall (fun q => Matcher.paymentMatches cfg txs q = false) after)
  ∧
  (∀ R1 R2, Matcher.paymentMatches cfg txs R1 = true →
     Matcher.paymentMatches cfg txs R2 = false →
     Matcher.findPayment cfg [R1; R2] txs = Some R1)
  ∧
  (∀ R1 R2, Matcher.paymentMatches cfg txs R2 = true →
     Matcher.findPayment cfg [R1; R2] txs = Some R2)
  ∧
  (∀ ps, Matcher.findPayment cfg ps txs = None ↔
     Forall (fun q => Matcher.paymentMatches cfg txs q = false) ps).
Proof.
  split_and!.
  - intros ps p. apply findPayment_Some.
  - intros R1 R2 H1 H2. apply findPayment_Some.
    exists [], [R2]. split; [done|]. split; [done|]. by constructor.
  - intros R1 R2 H2. apply findPayment_Some.
    exists [R1], []. split; [done|]. split; [done | constructor].
  - intros ps. apply findPayment_None.
Qed.

(** C2, as the code has it.  For a pending payment that the native rail
    did not match, the token rail reports a match if and only if some
    outbound message of the batch has a source and a destination and is a
    jetton transfer of the configured USDT master contract, of at least the
    expected amount, with a truthy forward amount and a non-empty forward
    payload that equals or contains the reference. *)
Theorem token_rail_accepts_iff
    (cfg : Config) (p : PendingPayment) (txs : list Transaction) :
  Matcher.tonCheck (reference p) txs = false →
  (Matcher.paymentMatches cfg txs p = true ↔
   ∃ outMsg, Matcher.outboundOf txs outMsg ∧
             Matcher.tokenTransferAccepted cfg (reference p) outMsg).
Proof.
  intros Hton. rewrite paymentMatches_orb, Hton. simpl. apply usdtCheck_iff.
Qed.

(** A transfer of the right contract, amount and payload whose forward
    amount is zero meets every condition the specification lists, and the
    token rail does not match it. *)
Lemma token_rail_needs_forward_amount :
  Matcher.tonCheck (reference Sample.older) [Sample.usdtPaidNoForward] = false ∧
  (∃ outMsg, Matcher.outboundOf [Sample.usdtPaidNoForward] outMsg ∧
             Matcher.tokenTransferAsSpecified Sample.cfg (reference Sample.older) outMsg) ∧
  Matcher.paymentMatches Sample.cfg [Sample.usdtPaidNoForward] Sample.older = false.
Proof.
  split; [reflexivity|]. split; [|reflexivity].
  exists (Sample.jettonMsg (Js.Number 0) (reference Sample.older)). split.
  - eexists _, _. split; [by left|]. split; [reflexivity | by left].
  - eexists _, _, 1000000, _.
    split_and!; try reflexivity. by left.
Qed.

Lemma native_rail_substring_policy_witness :
  (Matcher.tonCheck Sample.R [Sample.tonTx Sample.R] = true ∧
   Matcher.findPayment Sample.cfg [Sample.older] [Sample.tonTx Sample.R] = Some Sample.older) ∧
  (Matcher.tonCheck Sample.R [Sample.tonTx ("sub " +:+ Sample.R +:+ " thanks")] = true ∧
   Matcher.findPayment Sample.cfg [Sample.older]
     [Sample.tonTx ("sub " +:+ Sample.R +:+ " thanks")] = Some Sample.older) ∧
  (Matcher.tonCheck Sample.R [Sample.tonTx "rent"] = false ∧
   Matcher.findPayment Sample.cfg [Sample.older] [Sample.tonTx "rent"] = None).
Proof.
  pose (R := Sample.R). split; [|split].
  - apply (proj1 (native_rail_substring_policy Sample.cfg Sample.older
                    [Sample.tonTx R]) (Sample.tonTx R)).
    + by left.
    + split; [by vm_compute|]. eexists _, _. split; [by left|]. split; reflexivity.
  - apply (proj1 (proj2 (native_rail_substring_policy Sample.cfg Sample.older
                    [Sample.tonTx ("sub " +:+ R +:+ " thanks")]))
             (Sample.tonTx ("sub " +:+ R +:+ " thanks")) "sub " " thanks").
    + by left.
    + split; [by vm_compute|]. eexists _, _. split; [by left|]. split; reflexivity.
  - apply (proj2 (proj2 (native_rail_substring_policy Sample.cfg Sample.older
                    [Sample.tonTx "rent"]))).
    + intros tx memo [<- | []] (_ & m & body & Hwhere & Hb & Ht) Hc.
      destruct Hwhere as [[= <-] | (msgs & [= <-] & [])].
      injection Hb as <-. injection Ht as <-.
      apply includes_spec in Hc. by vm_compute in Hc.
    + reflexivity.
Defined.

Lemma newest_matching_payment_wins_witness :
  Matcher.findPayment Sample.cfg [Sample.older; Sample.newer]
    [Sample.tonTx (reference Sample.older)] = Some Sample.older ∧
  Matcher.findPayment Sample.cfg [Sample.older; Sample.newer]
    [Sample.tonTx (reference Sample.older +:+ " " +:+ reference Sample.newer)]
  = Some Sample.newer.
Proof.
  split.
  - apply (proj1 (proj2 (newest_matching_payment_wins Sample.cfg
                           [Sample.tonTx (reference Sample.older)])));
      reflexivity.
  - apply (proj1 (proj2 (proj2 (newest_matching_payment_wins Sample.cfg
             [Sample.tonTx (reference Sample.older +:+ " " +:+ reference Sample.newer)]))));
      reflexivity.
Defined.

Lemma token_rail_accepts_iff_witness :
  Matcher.paymentMatches Sample.cfg [Sample.usdtPaid] Sample.older = true ↔
  ∃ outMsg, Matcher.outboundOf [Sample.usdtPaid] outMsg ∧
            Matcher.tokenTransferAccepted Sample.cfg (reference Sample.older) outMsg.
Proof.
  apply (token_rail_accepts_iff Sample.cfg Sample.older). reflexivity.
Defined.

(** ** The reconciliation loop *)

Section ReconcileFacts.
Import Async Reconcile.
Variable cfg : Config.
Variable env : Env.
Variable chatId : Z.
Variable paymentsToCheck : list PendingPayment.

Local Abbreviation poll := (pollLoop cfg env chatId paymentsToCheck).

(** A fruitless attempt before the last one is followed by a wait and the
    next attempt. *)
Lemma pollLoop_retry (remaining attempt : nat) (w : World) :
  (attempt < MAX_ATTEMPTS cfg)%nat →
  fruitless cfg env paymentsToCheck attempt = true →
  poll (S remaining) attempt w =
  poll remaining (S attempt)
    {| bot := bot w; history := history w ++ retried cfg env (bot w) attempt |}.
Proof.
  intros Hlt Hf. apply Nat.ltb_lt in Hlt. unfold fruitless in Hf.
  simpl. unfold bind, tryCatch, axiosGet, retried. simpl.
  destruct (ledger env attempt) as [|data]; simpl.
  - rewrite Hlt. unfold bind, sleep, logCall. simpl. by rewrite <- app_assoc.
  - destruct (Matcher.findPayment _ _ _); [done|].
    rewrite Hlt. unfold bind, sleep, logCall. simpl. by rewrite <- app_assoc.
Qed.

Lemma pollLoop_retries (n remaining attempt : nat) (w : World) :
  (attempt + n ≤ MAX_ATTEMPTS cfg)%nat →
  (∀ i, (attempt ≤ i < attempt + n)%nat → fruitless cfg env paymentsToCheck i = true) →
  poll (n + remaining) attempt w =
  poll remaining (attempt + n)
    {| bot := bot w; history := history w ++ retries cfg env (bot w) attempt n |}.
Proof.
  revert attempt w. induction n as [|n IH]; intros attempt w Hle Hf.
  - unfold retries. simpl. rewrite app_nil_r, Nat.add_0_r. by destruct w.
  - change (S n + remaining)%nat with (S (n + remaining)).
    rewrite pollLoop_retry by (try apply Hf; lia).
    rewrite IH by (try (intros i Hi; apply Hf); lia). simpl.
    unfold retries. simpl. rewrite <- app_assoc. simpl.
    by replace (attempt + S n)%nat with (S attempt + n)%nat by lia.
Qed.

Lemma pollLoop_found (remaining attempt : nat) (w : World) data p :
  ledger env attempt = FetchOk data →
  Matcher.findPayment cfg paymentsToCheck (transactionsOf data) = Some p →
  poll (S remaining) attempt w =
  (Normal (Break p), logCall (AxiosGet attempt (FetchOk data)) w).
Proof.
  intros Hl Hf. simpl. unfold bind, tryCatch, axiosGet. rewrite Hl. simpl.
  by rewrite Hf.
Qed.

Lemma pollLoop_last_error (remaining : nat) (w : World) :
  ledger env (MAX_ATTEMPTS cfg) = FetchError →
  poll (S remaining) (MAX_ATTEMPTS cfg) w =
  let w1 := logCall (AxiosGet (MAX_ATTEMPTS cfg) FetchError) w in
  let ok := chatOk env (length (history w1)) in
  (if ok then Normal Returned else Thrown,
   logCall (SendMessage chatId ReplyUnavailable ok) w1).
Proof.
  intros Hl. simpl. unfold bind, tryCatch, axiosGet. rewrite Hl. simpl.
  rewrite Nat.ltb_irrefl. unfold bind, sendMessage. simpl.
  by destruct (chatOk env _).
Qed.

Lemma pollLoop_last_nothing (w : World) data :
  ledger env (MAX_ATTEMPTS cfg) = FetchOk data →
  Matcher.findPayment cfg paymentsToCheck (transactionsOf data) = None →
  poll 1 (MAX_ATTEMPTS cfg) w =
  (Normal Fallthrough, logCall (AxiosGet (MAX_ATTEMPTS cfg) (FetchOk data)) w).
Proof.
  intros Hl Hf. simpl. unfold bind, tryCatch, axiosGet. rewrite Hl. simpl.
  rewrite Hf, Nat.ltb_irrefl. done.
Qed.


Lemma issued_app (h1 h2 : list (Call * BotState)) :
  issued (h1 ++ h2) = issued h1 ++ issued h2.
Proof. apply omap_app. Qed.

Lemma outcome_app (h1 h2 : list (Call * BotState)) :
  outcome (h1 ++ h2) =
  match outcome h2 with Some o => Some o | None => outcome h1 end.
Proof.
  unfold outcome. rewrite issued_app, omap_app.
  destruct (omap outcomeOfReply (issued h2)) as [|o l] using rev_ind.
  - by rewrite app_nil_r.
  - by rewrite app_assoc, !last_snoc.
Qed.

Lemma calls_app (h1 h2 : list (Call * BotState)) :
  calls (h1 ++ h2) = calls h1 ++ calls h2.
Proof. apply map_app. Qed.

Lemma retries_issued (st : BotState) (attempt n : nat) :
  issued (retries cfg env st attempt n) = [].
Proof.
  unfold retries. revert attempt. induction n as [|n IH]; intros attempt; [done|].
  simpl. apply IH.
Qed.

Lemma retries_outcome (st : BotState) (attempt n : nat) :
  outcome (retries cfg env st attempt n) = None.
Proof. unfold outcome. by rewrite retries_issued. Qed.

Lemma retries_fetches (st : BotState) (attempt n : nat) :
  length (filter isFetch (calls (retries cfg env st attempt n))) = n.
Proof.
  unfold retries. revert attempt. induction n as [|n IH]; intros attempt; [done|].
  simpl. f_equal. apply IH.
Qed.

Lemma retries_subscriptions (st : BotState) (attempt n : nat) :
  filter isCreateSubscription (calls (retries cfg env st attempt n)) = [].
Proof.
  unfold retries. revert attempt. induction n as [|n IH]; intros attempt; [done|].
  simpl. apply IH.
Qed.


End ReconcileFacts.

(** Unfold what is left of a run once the loop has been computed. *)
Ltac finish_run Hr :=
  unfold Reconcile.outerCatch, Reconcile.afterLoop, Async.bind, Async.tryCatch,
    Async.tryFinally, Reconcile.sendMessage, Reconcile.sleep,
    Reconcile.createSubscription, Reconcile.sendImmediateSentence,
    Reconcile.modify, Reconcile.getBot, Reconcile.logCall, Reconcile.onBot,
    Async.unitOrThrow, Async.ret in Hr;
  simpl in Hr.

Section HandlerFacts.
Import Async Reconcile.
Variable cfg : Config.
Variable env : Env.
Variable chatId : Z.
Variable userId : string.

Local Abbreviation key := (checkKey userId).

Lemma handle_reaches_polling (w : World) (ps : list PendingPayment) :
  key ∉ checkingPayments (bot w) →
  pendingPayments (bot w) !! userId = Some ps → ps ≠ [] →
  chatOk env (length (history w)) = true →
  handleCheckPayment cfg env chatId userId w =
  tryCatch (innerTry cfg env chatId userId ps) (outerCatch env chatId userId)
    (pollingWorld cfg chatId userId w).
Proof.
  intros Hflag Hps Hne Hchat.
  unfold handleCheckPayment, bind at 1, getBot. simpl.
  destruct (decide _) as [|_]; [done|].
  unfold bind at 1, modify. simpl.
  unfold tryCatch at 1. unfold checkBody, bind at 1, getBot. simpl.
  rewrite Hps. destruct ps as [|p ps]; [done|]. simpl.
  unfold bind at 1, sendMessage at 1. simpl. rewrite Hchat. simpl.
  unfold bind at 1, sleep at 1, logCall. simpl.
  unfold tryCatch at 1, pollingWorld. simpl.
  by rewrite <- app_assoc.
Qed.

Lemma innerTry_unfold (ps : list PendingPayment) (w : World) :
  innerTry cfg env chatId userId ps w =
  let '(c, w1) := pollLoop cfg env chatId ps (MAX_ATTEMPTS cfg) 1 w in
  let '(c', w2) :=
    match c with
    | Normal exit =>
        tryCatch (afterLoop cfg env chatId userId exit)
                 (sendMessage env chatId ReplyProblem) w1
    | Thrown => sendMessage env chatId ReplyProblem w1
    end in
  (c', onBot (deleteChecking key) w2).
Proof.
  unfold innerTry, tryFinally, tryCatch, bind.
  destruct (pollLoop _ _ _ _ _ _ _) as [[exit|] w1].
  - by destruct (afterLoop _ _ _ _ _ _) as [[[]|] w2].
  - by destruct (sendMessage _ _ _ _) as [[[]|] w2].
Qed.

Lemma pendingOf_deletePending (st : BotState) :
  Ledger.pendingOf userId (deletePending userId st) = [].
Proof. unfold Ledger.pendingOf, deletePending. simpl. by rewrite lookup_delete_eq. Qed.

Lemma remove_added (s : gset string) (k : string) :
  k ∉ s → ({[k]} ∪ s) ∖ {[k]} = s.
Proof.
  intros H. apply set_eq. intros x.
  rewrite elem_of_difference, elem_of_union, !elem_of_singleton. split.
  - by intros [[-> | Hx] Hne].
  - intros Hx. split; [by right | by intros ->].
Qed.

Lemma remove_twice (s : gset string) (k : string) :
  s ∖ {[k]} ∖ {[k]} = s ∖ {[k]}.
Proof.
  apply set_eq. intros x. rewrite !elem_of_difference. tauto.
Qed.

Lemma checking_add_delete (st : BotState) :
  key ∉ checkingPayments st →
  checkingPayments (deleteChecking key (addChecking key st)) = checkingPayments st.
Proof. intros H. unfold deleteChecking, addChecking. simpl. by apply remove_added. Qed.

Lemma pollLoop_skip (n total attempt : nat) (ps : list PendingPayment) (w : World) :
  (n ≤ total)%nat →
  (attempt + n ≤ MAX_ATTEMPTS cfg)%nat →
  (∀ i, (attempt ≤ i < attempt + n)%nat → fruitless cfg env ps i = true) →
  pollLoop cfg env chatId ps total attempt w =
  pollLoop cfg env chatId ps (total - n) (attempt + n)
    {| bot := bot w; history := history w ++ retries cfg env (bot w) attempt n |}.
Proof.
  intros Hn Hle Hf. replace total with (n + (total - n))%nat at 1 by lia.
  by apply pollLoop_retries.
Qed.

Lemma fruitless_error (ps : list PendingPayment) (i : nat) :
  ledger env i = FetchError → fruitless cfg env ps i = true.
Proof. intros H. unfold fruitless. by rewrite H. Qed.

(** Every request fails: the loop asks [MAX_ATTEMPTS] times and ends
    with the reply that the service is unavailable. *)
Lemma transport_error_run (w : World) (ps : list PendingPayment) :
  key ∉ checkingPayments (bot w) →
  pendingPayments (bot w) !! userId = Some ps → ps ≠ [] →
  chatOk env (length (history w)) = true →
  (1 ≤ MAX_ATTEMPTS cfg)%nat →
  (∀ i, ledger env i = FetchError) →
  let w' := (handleCheckPayment cfg env chatId userId w).2 in
  ∃ new,
    history w' = history w ++ new ∧
    length (filter isFetch (calls new)) = MAX_ATTEMPTS cfg ∧
    filter isCreateSubscription (calls new) = [] ∧
    outcome new = Some TRANSPORT_ERROR ∧
    pendingPayments (bot w') = pendingPayments (bot w) ∧
    checkingPayments (bot w') = checkingPayments (bot w).
Proof.
  intros Hflag Hps Hne Hchat Hmax Hled.
  destruct (handleCheckPayment cfg env chatId userId w) as [c w'] eqn:Hr.
  rewrite (handle_reaches_polling w ps) in Hr by done.
  unfold tryCatch at 1 in Hr. rewrite innerTry_unfold in Hr.
  rewrite (pollLoop_skip (MAX_ATTEMPTS cfg - 1)) in Hr
    by (try (intros i Hi; apply fruitless_error, Hled); lia).
  replace (MAX_ATTEMPTS cfg - (MAX_ATTEMPTS cfg - 1))%nat with 1%nat in Hr by lia.
  replace (1 + (MAX_ATTEMPTS cfg - 1))%nat with (MAX_ATTEMPTS cfg) in Hr by lia.
  rewrite pollLoop_last_error in Hr by done.
  finish_run Hr.
  repeat (destruct (chatOk env _) in Hr; simpl in Hr).
  all: injection Hr as <- <-; simpl.
  all: eexists; (split; [rewrite <- !app_assoc; reflexivity|]).
  all: rewrite !outcome_app, !calls_app, !filter_app, !length_app.
  all: rewrite retries_subscriptions, retries_fetches, retries_outcome; simpl.
  all: split_and!; try done; try lia.
  all: rewrite ?remove_twice; by apply remove_added.
Qed.

(** Every request is answered and nothing matches: the loop asks
    [MAX_ATTEMPTS] times and ends with the reply that the payment was not
    found. *)
Lemma exhausted_run (w : World) (ps : list PendingPayment) :
  key ∉ checkingPayments (bot w) →
  pendingPayments (bot w) !! userId = Some ps → ps ≠ [] →
  chatOk env (length (history w)) = true →
  (1 ≤ MAX_ATTEMPTS cfg)%nat →
  (∀ i, ∃ data, ledger env i = FetchOk data ∧
                Matcher.findPayment cfg ps (transactionsOf data) = None) →
  let w' := (handleCheckPayment cfg env chatId userId w).2 in
  ∃ new,
    history w' = history w ++ new ∧
    length (filter isFetch (calls new)) = MAX_ATTEMPTS cfg ∧
    filter isCreateSubscription (calls new) = [] ∧
    outcome new = Some EXHAUSTED ∧
    pendingPayments (bot w') = pendingPayments (bot w) ∧
    checkingPayments (bot w') = checkingPayments (bot w).
Proof.
  intros Hflag Hps Hne Hchat Hmax Hled.
  assert (∀ i, fruitless cfg env ps i = true) as Hfruit.
  { intros i. destruct (Hled i) as (data & Hl & Hf). unfold fruitless. by rewrite Hl, Hf. }
  destruct (Hled (MAX_ATTEMPTS cfg)) as (data & Hl & Hf).
  destruct (handleCheckPayment cfg env chatId userId w) as [c w'] eqn:Hr.
  rewrite (handle_reaches_polling w ps) in Hr by done.
  unfold tryCatch at 1 in Hr. rewrite innerTry_unfold in Hr.
  rewrite (pollLoop_skip (MAX_ATTEMPTS cfg - 1)) in Hr by (try done; lia).
  replace (MAX_ATTEMPTS cfg - (MAX_ATTEMPTS cfg - 1))%nat with 1%nat in Hr by lia.
  replace (1 + (MAX_ATTEMPTS cfg - 1))%nat with (MAX_ATTEMPTS cfg) in Hr by lia.
  rewrite (pollLoop_last_nothing _ _ _ _ _ data) in Hr by done.
  finish_run Hr.
  repeat (destruct (chatOk env _) in Hr; simpl in Hr).
  all: injection Hr as <- <-; simpl.
  all: eexists; (split; [rewrite <- !app_assoc; reflexivity|]).
  all: rewrite !outcome_app, !calls_app, !filter_app, !length_app.
  all: rewrite retries_subscriptions, retries_fetches, retries_outcome; simpl.
  all: split_and!; try done; try lia.
  all: rewrite ?remove_twice; by apply remove_added.
Qed.

(** While the flag of the user is set, a trigger only issues the reply
    that a check is running. *)
Lemma rejected_while_checking (w : World) :
  key ∈ checkingPayments (bot w) →
  handleCheckPayment cfg env chatId userId w =
  let ok := chatOk env (length (history w)) in
  (unitOrThrow ok,
   {| bot := bot w;
      history := history w ++ [(SendMessage chatId ReplyAlreadyChecking ok, bot w)] |}).
Proof.
  intros Hflag. unfold handleCheckPayment, bind, getBot. simpl.
  by destruct (decide _).
Qed.

(** One iteration of the loop, case by case. *)
Lemma pollLoop_step (ps : list PendingPayment) (remaining attempt : nat) (w : World) :
  pollLoop cfg env chatId ps (S remaining) attempt w =
  let w1 := logCall (AxiosGet attempt (ledger env attempt)) w in
  match ledger env attempt with
  | FetchError =>
      if (attempt <? MAX_ATTEMPTS cfg)%nat
      then pollLoop cfg env chatId ps remaining (S attempt)
             (logCall (Sleep (RETRY_DELAY_MS cfg)) w1)
      else
        let ok := chatOk env (length (history w1)) in
        (if ok then Normal Returned else Thrown,
         logCall (SendMessage chatId ReplyUnavailable ok) w1)
  | FetchOk data =>
      match Matcher.findPayment cfg ps (transactionsOf data) with
      | Some p => (Normal (Break p), w1)
      | None =>
          if (attempt <? MAX_ATTEMPTS cfg)%nat
          then pollLoop cfg env chatId ps remaining (S attempt)
                 (logCall (Sleep (RETRY_DELAY_MS cfg)) w1)
          else pollLoop cfg env chatId ps remaining (S attempt) w1
      end
  end.
Proof.
  simpl. unfold bind, tryCatch, axiosGet.
  destruct (ledger env attempt) as [|data]; simpl.
  - destruct (attempt <? MAX_ATTEMPTS cfg)%nat; simpl; [done|].
    unfold sendMessage. simpl. by destruct (chatOk env _).
  - destruct (Matcher.findPayment _ _ _) as [p|]; simpl; [done|].
    by destruct (attempt <? MAX_ATTEMPTS cfg)%nat.
Qed.

(** The loop does not touch the bot object, and every call it makes sees
    the state the loop was entered with. *)
Lemma pollLoop_snapshots (ps : list PendingPayment) (remaining attempt : nat) (w : World) :
  let w1 := (pollLoop cfg env chatId ps remaining attempt w).2 in
  bot w1 = bot w ∧
  ∃ t, history w1 = history w ++ t ∧ Forall (fun e => snd e = bot w) t.
Proof.
  revert attempt w. induction remaining as [|remaining IH]; intros attempt w.
  - simpl. split; [done|]. exists []. by rewrite app_nil_r.
  - rewrite pollLoop_step. cbv zeta.
    assert (∀ w0 t0, bot w0 = bot w → history w0 = history w ++ t0 →
              Forall (fun e => snd e = bot w) t0 →
              let w1 := (pollLoop cfg env chatId ps remaining (S attempt) w0).2 in
              bot w1 = bot w ∧
              ∃ t, history w1 = history w ++ t ∧ Forall (fun e => snd e = bot w) t)
      as Hnext.
    { intros w0 t0 Hb Hh Hall. destruct (IH (S attempt) w0) as (Hb' & t & Ht & Hall').
      cbv zeta. rewrite Hb', Hb. split; [done|]. exists (t0 ++ t).
      rewrite Ht, Hh, <- app_assoc. split; [done|].
      apply Forall_app. split; [done|]. by rewrite <- Hb. }
    destruct (ledger env attempt) as [|data].
    + destruct (attempt <? MAX_ATTEMPTS cfg)%nat.
      * eapply Hnext; [done | unfold logCall; simpl; by rewrite <- app_assoc |].
        by repeat constructor.
      * simpl. split; [done|]. rewrite <- app_assoc. eexists. split; [done|].
        by repeat constructor.
    + destruct (Matcher.findPayment _ _ _) as [p|].
      * simpl. split; [done|]. eexists. split; [done|]. by repeat constructor.
      * destruct (attempt <? MAX_ATTEMPTS cfg)%nat.
        -- eapply Hnext; [done | unfold logCall; simpl; by rewrite <- app_assoc |].
           by repeat constructor.
        -- eapply Hnext; [done | done |]. by repeat constructor.
Qed.

Lemma not_in_deleteChecking (st : BotState) :
  key ∉ checkingPayments (deleteChecking key st).
Proof.
  unfold deleteChecking. simpl. rewrite elem_of_difference, elem_of_singleton. tauto.
Qed.

Lemma in_addChecking (st : BotState) : key ∈ checkingPayments (addChecking key st).
Proof.
  unfold addChecking. simpl. rewrite elem_of_union, elem_of_singleton. by left.
Qed.

(** What follows the loop, up to the end of the handler: the flag is
    removed, and until then every call but the apology sees the flags the
    loop saw. *)
Lemma after_polling (c : Completion LoopExit) (w1 : World) :
  let '(c', w2) :=
    match c with
    | Normal exit =>
        tryCatch (afterLoop cfg env chatId userId exit)
                 (sendMessage env chatId ReplyProblem) w1
    | Thrown => sendMessage env chatId ReplyProblem w1
    end in
  let w3 := onBot (deleteChecking key) w2 in
  let r := match c' with
           | Normal a => (Normal a, w3)
           | Thrown => outerCatch env chatId userId w3
           end in
  (key ∉ checkingPayments (bot (snd r))) ∧
  (∃ t, history (snd r) = history w1 ++ t ∧
        Forall (fun e => inFlight (fst e) = true →
                         checkingPayments (snd e) = checkingPayments (bot w1)) t).
Proof.
  destruct c as [[p | |]|];
    unfold outerCatch, afterLoop, bind, tryCatch, sendMessage, createSubscription,
      sendImmediateSentence, modify, logCall, onBot, unitOrThrow, ret; simpl.
  all: repeat (match goal with
               | |- context [chatOk env ?n] => destruct (chatOk env n)
               | |- context [storeOk env ?n] => destruct (storeOk env n)
               end; simpl).
  all: split; [rewrite ?remove_twice; apply not_in_deleteChecking|].
  all: rewrite <- ?app_assoc; eexists; (split; [try reflexivity|]).
  all: try by repeat constructor.
  all: try (by rewrite app_nil_r).
Qed.

(** The run of a trigger that found the flag unset, from the start of the
    polling phase on. *)
Lemma polling_phase (ps : list PendingPayment) (w2 : World) :
  let r := tryCatch (innerTry cfg env chatId userId ps)
             (outerCatch env chatId userId) w2 in
  (key ∉ checkingPayments (bot (snd r))) ∧
  (∃ t1 t2, history (snd r) = history w2 ++ t1 ++ t2 ∧
            Forall (fun e => snd e = bot w2) t1 ∧
            Forall (fun e => inFlight (fst e) = true →
                             checkingPayments (snd e) = checkingPayments (bot w2)) t2).
Proof.
  unfold tryCatch at 1. rewrite innerTry_unfold.
  destruct (pollLoop_snapshots ps (MAX_ATTEMPTS cfg) 1 w2) as (Hb & t1 & Ht1 & Hall1).
  destruct (pollLoop cfg env chatId ps (MAX_ATTEMPTS cfg) 1 w2) as [c w1].
  simpl in Hb, Ht1.
  pose proof (after_polling c w1) as Hafter.
  destruct (match c with Normal _ => _ | Thrown => _ end) as [c' w3].
  cbv zeta in Hafter. destruct Hafter as (Hflag & t2 & Ht2 & Hall2).
  split; [done|]. exists t1, t2. rewrite Hb in Hall2.
  by rewrite Ht2, Ht1, <- app_assoc.
Qed.

(** Every call of a run that found the flag unset, but the replies that
    end it, is made with the flag set. *)
Lemma in_flight_under_flag (w : World) :
  key ∉ checkingPayments (bot w) →
  let w' := snd (handleCheckPayment cfg env chatId userId w) in
  ∃ new, history w' = history w ++ new ∧
         Forall (fun e => inFlight (fst e) = true →
                          key ∈ checkingPayments (snd e)) new.
Proof.
  intros Hflag.
  destruct (pendingPayments (bot w) !! userId) as [[|p0 ps0]|] eqn:Hps;
    [| destruct (chatOk env (length (history w))) eqn:Hchat |].
  2: { set (ps := p0 :: ps0) in *.
       rewrite (handle_reaches_polling w ps) by done.
       destruct (polling_phase ps (pollingWorld cfg chatId userId w))
         as (_ & t1 & t2 & Ht & Hall1 & Hall2).
       cbv zeta. rewrite Ht. simpl. rewrite <- app_assoc. eexists. split; [reflexivity|].
       simpl. repeat constructor; simpl; try (intros _; apply in_addChecking).
       apply Forall_app. split.
       - eapply Forall_impl; [exact Hall1|]. intros e -> _. apply in_addChecking.
       - eapply Forall_impl; [exact Hall2|]. intros e He Hin. rewrite (He Hin).
         apply in_addChecking. }
  all: unfold handleCheckPayment, checkBody, outerCatch, bind, tryCatch, getBot,
         modify, sendMessage, onBot, logCall, unitOrThrow; simpl.
  all: destruct (decide _) as [|_]; [done|]; simpl; rewrite Hps; simpl.
  all: rewrite ?Hchat; simpl.
  all: repeat (match goal with
               | |- context [chatOk env ?n] => destruct (chatOk env n)
               end; simpl).
  all: rewrite <- ?app_assoc; eexists; (split; [reflexivity|]).
  all: repeat constructor; simpl; try done.
  all: intros _; apply in_addChecking.
Qed.

(** The flag survives a run exactly when the notice that the check
    is running and the apology of the outer handler both fail to be
    sent. *)
Lemma flag_left_iff (w : World) :
  key ∉ checkingPayments (bot w) →
  let w' := snd (handleCheckPayment cfg env chatId userId w) in
  key ∈ checkingPayments (bot w') ↔
  (∃ ps, pendingPayments (bot w) !! userId = Some ps ∧ ps ≠ []) ∧
  chatOk env (length (history w)) = false ∧
  chatOk env (S (length (history w))) = false.
Proof.
  intros Hflag.
  destruct (pendingPayments (bot w) !! userId) as [[|p0 ps0]|] eqn:Hps;
    [| destruct (chatOk env (length (history w))) eqn:Hchat |].
  2: { set (ps := p0 :: ps0) in *.
       rewrite (handle_reaches_polling w ps) by done.
       destruct (polling_phase ps (pollingWorld cfg chatId userId w)) as (Hout & _).
       cbv zeta. split; [done | by intros (_ & ? & _)]. }
  all: unfold handleCheckPayment, checkBody, outerCatch, bind, tryCatch, getBot,
         modify, sendMessage, onBot, logCall, unitOrThrow; simpl.
  all: destruct (decide _) as [|_]; [done|]; simpl; rewrite Hps; simpl.
  all: rewrite ?Hchat; simpl.
  all: rewrite ?length_app; simpl; rewrite ?Nat.add_1_r.
  all: repeat (match goal with
               | |- context [chatOk env ?n] => destruct (chatOk env n) eqn:?
               end; simpl).
  all: rewrite ?remove_twice, ?remove_added by done.
  all: split; [intros Hin | intros ([ps' [Heq Hne']] & H1 & H2)]; try done.
  - by injection Heq as <-.
  - split; [by exists (p0 :: ps0) | done].
  - rewrite elem_of_union, elem_of_singleton. by left.
Qed.
End HandlerFacts.

Section FirstFetch.
Import Async Reconcile.
Variable cfg : Config.
Variable env : Env.
Variable chatId : Z.
Variable userId : string.

(** The loop starts with a ledger request whenever it is allowed at least
    one attempt. *)
Lemma pollLoop_first_fetch (ps : list PendingPayment) (remaining attempt : nat) (w : World) :
  ∃ t, history (snd (pollLoop cfg env chatId ps (S remaining) attempt w)) =
       history w ++ (AxiosGet attempt (ledger env attempt), bot w) :: t.
Proof.
  rewrite pollLoop_step. cbv zeta.
  assert (∀ w0 t0, history w0 = history w ++ (AxiosGet attempt (ledger env attempt), bot w) :: t0 →
            ∃ t, history (snd (pollLoop cfg env chatId ps remaining (S attempt) w0)) =
                 history w ++ (AxiosGet attempt (ledger env attempt), bot w) :: t) as Hnext.
  { intros w0 t0 Hh.
    destruct (pollLoop_snapshots cfg env chatId ps remaining (S attempt) w0) as (_ & t & Ht & _).
    exists (t0 ++ t). rewrite Ht, Hh, <- app_assoc. done. }
  destruct (ledger env attempt) as [|data].
  - destruct (attempt <? MAX_ATTEMPTS cfg)%nat.
    + eapply Hnext. unfold logCall. simpl. by rewrite <- app_assoc.
    + simpl. rewrite <- app_assoc. by eexists.
  - destruct (Matcher.findPayment _ _ _) as [p|].
    + simpl. by eexists.
    + destruct (attempt <? MAX_ATTEMPTS cfg)%nat.
      * eapply Hnext. unfold logCall. simpl. by rewrite <- app_assoc.
      * eapply Hnext. done.
Qed.

(** A trigger that reaches the polling phase asks the ledger at least
    once. *)
Lemma first_trigger_polls (w : World) (ps : list PendingPayment) :
  checkKey userId ∉ checkingPayments (bot w) →
  pendingPayments (bot w) !! userId = Some ps → ps ≠ [] →
  chatOk env (length (history w)) = true →
  (1 ≤ MAX_ATTEMPTS cfg)%nat →
  ∃ h1 h2, history (snd (handleCheckPayment cfg env chatId userId w)) =
           history w ++ h1 ++ (AxiosGet 1 (ledger env 1), addChecking (checkKey userId) (bot w)) :: h2.
Proof.
  intros Hflag Hps Hne Hchat Hmax.
  rewrite (handle_reaches_polling cfg env chatId userId w ps) by done.
  unfold tryCatch at 1. rewrite innerTry_unfold.
  destruct (MAX_ATTEMPTS cfg) as [|m] eqn:Hm; [lia|].
  destruct (pollLoop_first_fetch ps m 1 (pollingWorld cfg chatId userId w)) as (t & Ht).
  destruct (pollLoop cfg env chatId ps (S m) 1 _) as [c w1]. simpl in Ht.
  pose proof (after_polling cfg env chatId userId c w1) as Hafter.
  destruct (match c with Normal _ => _ | Thrown => _ end) as [c' w3].
  cbv zeta in Hafter. destruct Hafter as (_ & t2 & Ht2 & _).
  rewrite Ht2, Ht. simpl. rewrite <- !app_assoc. simpl.
  by exists [(SendMessage chatId ReplyChecking true, addChecking (checkKey userId) (bot w));
             (Sleep (INITIAL_DELAY_MS cfg), addChecking (checkKey userId) (bot w))], (t ++ t2).
Qed.

End FirstFetch.

Import Reconcile.

(** C1, as the code has it.  In a run whose polling phase is reached and in
    which the matcher first finds a pending payment on some attempt [k], if
    the store accepts the subscription then: the outcome is CONFIRMED;
    exactly one subscription is created, for that user, with the reference
    of the matched payment and the fixed duration; the whole pending entry
    of the user is deleted, so that a later lookup is empty; and the flag
    is removed. *)
Theorem confirmed_when_store_accepts
    (cfg : Config) (env : Env) (chatId : Z) (userId : string) (w : World)
    (ps : list PendingPayment) (k : nat)
    (data : option (list Transaction)) (p : PendingPayment) :
  checkKey userId ∉ checkingPayments (bot w) →
  pendingPayments (bot w) !! userId = Some ps →
  chatOk env (length (history w)) = true →
  (1 ≤ k ≤ MAX_ATTEMPTS cfg)%nat →
  (∀ i, (1 ≤ i < k)%nat → fruitless cfg env ps i = true) →
  ledger env k = FetchOk data →
  Matcher.findPayment cfg ps (transactionsOf data) = Some p →
  (∀ i, storeOk env i = true) →
  let w' := snd (handleCheckPayment cfg env chatId userId w) in
  ∃ new,
    history w' = history w ++ new ∧
    outcome new = Some CONFIRMED ∧
    filter isCreateSubscription (calls new) =
      [CreateSubscription userId (reference p) (SUBSCRIPTION_DAYS cfg) true] ∧
    length (filter isFetch (calls new)) = k ∧
    pendingPayments (bot w') = delete userId (pendingPayments (bot w)) ∧
    Ledger.pendingOf userId (bot w') = [] ∧
    checkingPayments (bot w') = checkingPayments (bot w).
Proof.
  intros Hflag Hps Hchat Hk Hfruit Hled Hfind Hstore.
  assert (ps ≠ []) as Hne by (intros ->; discriminate).
  destruct (handleCheckPayment cfg env chatId userId w) as [c w'] eqn:Hr.
  rewrite (handle_reaches_polling cfg env chatId userId w ps) in Hr by done.
  unfold Async.tryCatch at 1 in Hr. rewrite innerTry_unfold in Hr.
  rewrite (pollLoop_skip cfg env chatId (k - 1)) in Hr
    by (try (intros i Hi; apply Hfruit); lia).
  replace (MAX_ATTEMPTS cfg - (k - 1))%nat with (S (MAX_ATTEMPTS cfg - k)) in Hr by lia.
  replace (1 + (k - 1))%nat with k in Hr by lia.
  rewrite (pollLoop_found _ _ _ _ _ _ _ data p) in Hr by done.
  set (st1 := addChecking (checkKey userId) (bot w)) in *.
  finish_run Hr. rewrite Hstore in Hr. simpl in Hr.
  repeat (destruct (chatOk env _) in Hr; simpl in Hr).
  all: injection Hr as <- <-; simpl.
  all: eexists; (split; [rewrite <- !app_assoc; reflexivity|]).
  all: rewrite !outcome_app, !calls_app, !filter_app, !length_app.
  all: rewrite retries_subscriptions, retries_fetches, retries_outcome; simpl.
  all: split_and!; try done; try lia.
  all: try apply (pendingOf_deletePending userId st1).
  all: try by apply checking_add_delete.
  rewrite remove_twice. by apply remove_added.
Qed.

Lemma confirmed_when_store_accepts_witness :
  ∃ new,
    history (snd (handleCheckPayment Sample.cfg Sample.envPaidLate 42 "7"
                    (Sample.world Sample.botWithPending))) = [] ++ new ∧
    outcome new = Some CONFIRMED ∧
    filter isCreateSubscription (calls new) =
      [CreateSubscription "7" (reference Sample.older) 30 true] ∧
    length (filter isFetch (calls new)) = 2%nat ∧
    pendingPayments (bot (snd (handleCheckPayment Sample.cfg Sample.envPaidLate 42 "7"
                                 (Sample.world Sample.botWithPending)))) =
      delete "7" (pendingPayments Sample.botWithPending) ∧
    Ledger.pendingOf "7"
      (bot (snd (handleCheckPayment Sample.cfg Sample.envPaidLate 42 "7"
                   (Sample.world Sample.botWithPending)))) = [] ∧
    checkingPayments (bot (snd (handleCheckPayment Sample.cfg Sample.envPaidLate 42 "7"
                                  (Sample.world Sample.botWithPending)))) =
      checkingPayments Sample.botWithPending.
Proof.
  apply (confirmed_when_store_accepts Sample.cfg Sample.envPaidLate 42 "7"
           (Sample.world Sample.botWithPending) [Sample.older; Sample.newer] 2
           (Some [Sample.tonTx (reference Sample.older)]) Sample.older).
  - apply not_elem_of_empty.
  - reflexivity.
  - reflexivity.
  - simpl. lia.
  - intros i Hi. assert (i = 1%nat) as -> by lia. reflexivity.
  - reflexivity.
  - reflexivity.
  - reflexivity.
Defined.

(** The store rejects the subscription although the matcher found the
    payment: the run ends without the CONFIRMED outcome and the pending
    payments of the user stay recorded. *)
Lemma store_failure_leaves_payment_pending :
  Matcher.findPayment Sample.cfg [Sample.older; Sample.newer]
    (transactionsOf (Some [Sample.tonTx (reference Sample.older)])) = Some Sample.older ∧
  calls (history (snd (handleCheckPayment Sample.cfg Sample.envStoreDown 42 "7"
                         (Sample.world Sample.botWithPending)))) =
    [SendMessage 42 ReplyChecking true; Sleep 5000;
     AxiosGet 1 (FetchOk (Some [])); Sleep 10000;
     AxiosGet 2 (FetchOk (Some [Sample.tonTx (reference Sample.older)]));
     CreateSubscription "7" (reference Sample.older) 30 false;
     SendMessage 42 ReplyProblem true] ∧
  outcome (history (snd (handleCheckPayment Sample.cfg Sample.envStoreDown 42 "7"
                           (Sample.world Sample.botWithPending)))) = None ∧
  Ledger.pendingOf "7"
    (bot (snd (handleCheckPayment Sample.cfg Sample.envStoreDown 42 "7"
                 (Sample.world Sample.botWithPending)))) = [Sample.older; Sample.newer].
Proof. by vm_compute. Qed.

(** C3.  In a run whose polling phase is reached and in which every ledger
    request fails, the loop makes exactly [MAX_ATTEMPTS] requests and the
    outcome is TRANSPORT_ERROR, announced by the reply that the service is
    unavailable.  When instead every request is answered and nothing
    matches, the outcome is EXHAUSTED, a different outcome announced by a
    different text. *)
Theorem transport_error_after_max_attempts
    (cfg : Config) (env : Env) (chatId : Z) (userId : string) (w : World)
    (ps : list PendingPayment) :
  checkKey userId ∉ checkingPayments (bot w) →
  pendingPayments (bot w) !! userId = Some ps → ps ≠ [] →
  chatOk env (length (history w)) = true →
  (1 ≤ MAX_ATTEMPTS cfg)%nat →
  (∀ attempt, ledger env attempt = FetchError) →
  (∃ new,
     history (snd (handleCheckPayment cfg env chatId userId w)) = history w ++ new ∧
     length (filter isFetch (calls new)) = MAX_ATTEMPTS cfg ∧
     outcome new = Some TRANSPORT_ERROR)
  ∧
  (∀ env', chatOk env' (length (history w)) = true →
     (∀ attempt, ∃ data, ledger env' attempt = FetchOk data ∧
        Matcher.findPayment cfg ps (transactionsOf data) = None) →
     ∃ new,
       history (snd (handleCheckPayment cfg env' chatId userId w)) = history w ++ new ∧
       length (filter isFetch (calls new)) = MAX_ATTEMPTS cfg ∧
       outcome new = Some EXHAUSTED)
  ∧
  TRANSPORT_ERROR ≠ EXHAUSTED ∧
  replyText ReplyUnavailable ≠ replyText ReplyNotFound.
Proof.
  intros Hflag Hps Hne Hchat Hmax Hled. split_and!.
  - destruct (transport_error_run cfg env chatId userId w ps) as (new & ? & ? & _ & ? & _);
      try done. by exists new.
  - intros env' Hchat' Hled'.
    destruct (exhausted_run cfg env' chatId userId w ps) as (new & ? & ? & _ & ? & _);
      try done. by exists new.
  - done.
  - by vm_compute.
Qed.

Lemma transport_error_after_max_attempts_witness :
  ∃ new,
    history (snd (handleCheckPayment Sample.cfg Sample.envLedgerDown 42 "7"
                    (Sample.world Sample.botWithPending))) = [] ++ new ∧
    length (filter isFetch (calls new)) = 3%nat ∧
    outcome new = Some TRANSPORT_ERROR.
Proof.
  apply (transport_error_after_max_attempts Sample.cfg Sample.envLedgerDown 42 "7"
           (Sample.world Sample.botWithPending) [Sample.older; Sample.newer]).
  - apply not_elem_of_empty.
  - reflexivity.
  - discriminate.
  - reflexivity.
  - simpl. lia.
  - reflexivity.
Defined.

(** The outer handler: a send, and the removal of the flag once the send
    has resolved. *)
Lemma outerCatch_resumes (env : Env) (chatId : Z) (userId : string) (w : World) :
  outerCatch env chatId userId w =
  let ok := chatOk env (length (history w)) in
  let w1 := logCall (SendMessage chatId ReplyProblem ok) w in
  if ok then (Normal tt, onBot (Race.outerCatchResumes userId) w1) else (Thrown, w1).
Proof.
  unfold outerCatch, Async.bind, sendMessage, modify, Async.unitOrThrow. simpl.
  by destruct (chatOk env _).
Qed.

(** C7 holds for a trigger that arrives while the flag is set, and fails
    for overlapping triggers.  A trigger that finds the flag of the user set
    is turned away: it issues the reply that a check is already running,
    which is its outcome, and does nothing else, so it makes no ledger
    request, creates no subscription and leaves the pending payments as
    they are.  But the flag does not stay set for as long as a run
    is in flight.  With two pending payments on record, a ledger that shows
    nothing and a chat that fails for two sends in a row, the first run
    polls three times; the verdict and the apology of the inner handler fail
    to be sent; the inner [finally] removes the flag; and the outer handler
    awaits its own apology with the flag unset (the last call of the run,
    made in the state the run started in).  A second trigger that arrives
    during that call finds the flag unset, sets it and polls: both of two
    overlapping runs poll.  When the apology of the first run has been
    sent, the first run removes the flag again, which by then is the flag
    of the second run, and the bot object is back in the state in which the
    flag is unset while the second run is polling.  A third trigger then
    does what the second did: two runs poll at the same time, and each
    writes a subscription for the same reference once the ledger shows the
    payment. *)
Theorem guard_undone_by_finishing_run :
  (∀ cfg env chatId userId w,
     checkKey userId ∈ checkingPayments (bot w) →
     turnedAway cfg env chatId userId w ∧
     outcome [(SendMessage chatId ReplyAlreadyChecking
                 (chatOk env (length (history w))), bot w)] = Some ALREADY_CHECKING) ∧
  Trace.fetchAttempts
    (history (snd (handleCheckPayment Sample.cfg Race.envBlip 42 "7"
                     (Sample.world Sample.botWithPending)))) = [1; 2; 3]%nat ∧
  issued
    (history (snd (handleCheckPayment Sample.cfg Race.envBlip 42 "7"
                     (Sample.world Sample.botWithPending)))) =
    [ReplyChecking; ReplyNotFound; ReplyProblem; ReplyProblem] ∧
  last (history (snd (handleCheckPayment Sample.cfg Race.envBlip 42 "7"
                        (Sample.world Sample.botWithPending)))) =
    Some (SendMessage 42 ReplyProblem true, Sample.botWithPending) ∧
  (checkKey "7" ∉ checkingPayments Sample.botWithPending) ∧
  take 3 (history (snd (handleCheckPayment Sample.cfg Sample.envPaidLate 42 "7"
                          (Sample.world Sample.botWithPending)))) =
    [(SendMessage 42 ReplyChecking true, addChecking (checkKey "7") Sample.botWithPending);
     (Sleep (INITIAL_DELAY_MS Sample.cfg), addChecking (checkKey "7") Sample.botWithPending);
     (AxiosGet 1 (ledger Sample.envPaidLate 1),
      addChecking (checkKey "7") Sample.botWithPending)] ∧
  Trace.fetchAttempts
    (history (snd (handleCheckPayment Sample.cfg Sample.envPaidLate 42 "7"
                     (Sample.world Sample.botWithPending)))) = [1; 2]%nat ∧
  Trace.subscriptions
    (history (snd (handleCheckPayment Sample.cfg Sample.envPaidLate 42 "7"
                     (Sample.world Sample.botWithPending)))) =
    [("7", Sample.R, 30, true)] ∧
  Race.outerCatchResumes "7" (addChecking (checkKey "7") Sample.botWithPending) =
    Sample.botWithPending.
Proof.
  split.
  { intros cfg env chatId userId w Hin. split; [|done]. unfold turnedAway.
    by rewrite rejected_while_checking. }
  split_and!; try (vm_compute; reflexivity).
  compute_done.
Qed.

(** C10 fails on one path.  With pending payments recorded and a chat that
    rejects every message, the notice that the check is running throws,
    the outer handler throws on its apology before it reaches the removal
    of the flag, and the run ends with the flag set.  Nothing else removes
    it: every later trigger for the user is turned away, whatever the
    surroundings then are. *)
Theorem flag_stuck_when_chat_is_down :
  fst (handleCheckPayment Sample.cfg Sample.envChatDown 42 "7"
         (Sample.world Sample.botWithPending)) = Thrown ∧
  calls (history (snd (handleCheckPayment Sample.cfg Sample.envChatDown 42 "7"
                         (Sample.world Sample.botWithPending)))) =
    [SendMessage 42 ReplyChecking false; SendMessage 42 ReplyProblem false] ∧
  checkKey "7" ∈
    checkingPayments (bot (snd (handleCheckPayment Sample.cfg Sample.envChatDown 42 "7"
                                  (Sample.world Sample.botWithPending)))) ∧
  ∀ env chatId h,
    turnedAway Sample.cfg env chatId "7"
      {| bot := bot (snd (handleCheckPayment Sample.cfg Sample.envChatDown 42 "7"
                            (Sample.world Sample.botWithPending)));
         history := h |}.
Proof.
  assert (checkKey "7" ∈
    checkingPayments (bot (snd (handleCheckPayment Sample.cfg Sample.envChatDown 42 "7"
                                  (Sample.world Sample.botWithPending))))) as Hin.
  { apply flag_left_iff; [apply not_elem_of_empty|].
    split; [|done]. by exists [Sample.older; Sample.newer]. }
  split_and!; [reflexivity | reflexivity | done |].
  intros env chatId h. unfold turnedAway. by rewrite rejected_while_checking.
Qed.

(** ** The pending-payment ledger *)

Section LedgerFacts.
Import Ledger.
Variable userId : string.

Lemma pendingOf_record (p : PendingPayment) (st : BotState) :
  pendingOf userId (record userId p st) = Js.slice_last 3 (pendingOf userId st ++ [p]).
Proof. unfold record, pendingOf at 1. simpl. by rewrite lookup_insert_eq. Qed.

Lemma pendingOf_record_other (other : string) (p : PendingPayment) (st : BotState) :
  other ≠ userId →
  pendingOf other (record userId p st) = pendingOf other st.
Proof.
  intros Hne. unfold record, pendingOf. simpl. by rewrite lookup_insert_ne.
Qed.

Lemma recordAll_snoc (ps : list PendingPayment) (p : PendingPayment) (st : BotState) :
  recordAll userId (ps ++ [p]) st = record userId p (recordAll userId ps st).
Proof. unfold recordAll. by rewrite fold_left_app. Qed.

(** After any number of [record] calls the entry is what [slice(-3)] keeps
    of everything recorded so far. *)
Lemma pendingOf_recordAll (ps : list PendingPayment) (st : BotState) :
  (length (pendingOf userId st) ≤ 3)%nat →
  pendingOf userId (recordAll userId ps st) =
  Js.slice_last 3 (pendingOf userId st ++ ps).
Proof.
  intros Hinv. induction ps as [|p ps IH] using rev_ind.
  - simpl. rewrite app_nil_r. symmetry. by apply slice_last_short.
  - rewrite recordAll_snoc, pendingOf_record, IH, app_assoc.
    apply slice_last_push. lia.
Qed.

End LedgerFacts.

(** C8.  Every [record] leaves at most three pending payments for the
    user: it puts the new payment last and, when that makes four, drops the
    first, which is the oldest; other users are not touched.  Hence after
    any sequence of [record] calls for a user without an entry, the entry
    holds the last [min n 3] payments recorded, in the order they were
    recorded, newest last. *)
Theorem ledger_keeps_three_most_recent (userId : string) :
  (∀ st p, (length (Ledger.pendingOf userId (Ledger.record userId p st)) ≤ 3)%nat)
  ∧
  (∀ st p, (length (Ledger.pendingOf userId st) < 3)%nat →
     Ledger.pendingOf userId (Ledger.record userId p st) =
     Ledger.pendingOf userId st ++ [p])
  ∧
  (∀ st p, length (Ledger.pendingOf userId st) = 3%nat →
     Ledger.pendingOf userId (Ledger.record userId p st) =
     drop 1 (Ledger.pendingOf userId st) ++ [p])
  ∧
  (∀ st p other, other ≠ userId →
     Ledger.pendingOf other (Ledger.record userId p st) = Ledger.pendingOf other st)
  ∧
  (∀ st ps, pendingPayments st !! userId = None →
     Ledger.pendingOf userId (Ledger.recordAll userId ps st) =
       drop (length ps - 3) ps ∧
     length (Ledger.pendingOf userId (Ledger.recordAll userId ps st)) =
       (length ps `min` 3)%nat).
Proof.
  split_and!.
  - intros st p. rewrite pendingOf_record, slice_last_length. lia.
  - intros st p Hlen. rewrite pendingOf_record. apply slice_last_short.
    rewrite length_app. simpl. lia.
  - intros st p Hlen. rewrite pendingOf_record. unfold Js.slice_last.
    rewrite length_app, Hlen. simpl. apply drop_app_le. lia.
  - intros st p other Hne. by apply pendingOf_record_other.
  - intros st ps Hnone.
    assert (Ledger.pendingOf userId st = []) as Hempty
      by (unfold Ledger.pendingOf; by rewrite Hnone).
    assert (Ledger.pendingOf userId (Ledger.recordAll userId ps st) =
            drop (length ps - 3) ps) as Heq.
    { rewrite pendingOf_recordAll by (rewrite Hempty; simpl; lia).
      by rewrite Hempty. }
    split; [done|]. rewrite Heq, length_drop. lia.
Qed.

Lemma ledger_keeps_three_most_recent_witness :
  Ledger.pendingOf "7"
    (Ledger.recordAll "7" [Sample.older; Sample.newer; Sample.older; Sample.newer] initialBot)
  = drop (4 - 3) [Sample.older; Sample.newer; Sample.older; Sample.newer] ∧
  length (Ledger.pendingOf "7"
    (Ledger.recordAll "7" [Sample.older; Sample.newer; Sample.older; Sample.newer] initialBot))
  = (4 `min` 3)%nat.
Proof.
  apply (proj2 (proj2 (proj2 (proj2 (ledger_keeps_three_most_recent "7")))) initialBot
           [Sample.older; Sample.newer; Sample.older; Sample.newer]).
  reflexivity.
Defined.

(** ** De-duplication of chat events *)

Section DedupFacts.
Import Dedup.

Lemma onCallbackQuery_first (cq : CallbackQuery) (st : BotState) :
  callbackId cq ∉ processedCallbacks st →
  onCallbackQuery cq st =
  (Started, setProcessedCallbacks (fun s => {[callbackId cq]} ∪ s) st).
Proof. intros H. unfold onCallbackQuery. by destruct (decide _). Qed.

Lemma onCallbackQuery_repeat (cq : CallbackQuery) (st : BotState) :
  callbackId cq ∈ processedCallbacks st →
  onCallbackQuery cq st = (Duplicate, st).
Proof. intros H. unfold onCallbackQuery. by destruct (decide _). Qed.

Lemma onMessage_userText (msg : TextMessage) (st : BotState) :
  isUserText msg = true →
  onMessage msg st =
  if decide (messageId msg ∈ processedMessages st) then (Duplicate, st)
  else (Started, setProcessedMessages (fun s => {[messageId msg]} ∪ s) st).
Proof.
  unfold isUserText, onMessage. destruct (msg_text msg) as [t|]; [|done].
  rewrite !andb_true_iff, !negb_true_iff. intros [[Hp Hc] Hb].
  by rewrite Hp, Hc, Hb.
Qed.

(** Callback keys: the first occurrence starts the handler, a repeat is
    ignored, and after the handler rejected the next occurrence starts it
    again. *)
Lemma callback_key_is_rolled_back (cq : CallbackQuery) (st : BotState) :
  callbackId cq ∉ processedCallbacks st →
  fst (run st [CallbackArrives cq; CallbackArrives cq;
               CallbackHandlerRejects cq; CallbackArrives cq]) =
  [Started; Duplicate; NoListener; Started].
Proof.
  intros Hnew. simpl. rewrite (onCallbackQuery_first cq st Hnew).
  rewrite onCallbackQuery_repeat
    by (simpl; apply elem_of_union; left; by apply elem_of_singleton).
  rewrite onCallbackQuery_first; [done|].
  unfold onCallbackQueryCatch. simpl.
  rewrite elem_of_difference, elem_of_singleton. tauto.
Qed.

(** Message keys: the first occurrence starts the handler and every later
    one is ignored, whether or not the handler rejected in between. *)
Lemma message_key_is_never_unmarked (msg : TextMessage) (st : BotState) :
  isUserText msg = true →
  messageId msg ∉ processedMessages st →
  fst (run st [MessageArrives msg; MessageArrives msg;
               MessageHandlerRejects msg; MessageArrives msg]) =
  [Started; Duplicate; NoListener; Duplicate].
Proof.
  intros Htext Hnew.
  assert (messageId msg ∈ {[messageId msg]} ∪ processedMessages st) as Hin
    by (apply elem_of_union; left; by apply elem_of_singleton).
  simpl. rewrite (onMessage_userText msg st) by done.
  rewrite decide_False by done. simpl.
  rewrite onMessage_userText by done. rewrite decide_True by done. simpl.
  rewrite onMessage_userText by done. by rewrite decide_True by done.
Qed.

End DedupFacts.

(** C4 holds for callback keys and fails for message keys.  For both kinds
    the first occurrence of a key starts the handler and a repeat is
    ignored.  When the handler of a callback rejects, its key is removed
    and the next occurrence starts the handler again; when the handler of
    a text message rejects, no code runs, the key stays, and the next
    occurrence of the message is ignored. *)
Theorem message_retry_is_dropped
    (cq : Dedup.CallbackQuery) (msg : Dedup.TextMessage) (st : BotState) :
  Dedup.callbackId cq ∉ processedCallbacks st →
  Dedup.isUserText msg = true →
  Dedup.messageId msg ∉ processedMessages st →
  fst (Dedup.run st [Dedup.CallbackArrives cq; Dedup.CallbackArrives cq;
                     Dedup.CallbackHandlerRejects cq; Dedup.CallbackArrives cq]) =
    [Dedup.Started; Dedup.Duplicate; Dedup.NoListener; Dedup.Started] ∧
  fst (Dedup.run st [Dedup.MessageArrives msg; Dedup.MessageArrives msg;
                     Dedup.MessageHandlerRejects msg; Dedup.MessageArrives msg]) =
    [Dedup.Started; Dedup.Duplicate; Dedup.NoListener; Dedup.Duplicate].
Proof.
  intros Hcq Htext Hmsg. split.
  - by apply callback_key_is_rolled_back.
  - by apply message_key_is_never_unmarked.
Qed.

Lemma message_retry_is_dropped_witness :
  fst (Dedup.run initialBot
         [Dedup.CallbackArrives Sample.callback; Dedup.CallbackArrives Sample.callback;
          Dedup.CallbackHandlerRejects Sample.callback;
          Dedup.CallbackArrives Sample.callback]) =
    [Dedup.Started; Dedup.Duplicate; Dedup.NoListener; Dedup.Started] ∧
  fst (Dedup.run initialBot
         [Dedup.MessageArrives Sample.message; Dedup.MessageArrives Sample.message;
          Dedup.MessageHandlerRejects Sample.message;
          Dedup.MessageArrives Sample.message]) =
    [Dedup.Started; Dedup.Duplicate; Dedup.NoListener; Dedup.Duplicate].
Proof.
  apply (message_retry_is_dropped Sample.callback Sample.message initialBot).
  - apply not_elem_of_empty.
  - reflexivity.
  - apply not_elem_of_empty.
Defined.

(** ** The daily fan-out *)

Section SchedulerFacts.
Import Async Scheduler.
Variable SentenceData : Type.
Variable createDailyMessage : SentenceData → string.
Variable env : Env SentenceData.

Lemma enqueued_app (l1 l2 : Log SentenceData) :
  enqueued (l1 ++ l2) = enqueued l1 ++ enqueued l2.
Proof. apply omap_app. Qed.


(** The generation loop never throws; it fills the cache with what the
    backend returned. *)
Lemma generateLevels_run (levels : list Z) (cache : gmap Z SentenceData)
    (l : Log SentenceData) :
  generateLevels env levels cache l =
  (Normal (fill env levels cache),
   l ++ generateLog env levels).
Proof.
  revert cache l. induction levels as [|level levels IH]; intros cache l.
  - simpl. unfold ret. by rewrite app_nil_r.
  - simpl. unfold bind at 1, tryCatch, bind at 1, generateEnglishSentence, log.
    destruct (generate env level) as [s|]; simpl; rewrite IH, <- app_assoc; done.
Qed.

Lemma fill_lookup (levels : list Z) (cache : gmap Z SentenceData) (level : Z) :
  fill env levels cache !! level =
  if bool_decide (level ∈ levels)
  then match generate env level with Some s => Some s | None => cache !! level end
  else cache !! level.
Proof.
  revert cache. induction levels as [|x levels IH]; intros cache; [done|].
  simpl. rewrite IH. destruct (decide (level = x)) as [-> | Hne].
  - rewrite (bool_decide_eq_true_2 (x ∈ x :: levels)) by (apply elem_of_cons; by left).
    destruct (generate env x) as [s|] eqn:Hg.
    + rewrite lookup_insert_eq. by destruct (bool_decide _).
    + by destruct (bool_decide _).
  - assert (bool_decide (level ∈ x :: levels) = bool_decide (level ∈ levels)) as ->.
    { apply bool_decide_ext. rewrite elem_of_cons. tauto. }
    destruct (generate env x) as [s|]; [rewrite lookup_insert_ne by done|]; done.
Qed.

Lemma cache_lookup (level : Z) :
  fill env [1; 2; 3; 4; 5] ∅ !! level = cached env level.
Proof.
  rewrite fill_lookup, lookup_empty. unfold cached.
  destruct (bool_decide _) eqn:Hin.
  - apply bool_decide_eq_true in Hin.
    assert ((1 <=? level) && (level <=? 5) = true) as ->.
    { rewrite !elem_of_cons, elem_of_nil in Hin.
      apply andb_true_iff. rewrite Z.leb_le, Z.leb_le. lia. }
    by destruct (generate env level).
  - apply bool_decide_eq_false in Hin.
    assert ((1 <=? level) && (level <=? 5) = false) as ->; [|done].
    apply not_true_is_false. rewrite andb_true_iff, !Z.leb_le. intros [H1 H5].
    apply Hin. rewrite !elem_of_cons. lia.
Qed.

(** One iteration of the loop over the users: whatever fails, the loop
    goes on with the next user. *)
Lemma queueUsers_cons (cache : gmap Z SentenceData) (user : User) (users : list User)
    (i : nat) (l : Log SentenceData) :
  queueUsers createDailyMessage env cache (user :: users) i l =
  queueUsers createDailyMessage env cache users (S i)
    (l ++ userCalls createDailyMessage env cache i user).
Proof.
  simpl. unfold bind at 1, tryCatch, userCalls.
  destruct (cache !! difficulty_level user) as [s|]; simpl.
  - unfold bind, saveSentence, addMessage, log, unitOrThrow.
    destruct (saveOk env i); simpl; [|done].
    destruct (Js.parseInt (telegram_user_id user) (Some 10)) as [chatId|]; simpl.
    + destruct (enqueueOk env i); simpl; by rewrite <- app_assoc.
    + done.
  - by rewrite app_nil_r.
Qed.

Lemma userCalls_enqueued (cache : gmap Z SentenceData) (i : nat) (user : User) :
  (∀ level, cache !! level = cached env level) →
  enqueued (userCalls createDailyMessage env cache i user) =
  match delivery createDailyMessage env i user with Some e => [e] | None => [] end.
Proof.
  intros Hcache. unfold userCalls, delivery. rewrite <- Hcache.
  destruct (cache !! difficulty_level user) as [s|]; [|done].
  destruct (saveOk env i); [|done].
  by destruct (Js.parseInt (telegram_user_id user) (Some 10)).
Qed.

(** The loop over the users never throws and enqueues, user by user, what
    is owed. *)
Lemma queueUsers_run (cache : gmap Z SentenceData) (users : list User) (i : nat)
    (l : Log SentenceData) :
  (∀ level, cache !! level = cached env level) →
  fst (queueUsers createDailyMessage env cache users i l) = Normal tt ∧
  enqueued (snd (queueUsers createDailyMessage env cache users i l)) =
  enqueued l ++
  omap id (imap (fun j => delivery createDailyMessage env (i + j)) users).
Proof.
  intros Hcache. revert i l. induction users as [|user users IH]; intros i l.
  - simpl. by rewrite app_nil_r.
  - rewrite queueUsers_cons. destruct (IH (S i) (l ++ userCalls createDailyMessage env cache i user))
      as [Hc He].
    split; [done|]. rewrite He, enqueued_app, userCalls_enqueued, <- app_assoc by done.
    f_equal. rewrite imap_cons. replace (i + 0)%nat with i by lia.
    assert (imap ((fun j => delivery createDailyMessage env (i + j)) ∘ S) users =
            imap (fun j => delivery createDailyMessage env (S i + j)) users) as ->.
    { apply imap_ext. intros j u _. simpl. f_equal. lia. }
    simpl. by destruct (delivery createDailyMessage env i user).
Qed.

Lemma sendDailyMessages_run :
  let r := sendDailyMessages createDailyMessage env [] in
  fst r = Normal tt ∧
  enqueued (snd r) =
  omap id (imap (delivery createDailyMessage env) (default [] (activeUsers env))).
Proof.
  unfold sendDailyMessages, tryCatch, bind, getActiveUsers, log.
  destruct (activeUsers env) as [users|]; [|done].
  rewrite generateLevels_run.
  destruct (queueUsers_run (fill env [1; 2; 3; 4; 5] ∅) users 0
              (([] ++ [GetActiveUsers true]) ++ generateLog env [1; 2; 3; 4; 5]))
    as [Hc He]; [apply cache_lookup|].
  destruct (queueUsers _ _ _ _ _ _) as [[[]|] l']; simpl in *; [|done].
  split; [done|]. exact He.
Qed.

End SchedulerFacts.




(** All three subscribers are served when every backend works: two
    identical texts for tier 1, one for tier 3. *)
Lemma fanout_all_well :
  Scheduler.enqueued (snd (Scheduler.sendDailyMessages Sample.render Sample.fanoutAllWell [])) =
  [(1001, "Today: Hello."); (1002, "Today: Hello.");
   (1003, "Today: The weather is very nice today.")].
Proof. reflexivity. Qed.


(** A user whose row the query returns twice gets two enqueues: the loop
    goes by rows. *)
Lemma fanout_row_twice :
  fst (Scheduler.sendDailyMessages Sample.render Sample.fanoutRowTwice []) = Normal tt ∧
  Scheduler.enqueued
    (snd (Scheduler.sendDailyMessages Sample.render Sample.fanoutRowTwice [])) =
  [(1001, "Today: Hello."); (1001, "Today: Hello.")].
Proof. by vm_compute. Qed.

(* ===================================================================== *)
(** * Further properties *)
(* ===================================================================== *)

(** ** Numbers as text *)

Section NumeralFacts.
Import Reference.

Lemma uintValue_pos (d : Decimal.uint) (p : positive) :
  uintValue d (Z.pos p) = Z.pos (Pos.of_uint_acc d p).
Proof.
  revert p. induction d; intros p; simpl; [done | rewrite <- IHd; f_equal; lia ..].
Qed.

Lemma uintValue_0 (d : Decimal.uint) : uintValue d 0 = Z.of_N (Pos.of_uint d).
Proof.
  induction d; simpl; [done | done | apply uintValue_pos ..].
Qed.

(** Reading back the digits of a decimal numeral. *)
Lemma digits_string_of_uint (d : Decimal.uint) (seen : bool) (acc : Z) :
  Js.digits 10 (NilEmpty.string_of_uint d) seen acc =
  match d with
  | Decimal.Nil => if seen then Some acc else None
  | _ => Some (uintValue d acc)
  end.
Proof.
  revert seen acc. induction d; intros seen acc; [done | ..].
  all: cbn [NilEmpty.string_of_uint Js.digits uintValue].
  all: change (Js.digitValue _) with (Some 0) || change (Js.digitValue _) with (Some 1)
    || change (Js.digitValue _) with (Some 2) || change (Js.digitValue _) with (Some 3)
    || change (Js.digitValue _) with (Some 4) || change (Js.digitValue _) with (Some 5)
    || change (Js.digitValue _) with (Some 6) || change (Js.digitValue _) with (Some 7)
    || change (Js.digitValue _) with (Some 8) || change (Js.digitValue _) with (Some 9).
  all: cbn [Z.ltb Z.compare Pos.compare Pos.compare_cont]; rewrite IHd; by destruct d.
Qed.

Lemma string_of_uint_digits (d : Decimal.uint) :
  allChars isDigit (NilEmpty.string_of_uint d) = true.
Proof. induction d; simpl; [done | exact IHd ..]. Qed.

Lemma to_uint_not_nil (p : positive) : Pos.to_uint p ≠ Decimal.Nil.
Proof.
  intros H. pose proof (DecimalPos.Unsigned.of_to p) as Hp. rewrite H in Hp. done.
Qed.

Lemma parseInt_string_of_uint (d : Decimal.uint) (radix : option Z) :
  radix = None ∨ radix = Some 10 →
  d ≠ Decimal.Nil →
  Js.parseInt (NilEmpty.string_of_uint d) radix = Some (uintValue d 0) ∧
  Js.parseInt (String "-" (NilEmpty.string_of_uint d)) radix = Some (- uintValue d 0).
Proof.
  intros Hr Hd.
  assert (Js.parseInt (NilEmpty.string_of_uint d) radix =
          match Js.digits 10 (NilEmpty.string_of_uint d) false 0 with
          | Some n => Some n | None => None end ∧
          Js.parseInt (String "-" (NilEmpty.string_of_uint d)) radix =
          match Js.digits 10 (NilEmpty.string_of_uint d) false 0 with
          | Some n => Some (- n) | None => None end) as [H1 H2].
  { destruct Hr as [-> | ->]; (destruct d as [|d|d|d|d|d|d|d|d|d|d]; [done | ..]);
      destruct d; split; reflexivity. }
  rewrite H1, H2, digits_string_of_uint. by destruct d.
Qed.

Lemma numberToString_pos (p : positive) :
  Dedup.numberToString (Z.pos p) = NilEmpty.string_of_uint (Pos.to_uint p).
Proof.
  pose proof (to_uint_not_nil p) as Hnil.
  unfold Dedup.numberToString. simpl. by destruct (Pos.to_uint p).
Qed.

Lemma numberToString_neg (p : positive) :
  Dedup.numberToString (Z.neg p) =
  String "-" (NilEmpty.string_of_uint (Pos.to_uint p)).
Proof.
  pose proof (to_uint_not_nil p) as Hnil.
  unfold Dedup.numberToString. simpl. by destruct (Pos.to_uint p).
Qed.

(** [parseInt] reads back the number that a template literal wrote, with
    radix 10 and with no radix given. *)
Lemma parseInt_numberToString (n : Z) (radix : option Z) :
  radix = None ∨ radix = Some 10 →
  Js.parseInt (Dedup.numberToString n) radix = Some n.
Proof.
  intros Hr. destruct n as [|p|p].
  - by destruct Hr as [-> | ->].
  - pose proof (parseInt_string_of_uint _ radix Hr (to_uint_not_nil p)) as [H _].
    rewrite numberToString_pos, H, uintValue_0, DecimalPos.Unsigned.of_to. done.
  - pose proof (parseInt_string_of_uint _ radix Hr (to_uint_not_nil p)) as [_ H].
    rewrite numberToString_neg, H, uintValue_0, DecimalPos.Unsigned.of_to. done.
Qed.

Lemma numberToString_inj (m n : Z) :
  Dedup.numberToString m = Dedup.numberToString n → m = n.
Proof.
  intros H.
  pose proof (parseInt_numberToString m None (or_introl eq_refl)) as Hm.
  pose proof (parseInt_numberToString n None (or_introl eq_refl)) as Hn.
  rewrite H in Hm. congruence.
Qed.
(** The text of a number that is not negative consists of digits, at least
    one. *)
Lemma numberToString_digits (n : Z) :
  0 ≤ n →
  allChars isDigit (Dedup.numberToString n) = true ∧
  Dedup.numberToString n ≠ EmptyString.
Proof.
  intros Hn. destruct n as [|p|p]; [done | | lia].
  rewrite numberToString_pos. split; [apply string_of_uint_digits |].
  pose proof (to_uint_not_nil p). by destruct (Pos.to_uint p).
Qed.

End NumeralFacts.

(** ** Callback data and payment references *)

Section RouterFacts.
Import Reference Router.

Lemma allChars_app (p : ascii → bool) (s t : string) :
  allChars p (s +:+ t) = allChars p s && allChars p t.
Proof.
  induction s as [|c s IH]; [done|].
  rewrite string_app_cons. simpl. by rewrite IH, andb_assoc.
Qed.

Lemma allChars_impl (p q : ascii → bool) (s : string) :
  (∀ c, p c = true → q c = true) → allChars p s = true → allChars q s = true.
Proof.
  intros Hpq. induction s as [|c s IH]; [done|]. simpl.
  rewrite !andb_true_iff. intros [Hc Hs]. split; [by apply Hpq | by apply IH].
Qed.

Lemma isDigit_cases (c : ascii) :
  isDigit c = true →
  c = "0"%char ∨ c = "1"%char ∨ c = "2"%char ∨ c = "3"%char ∨ c = "4"%char ∨
  c = "5"%char ∨ c = "6"%char ∨ c = "7"%char ∨ c = "8"%char ∨ c = "9"%char.
Proof.
  destruct c as [[] [] [] [] [] [] [] []]; intros H; try discriminate H; tauto.
Qed.

Lemma isDigit_notUnderscore (c : ascii) : isDigit c = true → notUnderscore c = true.
Proof.
  intros H. apply isDigit_cases in H.
  repeat (destruct H as [-> | H]; [done|]). by subst.
Qed.

(** A number is written with digits and, when negative, a leading
    dash. *)
Lemma numberToString_chars (p : ascii → bool) (n : Z) :
  (∀ c, isDigit c = true → p c = true) → p "-"%char = true →
  allChars p (Dedup.numberToString n) = true.
Proof.
  intros Hdigit Hdash. destruct n as [|q|q].
  - change (Dedup.numberToString 0) with "0". simpl. by rewrite (Hdigit "0"%char).
  - rewrite numberToString_pos.
    eapply allChars_impl; [exact Hdigit | apply string_of_uint_digits].
  - rewrite numberToString_neg. simpl. rewrite Hdash. simpl.
    eapply allChars_impl; [exact Hdigit | apply string_of_uint_digits].
Qed.

(** No number is written with an underscore. *)
Lemma numberToString_notUnderscore (n : Z) :
  allChars notUnderscore (Dedup.numberToString n) = true.
Proof. apply numberToString_chars; [apply isDigit_notUnderscore | done]. Qed.

(** Two texts that consist of a part without the separator, the
    separator and a rest agree on both. *)
Lemma sep_app_inj (sep : ascii) (a a' b b' : string) :
  allChars (fun c => negb (Ascii.eqb c sep)) a = true →
  allChars (fun c => negb (Ascii.eqb c sep)) a' = true →
  a +:+ String sep b = a' +:+ String sep b' → a = a' ∧ b = b'.
Proof.
  revert a'. induction a as [|c a IH]; intros [|c' a'] Ha Ha' Heq.
  - by injection Heq as ->.
  - rewrite string_app_cons in Heq. injection Heq as <- _.
    simpl in Ha'. by rewrite Ascii.eqb_refl in Ha'.
  - rewrite string_app_cons in Heq. injection Heq as -> _.
    simpl in Ha. by rewrite Ascii.eqb_refl in Ha.
  - rewrite !string_app_cons in Heq. injection Heq as -> Heq.
    simpl in Ha, Ha'. apply andb_true_iff in Ha as [_ Ha]. apply andb_true_iff in Ha' as [_ Ha'].
    destruct (IH a' Ha Ha' Heq) as [-> ->]. done.
Qed.

(** A string without the separator is its own single part. *)
Lemma split_whole (sep : ascii) (s : string) :
  allChars (fun c => negb (Ascii.eqb c sep)) s = true → split sep s = [s].
Proof.
  induction s as [|c s IH]; [done|]. simpl.
  rewrite andb_true_iff, negb_true_iff. intros [Hc Hs].
  by rewrite Hc, (IH Hs).
Qed.

(** The first part ends at the first separator. *)
Lemma split_app (sep : ascii) (a b : string) :
  allChars (fun c => negb (Ascii.eqb c sep)) a = true →
  split sep (a +:+ String sep b) = a :: split sep b.
Proof.
  induction a as [|c a IH].
  - intros _. change (EmptyString +:+ String sep b) with (String sep b).
    simpl. by rewrite Ascii.eqb_refl.
  - rewrite string_app_cons. simpl.
    rewrite andb_true_iff, negb_true_iff. intros [Hc Ha]. by rewrite Hc, (IH Ha).
Qed.

Lemma startsWith_app (p t : string) : Js.startsWith (p +:+ t) p = true.
Proof. apply startsWith_spec. by exists t. Qed.

Lemma route_checkPaymentData (userId : Z) :
  route (checkPaymentData userId) = ToCheckPayment (Some (userKey userId)).
Proof.
  unfold checkPaymentData, userKey.
  set (t := Dedup.numberToString userId).
  assert (split "_" ("check_payment_" +:+ t) = ["check"; "payment"; t]) as Hs.
  { change ("check_payment_" +:+ t) with ("check" +:+ String "_" ("payment" +:+ String "_" t)).
    rewrite !split_app by done.
    rewrite split_whole; [done|]. apply numberToString_notUnderscore. }
  unfold route. rewrite Hs. clearbody t.
  change ("check_payment_" +:+ t) with (String "c" ("heck_payment_" +:+ t)).
  cbn. by rewrite startsWith_app.
Qed.

(** X3.  The data of a level button is routed to [handleSetLevel] with the
    number written on it, for every number that JavaScript holds exactly:
    the five buttons of the settings keyboard select the levels 1 to 5,
    and data naming any other such integer is passed on as well, the router
    making no range check. *)
Theorem route_levelData (level : Z) :
  safeInteger level →
  route (levelData level) = ToSetLevel (Some level).
Proof.
  intros _. unfold levelData.
  set (t := Dedup.numberToString level).
  assert (split "_" ("level_" +:+ t) = ["level"; t]) as Hs.
  { change ("level_" +:+ t) with ("level" +:+ String "_" t).
    rewrite split_app by done.
    rewrite split_whole; [done|]. apply numberToString_notUnderscore. }
  unfold route. rewrite Hs.
  change ("level_" +:+ t) with (String "l" ("evel_" +:+ t)).
  cbn. rewrite startsWith_app. unfold t.
  by rewrite parseInt_numberToString by (by left).
Qed.

Lemma route_levelData_witness : route (levelData 3) = ToSetLevel (Some 3).
Proof. apply (route_levelData 3). unfold safeInteger. lia. Defined.
End RouterFacts.

(** X2.  The data of the button under which [handleSubscribe] offers the check
    is routed to [handleCheckPayment] with the key under which the payment
    of that user was recorded, and the buttons made for two different users
    are routed to different keys. *)
Theorem check_button_reaches_own_entry (userId : Z) :
  Router.route (Reference.checkPaymentData userId) =
    Router.ToCheckPayment (Some (Reference.userKey userId)) ∧
  ∀ other,
    Router.route (Reference.checkPaymentData other) =
    Router.route (Reference.checkPaymentData userId) → other = userId.
Proof.
  split; [apply route_checkPaymentData|].
  intros other. rewrite !route_checkPaymentData. unfold Reference.userKey.
  intros [= Heq]. by apply numberToString_inj.
Qed.

Section ReferenceFacts.
Import Reference.

Lemma string_app_assoc (a b c : string) : (a +:+ b) +:+ c = a +:+ (b +:+ c).
Proof.
  induction a as [|x a IH]; [done|]. by rewrite !string_app_cons, IH.
Qed.

Lemma isDigit_notDash (c : ascii) : isDigit c = true → negb (Ascii.eqb c "-") = true.
Proof.
  intros H. apply isDigit_cases in H.
  repeat (destruct H as [-> | H]; [done|]). by subst.
Qed.

(** Two texts that start with digits and a dash agree on the digits and
    on what follows the dash. *)
Lemma digits_dash_inj (a a' b b' : string) :
  allChars isDigit a = true → allChars isDigit a' = true →
  a +:+ String "-" b = a' +:+ String "-" b' → a = a' ∧ b = b'.
Proof.
  intros Ha Ha'. apply sep_app_inj; (eapply allChars_impl; [apply isDigit_notDash | done]).
Qed.

Lemma isDigit_notE (c : ascii) : isDigit c = true → notE c = true.
Proof.
  intros H. apply isDigit_cases in H.
  repeat (destruct H as [-> | H]; [done|]). by subst.
Qed.

Lemma numberToString_notE (n : Z) : allChars notE (Dedup.numberToString n) = true.
Proof. apply numberToString_chars; [apply isDigit_notE | done]. Qed.

(** A text in which a character does not occur includes no text that
    starts with it. *)
Lemma includes_absent (e : ascii) (s r : string) :
  allChars (fun c => negb (Ascii.eqb c e)) s = true →
  Js.includes s (String e r) = false.
Proof.
  induction s as [|c s IH]; [done|]. simpl.
  rewrite andb_true_iff, negb_true_iff. intros [Hc Hs].
  rewrite (IH Hs), Ascii.eqb_sym, Hc. done.
Qed.

Lemma paymentReference_unfold (userId now : Z) :
  paymentReference userId now =
  String "e" ("nglish-bot-" +:+ Dedup.numberToString userId +:+
              String "-" (Dedup.numberToString now)).
Proof. reflexivity. Qed.

(** A reference occurs in another one only at its start. *)
Lemma includes_paymentReference (u t u' t' : Z) :
  Js.includes (paymentReference u' t') (paymentReference u t) =
  Js.startsWith (paymentReference u' t') (paymentReference u t).
Proof.
  rewrite includes_unfold, (paymentReference_unfold u' t').
  rewrite (paymentReference_unfold u t) at 2.
  rewrite includes_absent; [by rewrite orb_false_r|].
  rewrite !allChars_app. simpl.
  change (allChars _ (Dedup.numberToString u')) with (allChars notE (Dedup.numberToString u')).
  change (allChars _ (Dedup.numberToString t')) with (allChars notE (Dedup.numberToString t')).
  by rewrite !numberToString_notE.
Qed.

Lemma app_inv_head_string (p a b : string) : p +:+ a = p +:+ b → a = b.
Proof.
  induction p as [|c p IH]; [done|]. rewrite !string_app_cons. intros [= H]. by apply IH.
Qed.

Lemma startsWith_paymentReference (u t u' t' : Z) :
  0 ≤ u → 0 ≤ u' →
  Js.startsWith (paymentReference u' t') (paymentReference u t) = true ↔
  u = u' ∧ Js.startsWith (Dedup.numberToString t') (Dedup.numberToString t) = true.
Proof.
  intros Hu Hu'. rewrite !startsWith_spec. unfold paymentReference. split.
  - intros [rest Heq].
    rewrite !string_app_assoc in Heq. apply app_inv_head_string in Heq.
    change ("-" +:+ ?x) with (String "-" x) in Heq.
    apply digits_dash_inj in Heq as [Hn Ht];
      [| apply numberToString_digits; done ..].
    split; [by apply numberToString_inj | by exists rest].
  - intros [<- [rest ->]]. exists rest. by rewrite !string_app_assoc.
Qed.

Lemma startsWith_same_length (s p : string) :
  String.length s = String.length p → Js.startsWith s p = true → s = p.
Proof.
  revert s. induction p as [|c p IH]; intros [|d s] Hlen; try done.
  simpl. rewrite andb_true_iff. intros [Hc Hs]. apply Ascii.eqb_eq in Hc as ->.
  f_equal. apply IH; [by injection Hlen | done].
Qed.

(** X4.  [handleSubscribe] never gives two payments the same reference unless
    they are of the same user and were made in the same millisecond. *)
Theorem paymentReference_inj (u t u' t' : Z) :
  0 ≤ u → 0 ≤ u' →
  paymentReference u t = paymentReference u' t' → u = u' ∧ t = t'.
Proof.
  intros Hu Hu' Heq. unfold paymentReference in Heq. apply app_inv_head_string in Heq.
  change ("-" +:+ ?x) with (String "-" x) in Heq.
  apply digits_dash_inj in Heq as [Hn Ht]; [| apply numberToString_digits; done ..].
  split; by apply numberToString_inj.
Qed.

Lemma paymentReference_inj_witness :
  (7 = 7 ∧ 1700000000000 = 1700000000000).
Proof.
  apply (paymentReference_inj 7 1700000000000 7 1700000000000); [lia | lia | reflexivity].
Defined.

(** X5.  A comment that is the reference made for user [u'] at time [t']
    matches the pending reference made for user [u] at time [t] exactly
    when the users are the same and the digits of [t] are the first digits
    of [t']; for two times written with equally many digits, exactly when
    it is the same reference. *)
Theorem memo_matches_own_reference_only (u t u' t' : Z) (m : Message) (body : DecodedBody) :
  0 ≤ u → 0 ≤ u' →
  decoded_body m = Some body →
  text body = Some (paymentReference u' t') →
  (Matcher.textMatches (paymentReference u t) m = true ↔
   u = u' ∧ Js.startsWith (Dedup.numberToString t') (Dedup.numberToString t) = true) ∧
  (String.length (Dedup.numberToString t') = String.length (Dedup.numberToString t) →
   (Matcher.textMatches (paymentReference u t) m = true ↔ u = u' ∧ t = t')).
Proof.
  intros Hu Hu' Hbody Htext.
  assert (Matcher.textMatches (paymentReference u t) m = true ↔
          u = u' ∧ Js.startsWith (Dedup.numberToString t') (Dedup.numberToString t) = true)
    as Hiff.
  { unfold Matcher.textMatches. rewrite Hbody, Htext.
    rewrite includes_paymentReference, <- (startsWith_paymentReference u t u' t') by done.
    rewrite andb_true_iff, orb_true_iff, present_Some, String.eqb_eq. split.
    - intros [_ [Heq | Hs]]; [|done]. rewrite Heq. apply startsWith_spec.
      exists EmptyString. by rewrite string_app_empty_r.
    - intros Hs. split; [by rewrite paymentReference_unfold | by right]. }
  split; [exact Hiff|]. intros Hlen. rewrite Hiff. split.
  - intros [-> Hs]. split; [done|].
    apply numberToString_inj. symmetry. by apply startsWith_same_length.
  - intros [-> ->]. split; [done|]. apply startsWith_spec.
    exists EmptyString. by rewrite string_app_empty_r.
Qed.

Lemma memo_matches_own_reference_only_witness :
  Matcher.textMatches (paymentReference 7 1700000000000)
    (Sample.textMsg (paymentReference 7 1700000060000)) = true ↔
  7 = 7 ∧ 1700000000000 = 1700000060000.
Proof.
  apply (memo_matches_own_reference_only 7 1700000000000 7 1700000060000
           (Sample.textMsg (paymentReference 7 1700000060000))
           {| text := Some (paymentReference 7 1700000060000); jetton_transfer := None |});
    [lia | lia | reflexivity | reflexivity | reflexivity].
Defined.
End ReferenceFacts.

(** ** Keys of the de-duplication sets *)

Section KeyFacts.
Import Reference Dedup Trace.

Lemma messageId_parts (m1 m2 : TextMessage) :
  messageId m1 = messageId m2 →
  message_id m1 = message_id m2 ∧ from_id m1 = from_id m2.
Proof.
  unfold messageId. intros Heq.
  change ("_" +:+ ?x) with (String "_" x) in Heq.
  apply sep_app_inj in Heq as [H1 H2]; [| apply numberToString_notUnderscore ..].
  split; by apply numberToString_inj.
Qed.

(** X6.  Two text messages have the same key only if they have the same
    message number and the same sender. *)
Theorem messageId_inj (m1 m2 : TextMessage) :
  messageId m1 = messageId m2 →
  message_id m1 = message_id m2 ∧ from_id m1 = from_id m2.
Proof.
  unfold messageId. intros Heq.
  change ("_" +:+ ?x) with (String "_" x) in Heq.
  apply sep_app_inj in Heq as [H1 H2]; [| apply numberToString_notUnderscore ..].
  split; by apply numberToString_inj.
Qed.

Lemma messageId_inj_witness :
  message_id Sample.message = message_id Sample.message ∧
  from_id Sample.message = from_id Sample.message.
Proof. apply (messageId_inj Sample.message Sample.message). reflexivity. Defined.

(** X7.  Two callback queries whose identifiers contain no underscore have
    the same key only if they have the same identifier and the same
    data. *)
Theorem callbackId_inj (c1 c2 : CallbackQuery) :
  allChars notUnderscore (cq_id c1) = true →
  allChars notUnderscore (cq_id c2) = true →
  callbackId c1 = callbackId c2 →
  cq_id c1 = cq_id c2 ∧ cq_data c1 = cq_data c2.
Proof.
  unfold callbackId. intros H1 H2 Heq.
  change ("_" +:+ ?x) with (String "_" x) in Heq.
  by apply sep_app_inj in Heq.
Qed.

Lemma callbackId_inj_witness :
  cq_id Sample.callback = cq_id Sample.callback ∧
  cq_data Sample.callback = cq_data Sample.callback.
Proof.
  apply (callbackId_inj Sample.callback Sample.callback); reflexivity.
Defined.

Lemma run_app (st : BotState) (es1 es2 : list Event) :
  run st (es1 ++ es2) =
  (fst (run st es1) ++ fst (run (snd (run st es1)) es2),
   snd (run (snd (run st es1)) es2)).
Proof.
  revert st. induction es1 as [|e es1 IH]; intros st; simpl.
  - by destruct (run st es2).
  - destruct (step st e) as [d st1]. rewrite IH.
    destruct (run st1 es1) as [ds st2]. simpl. by destruct (run st2 es2).
Qed.

(** The set of message keys after a sequence of events: the keys it held
    before and the key of every user text that arrived; nothing is ever
    removed. *)
Lemma processedMessages_run (st : BotState) (events : list Event) :
  ∀ k, k ∈ processedMessages (snd (run st events)) ↔
       k ∈ processedMessages st ∨ ∃ m, m ∈ userTexts events ∧ messageId m = k.
Proof.
  revert st. induction events as [|e events IH]; intros st k.
  - simpl. split; [by left | intros [H | (m & Hm & _)]; [done | by apply elem_of_nil in Hm]].
  - simpl. destruct (step st e) as [d st1] eqn:Hstep.
    specialize (IH st1 k). destruct (run st1 events) as [ds st2]. simpl in *.
    rewrite IH. clear IH.
    destruct e as [cq | cq | msg | msg]; simpl in Hstep.
    + unfold onCallbackQuery in Hstep.
      destruct (decide _); injection Hstep as <- <-; simpl; done.
    + injection Hstep as <- <-. simpl. done.
    + destruct (isUserText msg) eqn:Hut.
      * rewrite onMessage_userText in Hstep by done.
        destruct (decide _) as [Hin | Hnin]; injection Hstep as <- <-; simpl.
        -- split.
           ++ intros [H | (m & Hm & Hk)]; [by left | right]. exists m. split; [by right | done].
           ++ intros [H | (m & Hm & Hk)]; [by left|].
              apply elem_of_cons in Hm as [-> | Hm]; [left; by rewrite <- Hk | right; eauto].
        -- rewrite elem_of_union, elem_of_singleton. split.
           ++ intros [[-> | H] | (m & Hm & Hk)]; [right | by left | right].
              ** exists msg. split; [by left | done].
              ** exists m. split; [by right | done].
           ++ intros [H | (m & Hm & Hk)]; [left; by right|].
              apply elem_of_cons in Hm as [-> | Hm]; [left; by left | right; eauto].
      * assert (st1 = st) as ->.
        { unfold onMessage, isUserText in *. destruct (msg_text msg) as [t|]; simpl in *.
          - destruct (negb (t =? EmptyString)%string); simpl in *.
            + destruct (Js.startsWith t "/"); simpl in *; [by injection Hstep|].
              destruct (from_is_bot msg); [by injection Hstep | done].
            + destruct (from_is_bot msg); by injection Hstep.
          - destruct (from_is_bot msg); by injection Hstep. }
        done.
    + injection Hstep as <- <-. done.
Qed.

(** X8.  After any sequence of events, a user text starts its handler exactly
    when its key was not in the set at the beginning and no user text with
    the same message number and sender has arrived since; otherwise it is
    ignored, whatever became of the earlier handler. *)
Theorem message_started_iff_first (st : BotState) (events : list Event) (msg : TextMessage) :
  isUserText msg = true →
  (fst (step (snd (run st events)) (MessageArrives msg)) = Started ↔
   (messageId msg ∉ processedMessages st) ∧
   ¬ (∃ m, m ∈ userTexts events ∧
           message_id m = message_id msg ∧ from_id m = from_id msg)) ∧
  (fst (step (snd (run st events)) (MessageArrives msg)) ≠ Started →
   fst (step (snd (run st events)) (MessageArrives msg)) = Duplicate).
Proof.
  intros Hut. simpl. rewrite onMessage_userText by done.
  pose proof (processedMessages_run st events (messageId msg)) as Hrun.
  destruct (decide _) as [Hin | Hnin]; simpl.
  - split; [|done]. split; [done|]. intros [H1 H2]. exfalso.
    apply Hrun in Hin as [Hin | (m & Hm & Hk)]; [done|].
    apply H2. exists m. split; [done|]. by apply messageId_parts.
  - split; [|done]. split; [intros _ | done]. split.
    + intros H. apply Hnin, Hrun. by left.
    + intros (m & Hm & H1 & H2). apply Hnin, Hrun. right. exists m. split; [done|].
      unfold messageId. by rewrite H1, H2.
Qed.

Lemma message_started_iff_first_witness :
  fst (step (snd (run initialBot [MessageArrives Sample.message;
                                  MessageHandlerRejects Sample.message]))
         (MessageArrives Sample.message)) = Started ↔
  (messageId Sample.message ∉ processedMessages initialBot) ∧
  ¬ (∃ m, m ∈ userTexts [MessageArrives Sample.message;
                         MessageHandlerRejects Sample.message] ∧
          message_id m = message_id Sample.message ∧
          from_id m = from_id Sample.message).
Proof.
  apply (message_started_iff_first initialBot
           [MessageArrives Sample.message; MessageHandlerRejects Sample.message]
           Sample.message).
  reflexivity.
Defined.
End KeyFacts.

(** ** Every run of the reconciliation *)

Section RunFacts.
Import Async Reconcile Trace.
Variable cfg : Config.
Variable env : Env.
Variable chatId : Z.
Variable userId : string.

Lemma fetchAttempts_app (h1 h2 : list (Call * BotState)) :
  fetchAttempts (h1 ++ h2) = fetchAttempts h1 ++ fetchAttempts h2.
Proof. apply omap_app. Qed.

Lemma subscriptions_app (h1 h2 : list (Call * BotState)) :
  subscriptions (h1 ++ h2) = subscriptions h1 ++ subscriptions h2.
Proof. apply omap_app. Qed.

(** What the loop does, whatever the surroundings answer: it asks the
    ledger for consecutive attempts, at most as many as it has iterations,
    and writes no subscription; every attempt but the last one found
    nothing; it leaves with a payment only if the last answer shows it,
    and with the reply that the service is unavailable only if the last
    request failed and no attempt is left. *)
Lemma pollLoop_trace (ps : list PendingPayment) (remaining attempt : nat) (w : World)
    (c : Completion LoopExit) (w1 : World) :
  pollLoop cfg env chatId ps remaining attempt w = (c, w1) →
  ∃ k t,
    (k ≤ remaining)%nat ∧
    history w1 = history w ++ t ∧
    fetchAttempts t = seq attempt k ∧
    subscriptions t = [] ∧
    (∀ i, (attempt ≤ i < attempt + k - 1)%nat → fruitless cfg env ps i = true) ∧
    match c with
    | Normal (Break p) =>
        issued t = [] ∧ (1 ≤ k)%nat ∧
        ∃ data, ledger env (attempt + k - 1)%nat = FetchOk data ∧
                Matcher.findPayment cfg ps (transactionsOf data) = Some p
    | Normal Fallthrough =>
        issued t = [] ∧ k = remaining ∧
        ∀ i, (attempt ≤ i < attempt + k)%nat →
             fruitless cfg env ps i = true ∧
             (ledger env i = FetchError → (i < MAX_ATTEMPTS cfg)%nat)
    | Normal Returned =>
        issued t = [ReplyUnavailable] ∧ (1 ≤ k)%nat ∧
        ledger env (attempt + k - 1)%nat = FetchError ∧
        (MAX_ATTEMPTS cfg ≤ attempt + k - 1)%nat
    | Thrown =>
        issued t = [ReplyUnavailable] ∧ (1 ≤ k)%nat ∧
        ledger env (attempt + k - 1)%nat = FetchError ∧
        (MAX_ATTEMPTS cfg ≤ attempt + k - 1)%nat ∧
        ∃ n, chatOk env n = false
    end.
Proof.
  revert attempt w c w1. induction remaining as [|remaining IH]; intros attempt w c w1 Hrun.
  - simpl in Hrun. injection Hrun as <- <-. exists 0%nat, []. rewrite app_nil_r.
    split_and!; try done; intros i Hi; lia.
  - rewrite pollLoop_step in Hrun. cbv zeta in Hrun.
    assert (∀ w0 t0,
              history w0 = history w ++ (AxiosGet attempt (ledger env attempt), bot w) :: t0 →
              fetchAttempts t0 = [] → subscriptions t0 = [] → issued t0 = [] →
              fruitless cfg env ps attempt = true →
              (ledger env attempt = FetchError → (attempt < MAX_ATTEMPTS cfg)%nat) →
              pollLoop cfg env chatId ps remaining (S attempt) w0 = (c, w1) →
              ∃ k t,
                (k ≤ S remaining)%nat ∧
                history w1 = history w ++ t ∧
                fetchAttempts t = seq attempt k ∧
                subscriptions t = [] ∧
                (∀ i, (attempt ≤ i < attempt + k - 1)%nat → fruitless cfg env ps i = true) ∧
                match c with
                | Normal (Break p) =>
                    issued t = [] ∧ (1 ≤ k)%nat ∧
                    ∃ data, ledger env (attempt + k - 1)%nat = FetchOk data ∧
                            Matcher.findPayment cfg ps (transactionsOf data) = Some p
                | Normal Fallthrough =>
                    issued t = [] ∧ k = S remaining ∧
                    ∀ i, (attempt ≤ i < attempt + k)%nat →
                         fruitless cfg env ps i = true ∧
                         (ledger env i = FetchError → (i < MAX_ATTEMPTS cfg)%nat)
                | Normal Returned =>
                    issued t = [ReplyUnavailable] ∧ (1 ≤ k)%nat ∧
                    ledger env (attempt + k - 1)%nat = FetchError ∧
                    (MAX_ATTEMPTS cfg ≤ attempt + k - 1)%nat
                | Thrown =>
                    issued t = [ReplyUnavailable] ∧ (1 ≤ k)%nat ∧
                    ledger env (attempt + k - 1)%nat = FetchError ∧
                    (MAX_ATTEMPTS cfg ≤ attempt + k - 1)%nat ∧
                    ∃ n, chatOk env n = false
                end) as Hnext.
    { intros w0 t0 Hh Hf0 Hs0 Hi0 Hfr Herr Hrec.
      destruct (IH _ _ _ _ Hrec) as (k & t & Hk & Ht & Hf & Hs & Hearly & Hc).
      exists (S k), ((AxiosGet attempt (ledger env attempt), bot w) :: t0 ++ t).
      split; [lia|]. split; [by rewrite Ht, Hh, <- app_assoc|].
      change ((AxiosGet attempt (ledger env attempt), bot w) :: t0 ++ t)
        with ([(AxiosGet attempt (ledger env attempt), bot w)] ++ t0 ++ t).
      rewrite !fetchAttempts_app, !subscriptions_app, !issued_app, Hf0, Hs0, Hi0, Hf, Hs.
      split; [done|]. split; [done|].
      assert (∀ i, (attempt ≤ i < attempt + S k - 1)%nat → fruitless cfg env ps i = true)
        as Hearly'.
      { intros i Hi. destruct (decide (i = attempt)) as [-> | Hne]; [done|].
        apply Hearly. lia. }
      split; [done|].
      replace (attempt + S k - 1)%nat with (S attempt + k - 1)%nat by lia.
      destruct c as [[p| |]|]; simpl.
      - destruct Hc as (Hi & Hk1 & data & Hl & Hfind). split; [done|]. split; [lia|].
        by exists data.
      - destruct Hc as (Hi & -> & Hall). split; [done|]. split; [done|].
        intros i Hi'. destruct (decide (i = attempt)) as [-> | Hne]; [done|].
        apply Hall. lia.
      - destruct Hc as (Hi & Hk1 & Hl & Hmax). split_and!; try done; lia.
      - destruct Hc as (Hi & Hk1 & Hl & Hmax & Hchat). split_and!; try done; lia. }
    destruct (ledger env attempt) as [|data] eqn:Hl.
    + destruct (attempt <? MAX_ATTEMPTS cfg)%nat eqn:Hlt.
      * apply Nat.ltb_lt in Hlt.
        refine (Hnext _ [(Sleep (RETRY_DELAY_MS cfg), bot w)] _ _ _ _ _ _ Hrun); try done.
        -- unfold logCall. simpl. by rewrite <- app_assoc.
        -- unfold fruitless. by rewrite Hl.
      * apply Nat.ltb_ge in Hlt.
        injection Hrun as <- <-. exists 1%nat. eexists. split; [lia|].
        simpl. rewrite <- app_assoc. split; [reflexivity|]. simpl.
        replace (attempt + 1 - 1)%nat with attempt by lia.
        split; [done|]. split; [done|]. split; [intros i Hi; lia|].
        destruct (chatOk env _) eqn:Hchat; split_and!; try done; try lia. eauto.
    + destruct (Matcher.findPayment _ _ _) as [p|] eqn:Hfind.
      * injection Hrun as <- <-. exists 1%nat. eexists. split; [lia|].
        simpl. split; [reflexivity|]. simpl. split; [done|]. split; [done|].
        split; [intros i Hi; lia|].
        split; [done|]. split; [lia|]. exists data.
        replace (attempt + 1 - 1)%nat with attempt by lia. done.
      * assert (fruitless cfg env ps attempt = true) as Hfr
          by (unfold fruitless; by rewrite Hl, Hfind).
        destruct (attempt <? MAX_ATTEMPTS cfg)%nat.
        -- refine (Hnext _ [(Sleep (RETRY_DELAY_MS cfg), bot w)] _ _ _ _ Hfr _ Hrun); try done.
           unfold logCall. simpl. by rewrite <- app_assoc.
        -- refine (Hnext _ [] _ _ _ _ Hfr _ Hrun); done.
Qed.

(** What follows the loop, up to the end of the handler, whatever the
    surroundings answer. *)
Lemma after_trace (c : Completion LoopExit) (w1 : World) :
  let '(c', w2) :=
    match c with
    | Normal exit =>
        tryCatch (afterLoop cfg env chatId userId exit)
                 (sendMessage env chatId ReplyProblem) w1
    | Thrown => sendMessage env chatId ReplyProblem w1
    end in
  let w3 := onBot (deleteChecking (checkKey userId)) w2 in
  let r := match c' with
           | Normal a => (Normal a, w3)
           | Thrown => outerCatch env chatId userId w3
           end in
  let stored := storeOk env (length (history w1)) in
  ∃ t,
    history (snd r) = history w1 ++ t ∧
    fetchAttempts t = [] ∧
    processedCallbacks (bot (snd r)) = processedCallbacks (bot w1) ∧
    processedMessages (bot (snd r)) = processedMessages (bot w1) ∧
    checkingPayments (bot (snd r)) = checkingPayments (bot w1) ∖ {[checkKey userId]} ∧
    match c with
    | Normal (Break p) =>
        subscriptions t = [(userId, reference p, SUBSCRIPTION_DAYS cfg, stored)] ∧
        pendingPayments (bot (snd r)) =
          (if stored then delete userId (pendingPayments (bot w1))
           else pendingPayments (bot w1))
    | _ => subscriptions t = [] ∧ pendingPayments (bot (snd r)) = pendingPayments (bot w1)
    end ∧
    ((∀ i, chatOk env i = true) →
     fst r = Normal tt ∧
     issued t = match c with
                | Normal (Break p) => if stored then [ReplyConfirmed] else [ReplyProblem]
                | Normal Fallthrough => [ReplyNotFound]
                | Normal Returned => []
                | Thrown => [ReplyProblem]
                end).
Proof.
  destruct c as [[p | |]|];
    unfold outerCatch, afterLoop, bind, tryCatch, sendMessage, createSubscription,
      sendImmediateSentence, modify, logCall, onBot, unitOrThrow, ret; simpl.
  all: repeat (match goal with
               | |- context [chatOk env ?n] => destruct (chatOk env n) eqn:?
               | |- context [storeOk env ?n] => destruct (storeOk env n) eqn:?
               end; simpl).
  all: rewrite <- ?app_assoc; eexists; (split; [try reflexivity; by rewrite app_nil_r|]).
  all: simpl; rewrite ?remove_twice; split_and!; try done.
  all: intros Hchat; rewrite ?Hchat in *; try done.
Qed.

(** A run that reaches the polling phase, whatever the surroundings
    answer afterwards. *)
Lemma polling_trace (w : World) (ps : list PendingPayment) :
  checkKey userId ∉ checkingPayments (bot w) →
  pendingPayments (bot w) !! userId = Some ps → ps ≠ [] →
  chatOk env (length (history w)) = true →
  let r := handleCheckPayment cfg env chatId userId w in
  ∃ (c : Completion LoopExit) k t1 t2 stored,
    history (snd r) = history (pollingWorld cfg chatId userId w) ++ t1 ++ t2 ∧
    (k ≤ MAX_ATTEMPTS cfg)%nat ∧
    fetchAttempts t1 = seq 1 k ∧ subscriptions t1 = [] ∧ fetchAttempts t2 = [] ∧
    (∀ i, (1 ≤ i < k)%nat → fruitless cfg env ps i = true) ∧
    processedCallbacks (bot (snd r)) = processedCallbacks (bot w) ∧
    processedMessages (bot (snd r)) = processedMessages (bot w) ∧
    checkingPayments (bot (snd r)) = checkingPayments (bot w) ∧
    match c with
    | Normal (Break p) =>
        issued t1 = [] ∧ (1 ≤ k)%nat ∧
        (∃ data, ledger env k = FetchOk data ∧
                 Matcher.findPayment cfg ps (transactionsOf data) = Some p) ∧
        subscriptions t2 = [(userId, reference p, SUBSCRIPTION_DAYS cfg, stored)] ∧
        pendingPayments (bot (snd r)) =
          (if stored then delete userId (pendingPayments (bot w))
           else pendingPayments (bot w))
    | Normal Fallthrough =>
        issued t1 = [] ∧ k = MAX_ATTEMPTS cfg ∧
        (∀ i, (1 ≤ i ≤ MAX_ATTEMPTS cfg)%nat →
              fruitless cfg env ps i = true ∧
              (ledger env i = FetchError → (i < MAX_ATTEMPTS cfg)%nat)) ∧
        subscriptions t2 = [] ∧
        pendingPayments (bot (snd r)) = pendingPayments (bot w)
    | Normal Returned =>
        issued t1 = [ReplyUnavailable] ∧ (1 ≤ k)%nat ∧ k = MAX_ATTEMPTS cfg ∧
        ledger env (MAX_ATTEMPTS cfg) = FetchError ∧
        subscriptions t2 = [] ∧
        pendingPayments (bot (snd r)) = pendingPayments (bot w)
    | Thrown =>
        issued t1 = [ReplyUnavailable] ∧ (1 ≤ k)%nat ∧ k = MAX_ATTEMPTS cfg ∧
        ledger env (MAX_ATTEMPTS cfg) = FetchError ∧
        subscriptions t2 = [] ∧
        pendingPayments (bot (snd r)) = pendingPayments (bot w) ∧
        ∃ n, chatOk env n = false
    end ∧
    ((∀ i, chatOk env i = true) →
     fst r = Normal tt ∧
     issued t2 = match c with
                 | Normal (Break p) => if stored then [ReplyConfirmed] else [ReplyProblem]
                 | Normal Fallthrough => [ReplyNotFound]
                 | Normal Returned => []
                 | Thrown => [ReplyProblem]
                 end).
Proof.
  intros Hflag Hps Hne Hchat0.
  rewrite (handle_reaches_polling cfg env chatId userId w ps) by done.
  unfold tryCatch at 1. rewrite innerTry_unfold.
  set (w0 := pollingWorld cfg chatId userId w).
  destruct (pollLoop cfg env chatId ps (MAX_ATTEMPTS cfg) 1 w0) as [c w1] eqn:Hloop.
  destruct (pollLoop_snapshots cfg env chatId ps (MAX_ATTEMPTS cfg) 1 w0) as (Hb & _).
  rewrite Hloop in Hb. simpl in Hb.
  destruct (pollLoop_trace _ _ _ _ _ _ Hloop) as (k & t1 & Hk & Ht1 & Hf1 & Hs1 & Hearly & Hc).
  pose proof (after_trace c w1) as Hafter.
  destruct (match c with Normal _ => _ | Thrown => _ end) as [c' w2].
  cbv zeta in Hafter.
  destruct Hafter as (t2 & Ht2 & Hf2 & Hpc & Hpm & Hck & Hsub & Hverdict).
  remember (storeOk env (length (history w1))) as stored eqn:Hst. clear Hst.
  cbv zeta. exists c, k, t1, t2, stored.
  rewrite Ht2, Ht1, Hpc, Hpm, Hck, Hb, <- app_assoc.
  replace (1 + k - 1)%nat with k in * by lia.
  split_and!; try done.
  - unfold w0, pollingWorld. simpl. by apply remove_added.
  - rewrite Hb in Hsub. unfold addChecking in Hsub. simpl in Hsub.
    destruct c as [[p| |]|].
    + destruct Hc as (Hi & Hk1 & Hdata). destruct Hsub as [Hs2 Hp]. done.
    + destruct Hc as (Hi & -> & Hall). destruct Hsub as [Hs2 Hp].
      split_and!; try done. intros i Hi'. apply Hall. lia.
    + destruct Hc as (Hi & Hk1 & Hl & Hmax). destruct Hsub as [Hs2 Hp].
      assert (k = MAX_ATTEMPTS cfg) as -> by lia. done.
    + destruct Hc as (Hi & Hk1 & Hl & Hmax & Hbad). destruct Hsub as [Hs2 Hp].
      assert (k = MAX_ATTEMPTS cfg) as -> by lia. done.
Qed.

(** A run that finds the flag unset and does not reach the polling
    phase: nothing is pending, or the notice that the check is running
    was not sent. *)
Lemma no_polling_trace (w : World) :
  checkKey userId ∉ checkingPayments (bot w) →
  Ledger.pendingOf userId (bot w) = [] ∨ chatOk env (length (history w)) = false →
  let r := handleCheckPayment cfg env chatId userId w in
  ∃ new,
    history (snd r) = history w ++ new ∧
    fetchAttempts new = [] ∧ subscriptions new = [] ∧
    pendingPayments (bot (snd r)) = pendingPayments (bot w) ∧
    processedCallbacks (bot (snd r)) = processedCallbacks (bot w) ∧
    processedMessages (bot (snd r)) = processedMessages (bot w) ∧
    (∀ k, k ≠ checkKey userId →
          k ∈ checkingPayments (bot (snd r)) ↔ k ∈ checkingPayments (bot w)) ∧
    ((∀ i, chatOk env i = true) → fst r = Normal tt ∧ issued new = [ReplyNoPending]).
Proof.
  intros Hflag Hcase. unfold Ledger.pendingOf in Hcase.
  assert (∀ s : gset string, ∀ k, k ≠ checkKey userId →
            (k ∈ {[checkKey userId]} ∪ s ↔ k ∈ s) ∧
            (k ∈ ({[checkKey userId]} ∪ s) ∖ {[checkKey userId]} ↔ k ∈ s)) as Hset.
  { intros s k Hk. rewrite elem_of_difference, elem_of_union, !elem_of_singleton. tauto. }
  destruct (pendingPayments (bot w) !! userId) as [[|p0 ps0]|] eqn:Hps.
  2: destruct Hcase as [? | Hchat0]; [done|].
  all: unfold handleCheckPayment, checkBody, outerCatch, bind, tryCatch, getBot,
         modify, sendMessage, onBot, logCall, unitOrThrow; simpl.
  all: destruct (decide _) as [|_]; [done|]; simpl; rewrite Hps; simpl.
  all: rewrite ?Hchat0; simpl.
  all: repeat (match goal with
               | |- context [chatOk env ?n] => destruct (chatOk env n) eqn:?
               end; simpl).
  all: rewrite <- ?app_assoc; eexists; (split; [reflexivity|]).
  all: simpl; rewrite ?remove_twice; split_and!; try done.
  all: try (intros k Hk; by apply Hset).
  all: intros Hchat; rewrite ?Hchat in *; done.
Qed.

(** A run that finds the flag set. *)
Lemma flagged_trace (w : World) :
  checkKey userId ∈ checkingPayments (bot w) →
  let r := handleCheckPayment cfg env chatId userId w in
  ∃ new,
    history (snd r) = history w ++ new ∧
    fetchAttempts new = [] ∧ subscriptions new = [] ∧
    bot (snd r) = bot w ∧
    ((∀ i, chatOk env i = true) → fst r = Normal tt ∧ issued new = [ReplyAlreadyChecking]).
Proof.
  intros Hflag. rewrite rejected_while_checking by done. cbv zeta. simpl.
  eexists. split; [reflexivity|]. split_and!; try done.
  intros Hchat. by rewrite Hchat.
Qed.
End RunFacts.

(** The three kinds of run. *)
Lemma run_cases (cfg : Config) (env : Env) (userId : string) (w : World) :
  checkKey userId ∈ checkingPayments (bot w) ∨
  ((checkKey userId ∉ checkingPayments (bot w)) ∧
   (Ledger.pendingOf userId (bot w) = [] ∨ chatOk env (length (history w)) = false)) ∨
  ((checkKey userId ∉ checkingPayments (bot w)) ∧
   chatOk env (length (history w)) = true ∧
   ∃ ps, pendingPayments (bot w) !! userId = Some ps ∧ ps ≠ [] ∧
         Ledger.pendingOf userId (bot w) = ps).
Proof.
  destruct (decide (checkKey userId ∈ checkingPayments (bot w))) as [Hin | Hnin]; [by left|].
  right. unfold Ledger.pendingOf.
  destruct (pendingPayments (bot w) !! userId) as [[|p0 ps0]|] eqn:Hps;
    [left; split; [done | by left] | | left; split; [done | by left]].
  destruct (chatOk env (length (history w))) eqn:Hchat.
  - right. split; [done|]. split; [done|]. by exists (p0 :: ps0).
  - left. split; [done | by right].
Qed.

(** X9.  Whatever the ledger, the chat and the store answer, a run of
    [handleCheckPayment] writes at most one subscription, and only for a
    payment that is pending for this user and that the transactions
    returned by one of its ledger requests match; the subscription is for
    this user, under the reference of that payment, for the configured
    number of days. *)
Theorem subscription_only_for_matched_payment
    (cfg : Config) (env : Env) (chatId : Z) (userId : string) (w : World) :
  ∃ new,
    history (snd (handleCheckPayment cfg env chatId userId w)) = history w ++ new ∧
    (Trace.subscriptions new = [] ∨
     ∃ ps p attempt data stored,
       Trace.subscriptions new =
         [(userId, reference p, SUBSCRIPTION_DAYS cfg, stored)] ∧
       pendingPayments (bot w) !! userId = Some ps ∧ p ∈ ps ∧
       (1 ≤ attempt ≤ MAX_ATTEMPTS cfg)%nat ∧
       attempt ∈ Trace.fetchAttempts new ∧
       ledger env attempt = FetchOk data ∧
       Matcher.paymentMatches cfg (transactionsOf data) p = true).
Proof.
  destruct (run_cases cfg env userId w) as [Hin | [[Hnin Hcase] | (Hnin & Hchat & ps & Hps & Hne & _)]].
  - destruct (flagged_trace cfg env chatId userId w Hin) as (new & Hh & _ & Hs & _).
    exists new. split; [done | by left].
  - destruct (no_polling_trace cfg env chatId userId w Hnin Hcase) as (new & Hh & _ & Hs & _).
    exists new. split; [done | by left].
  - destruct (polling_trace cfg env chatId userId w ps Hnin Hps Hne Hchat)
      as (c & k & t1 & t2 & stored & Hh & Hk & Hf1 & Hs1 & Hf2 & _ & _ & _ & _ & Hc & _).
    cbv zeta in Hh. unfold pollingWorld in Hh. simpl in Hh. rewrite <- app_assoc in Hh.
    eexists. split; [exact Hh|].
    rewrite !subscriptions_app, !fetchAttempts_app, Hs1, Hf1, Hf2. simpl.
    destruct c as [[p| |]|].
    + destruct Hc as (_ & Hk1 & (data & Hl & Hfind) & Hs2 & _). right.
      apply findPayment_Some in Hfind as (before & after & -> & Hm & _).
      exists (before ++ p :: after), p, k, data, stored.
      split_and!; try done; try lia.
      * apply elem_of_app. right. by left.
      * rewrite app_nil_r. apply elem_of_seq. lia.
    + destruct Hc as (_ & _ & _ & Hs2 & _). left. done.
    + destruct Hc as (_ & _ & _ & _ & Hs2 & _). left. done.
    + destruct Hc as (_ & _ & _ & _ & Hs2 & _). left. done.
Qed.

(** X10.  Whatever the surroundings answer, a run asks the ledger for the
    attempts 1, 2, ... in this order and for at most [MAX_ATTEMPTS] of
    them. *)
Theorem ledger_asked_at_most_max_attempts
    (cfg : Config) (env : Env) (chatId : Z) (userId : string) (w : World) :
  ∃ new k,
    history (snd (handleCheckPayment cfg env chatId userId w)) = history w ++ new ∧
    Trace.fetchAttempts new = seq 1 k ∧ (k ≤ MAX_ATTEMPTS cfg)%nat.
Proof.
  destruct (run_cases cfg env userId w) as [Hin | [[Hnin Hcase] | (Hnin & Hchat & ps & Hps & Hne & _)]].
  - destruct (flagged_trace cfg env chatId userId w Hin) as (new & Hh & Hf & _).
    exists new, 0%nat. split_and!; try done. lia.
  - destruct (no_polling_trace cfg env chatId userId w Hnin Hcase) as (new & Hh & Hf & _).
    exists new, 0%nat. split_and!; try done. lia.
  - destruct (polling_trace cfg env chatId userId w ps Hnin Hps Hne Hchat)
      as (c & k & t1 & t2 & stored & Hh & Hk & Hf1 & Hs1 & Hf2 & _).
    cbv zeta in Hh. unfold pollingWorld in Hh. simpl in Hh. rewrite <- app_assoc in Hh.
    eexists. exists k. split; [exact Hh|].
    rewrite !fetchAttempts_app, Hf1, Hf2. simpl. by rewrite app_nil_r.
Qed.

(** X11.  Whatever the surroundings answer, a run leaves the de-duplication
    sets, the flags of other users and the pending payments of other users
    as they were, and the pending payments of its own user are deleted if
    the store accepted a subscription during the run and are unchanged
    otherwise. *)
Theorem run_changes_only_own_entry
    (cfg : Config) (env : Env) (chatId : Z) (userId : string) (w : World) :
  let w' := snd (handleCheckPayment cfg env chatId userId w) in
  processedCallbacks (bot w') = processedCallbacks (bot w) ∧
  processedMessages (bot w') = processedMessages (bot w) ∧
  (∀ k, k ≠ checkKey userId →
        k ∈ checkingPayments (bot w') ↔ k ∈ checkingPayments (bot w)) ∧
  (∀ u, u ≠ userId → pendingPayments (bot w') !! u = pendingPayments (bot w) !! u) ∧
  ∃ new,
    history w' = history w ++ new ∧
    pendingPayments (bot w') =
      if existsb snd (Trace.subscriptions new)
      then delete userId (pendingPayments (bot w))
      else pendingPayments (bot w).
Proof.
  cbv zeta.
  assert (∀ (m m' : gmap string (list PendingPayment)) (b : bool),
            m' = (if b then delete userId m else m) →
            ∀ u, u ≠ userId → m' !! u = m !! u) as Hother.
  { intros m m' b -> u Hu. destruct b; [by rewrite lookup_delete_ne | done]. }
  destruct (run_cases cfg env userId w) as [Hin | [[Hnin Hcase] | (Hnin & Hchat & ps & Hps & Hne & _)]].
  - destruct (flagged_trace cfg env chatId userId w Hin) as (new & Hh & _ & Hs & Hb & _).
    cbv zeta in Hb, Hh. rewrite Hb. split_and!; try done.
    exists new. by rewrite Hs.
  - destruct (no_polling_trace cfg env chatId userId w Hnin Hcase)
      as (new & Hh & _ & Hs & Hp & Hpc & Hpm & Hck & _).
    cbv zeta in *. split_and!; try done.
    + intros u _. by rewrite Hp.
    + exists new. by rewrite Hs.
  - destruct (polling_trace cfg env chatId userId w ps Hnin Hps Hne Hchat)
      as (c & k & t1 & t2 & stored & Hh & Hk & Hf1 & Hs1 & Hf2 & _ & Hpc & Hpm & Hck & Hc & _).
    cbv zeta in *. unfold pollingWorld in Hh. simpl in Hh. rewrite <- app_assoc in Hh.
    assert (Trace.subscriptions
              ([(SendMessage chatId ReplyChecking true, addChecking (checkKey userId) (bot w));
                (Sleep (INITIAL_DELAY_MS cfg), addChecking (checkKey userId) (bot w))]
               ++ t1 ++ t2) = Trace.subscriptions t2) as Hsubs
      by (by rewrite !subscriptions_app, Hs1).
    assert (pendingPayments (bot (snd (handleCheckPayment cfg env chatId userId w))) =
            if existsb snd (Trace.subscriptions t2)
            then delete userId (pendingPayments (bot w))
            else pendingPayments (bot w)) as Hpend.
    { destruct c as [[p| |]|].
      - destruct Hc as (_ & _ & _ & Hs2 & Hp). rewrite Hs2, Hp. simpl. by destruct stored.
      - destruct Hc as (_ & _ & _ & Hs2 & Hp). by rewrite Hs2, Hp.
      - destruct Hc as (_ & _ & _ & _ & Hs2 & Hp). by rewrite Hs2, Hp.
      - destruct Hc as (_ & _ & _ & _ & Hs2 & Hp & _). by rewrite Hs2, Hp. }
    split_and!; try done.
    + intros k' Hk'. by rewrite Hck.
    + by apply (Hother _ _ _ Hpend).
    + eexists. split; [exact Hh|]. by rewrite Hsubs.
Qed.

(** X12.  With a chat that delivers, every run ends normally after one
    verdict, and the verdict is decided by the flag, the pending payments
    and the answers of the ledger and the store: "already checking" when
    the flag is set; "nothing pending" when the user has no pending
    payment; otherwise the notice, then the ledger is asked until the
    first attempt whose answer matches a pending payment, a subscription
    is written for it, and the verdict is "confirmed" if the store
    accepted and the apology if not; when no attempt up to [MAX_ATTEMPTS]
    matches, nothing is written and the verdict is "unavailable" if the
    last request failed and "not found" if it was answered. *)
Theorem one_verdict_per_check
    (cfg : Config) (env : Env) (chatId : Z) (userId : string) (w : World) :
  (∀ i, chatOk env i = true) →
  fst (handleCheckPayment cfg env chatId userId w) = Normal tt ∧
  ∃ new,
    history (snd (handleCheckPayment cfg env chatId userId w)) = history w ++ new ∧
    if decide (checkKey userId ∈ checkingPayments (bot w))
    then issued new = [ReplyAlreadyChecking] ∧ Trace.fetchAttempts new = [] ∧
         Trace.subscriptions new = []
    else
      match Ledger.pendingOf userId (bot w) with
      | [] => issued new = [ReplyNoPending] ∧ Trace.fetchAttempts new = [] ∧
              Trace.subscriptions new = []
      | ps =>
          (∃ attempt p data stored,
             (1 ≤ attempt ≤ MAX_ATTEMPTS cfg)%nat ∧
             (∀ i, (1 ≤ i < attempt)%nat → fruitless cfg env ps i = true) ∧
             ledger env attempt = FetchOk data ∧
             Matcher.findPayment cfg ps (transactionsOf data) = Some p ∧
             Trace.fetchAttempts new = seq 1 attempt ∧
             Trace.subscriptions new =
               [(userId, reference p, SUBSCRIPTION_DAYS cfg, stored)] ∧
             issued new =
               [ReplyChecking; if stored then ReplyConfirmed else ReplyProblem])
          ∨
          ((∀ i, (1 ≤ i ≤ MAX_ATTEMPTS cfg)%nat → fruitless cfg env ps i = true) ∧
           Trace.fetchAttempts new = seq 1 (MAX_ATTEMPTS cfg) ∧
           Trace.subscriptions new = [] ∧
           issued new =
             [ReplyChecking;
              match MAX_ATTEMPTS cfg with
              | O => ReplyNotFound
              | S _ =>
                  match ledger env (MAX_ATTEMPTS cfg) with
                  | FetchError => ReplyUnavailable
                  | FetchOk _ => ReplyNotFound
                  end
              end])
      end.
Proof.
  intros Hchat.
  destruct (run_cases cfg env userId w)
    as [Hin | [[Hnin Hcase] | (Hnin & Hchat0 & ps & Hps & Hne & Hpo)]].
  - destruct (flagged_trace cfg env chatId userId w Hin) as (new & Hh & Hf & Hs & _ & Hv).
    destruct (Hv Hchat) as [Hc Hi]. split; [done|]. exists new. split; [done|].
    by rewrite decide_True by done.
  - destruct Hcase as [Hcase | Hbad]; [| by rewrite Hchat in Hbad].
    destruct (no_polling_trace cfg env chatId userId w Hnin (or_introl Hcase))
      as (new & Hh & Hf & Hs & _ & _ & _ & _ & Hv).
    destruct (Hv Hchat) as [Hc Hi]. split; [done|]. exists new. split; [done|].
    rewrite decide_False by done. by rewrite Hcase.
  - destruct (polling_trace cfg env chatId userId w ps Hnin Hps Hne Hchat0)
      as (c & k & t1 & t2 & stored & Hh & Hk & Hf1 & Hs1 & Hf2 & Hearly & _ & _ & _ & Hc & Hv).
    destruct (Hv Hchat) as [Hnormal Hi2]. split; [done|].
    cbv zeta in Hh. unfold pollingWorld in Hh. simpl in Hh. rewrite <- app_assoc in Hh.
    eexists. split; [exact Hh|].
    rewrite decide_False by done. rewrite Hpo.
    destruct ps as [|p0 ps0]; [done|]. set (ps := p0 :: ps0) in *.
    rewrite !subscriptions_app, !fetchAttempts_app, !issued_app, Hs1, Hf1, Hf2, Hi2.
    simpl. rewrite app_nil_r.
    destruct c as [[p| |]|].
    + destruct Hc as (Hi1 & Hk1 & (data & Hl & Hfind) & Hs2 & _). left.
      exists k, p, data, stored. rewrite Hi1, Hs2. split_and!; try done.
      by destruct stored.
    + destruct Hc as (Hi1 & -> & Hall & Hs2 & _). right.
      rewrite Hi1, Hs2. split_and!; try done.
      * intros i Hi. by apply Hall.
      * simpl. destruct (MAX_ATTEMPTS cfg) as [|m] eqn:Hm; [done|].
        destruct (ledger env (S m)) eqn:Hl; [|done].
        destruct (Hall (S m)) as [_ Hlt]; [lia|]. specialize (Hlt Hl). lia.
    + destruct Hc as (Hi1 & Hk1 & -> & Hl & Hs2 & _). right.
      rewrite Hi1, Hs2, Hl. split_and!; try done.
      * intros i Hi. destruct (decide (i = MAX_ATTEMPTS cfg)) as [-> | Hne'].
        -- unfold fruitless. by rewrite Hl.
        -- apply Hearly. lia.
      * simpl. destruct (MAX_ATTEMPTS cfg) eqn:Hm; [lia | done].
    + destruct Hc as (_ & _ & _ & _ & _ & _ & n & Hbad). by rewrite Hchat in Hbad.
Qed.

Lemma one_verdict_per_check_witness :
  fst (handleCheckPayment Sample.cfg Sample.envPaidLate 42 "7"
         (Sample.world Sample.botWithPending)) = Normal tt.
Proof.
  apply (one_verdict_per_check Sample.cfg Sample.envPaidLate 42 "7"
           (Sample.world Sample.botWithPending)).
  intros i. reflexivity.
Defined.

(** ** Every call of the daily fan-out *)

Lemma queueUsers_log (SentenceData : Type) (createDailyMessage : SentenceData → string)
    (env : Scheduler.Env SentenceData) (cache : gmap Z SentenceData)
    (users : list Scheduler.User) (i : nat) (l : Scheduler.Log SentenceData) :
  snd (Scheduler.queueUsers createDailyMessage env cache users i l) =
  l ++ concat (imap (fun j => Scheduler.userCalls createDailyMessage env cache (i + j)) users).
Proof.
  revert i l. induction users as [|user users IH]; intros i l.
  - simpl. by rewrite app_nil_r.
  - rewrite queueUsers_cons, IH, imap_cons. simpl. rewrite <- app_assoc.
    replace (i + 0)%nat with i by lia. do 2 f_equal.
    f_equal. apply imap_ext. intros j u _. simpl. f_equal. lia.
Qed.

(** X13.  The calls of one run of the fan-out, in order: the query for the
    eligible users; when it fails, nothing else; when it succeeds, one
    generation request for each of the tiers 1 to 5, however many users
    there are, and then, user by user, a content record for each user
    whose tier has content, followed by the enqueue when the record was
    accepted and the identifier is a number. *)
Theorem fanout_call_log
    (SentenceData : Type) (createDailyMessage : SentenceData → string)
    (env : Scheduler.Env SentenceData) :
  snd (Scheduler.sendDailyMessages createDailyMessage env []) =
  match Scheduler.activeUsers env with
  | None => [Scheduler.GetActiveUsers false]
  | Some users =>
      Scheduler.GetActiveUsers true ::
      map (fun level =>
             Scheduler.Generate level (bool_decide (is_Some (Scheduler.generate env level))))
          [1; 2; 3; 4; 5] ++
      concat (imap (Scheduler.userCalls createDailyMessage env
                      (Scheduler.fill env [1; 2; 3; 4; 5] ∅)) users)
  end.
Proof.
  unfold Scheduler.sendDailyMessages, Async.tryCatch, Async.bind,
    Scheduler.getActiveUsers, Scheduler.log.
  destruct (Scheduler.activeUsers env) as [users|]; [|done].
  rewrite generateLevels_run.
  pose proof (queueUsers_log SentenceData createDailyMessage env
                (Scheduler.fill env [1; 2; 3; 4; 5] ∅) users 0
                (([] ++ [Scheduler.GetActiveUsers true]) ++
                 Scheduler.generateLog env [1; 2; 3; 4; 5])) as Hlog.
  destruct (Scheduler.queueUsers _ _ _ _ _ _) as [[[]|] l']; simpl in *; by rewrite Hlog.
Qed.

(** X14.  When the rows of the eligible users carry, as identifier, the
    decimal text of the chat identifier, as
    [createUser(userId.toString(), ...)] stores it, the fan-out skips no
    row as having an invalid identifier: its enqueues are, row by row, one
    enqueue to the chat of the user with the rendering of what generation
    returned for the user's tier, for every row whose tier is 1 to 5 and
    has content and whose content record was accepted, and none for any
    other row. *)
Theorem registered_users_are_addressed
    (SentenceData : Type) (createDailyMessage : SentenceData → string)
    (env : Scheduler.Env SentenceData) (registered : list (Z * Z)) :
  Scheduler.activeUsers env =
    Some (map (fun r => {| Scheduler.telegram_user_id := Reference.userKey (fst r);
                           Scheduler.difficulty_level := snd r |}) registered) →
  Forall (fun r => Reference.safeInteger (fst r)) registered →
  Scheduler.enqueued (snd (Scheduler.sendDailyMessages createDailyMessage env [])) =
  omap id
    (imap (fun i r =>
             if (1 <=? snd r) && (snd r <=? 5) then
               match Scheduler.generate env (snd r) with
               | Some sentenceData =>
                   if Scheduler.saveOk env i
                   then Some (fst r, createDailyMessage sentenceData)
                   else None
               | None => None
               end
             else None) registered).
Proof.
  intros Hrows _.
  destruct (sendDailyMessages_run SentenceData createDailyMessage env) as [_ Henq].
  rewrite Henq, Hrows. simpl. f_equal.
  rewrite imap_fmap. apply imap_ext. intros i r _.
  unfold Scheduler.delivery, Scheduler.cached, Reference.userKey. simpl.
  rewrite parseInt_numberToString by (by right).
  destruct ((1 <=? snd r) && (snd r <=? 5)); [|done].
  by destruct (Scheduler.generate env (snd r)).
Qed.

Lemma registered_users_are_addressed_witness :
  Scheduler.enqueued (snd (Scheduler.sendDailyMessages Sample.render Sample.fanoutAllWell [])) =
  omap id
    (imap (fun i r =>
             if (1 <=? snd r) && (snd r <=? 5) then
               match Scheduler.generate Sample.fanoutAllWell (snd r) with
               | Some sentenceData =>
                   if Scheduler.saveOk Sample.fanoutAllWell i
                   then Some (fst r, Sample.render sentenceData)
                   else None
               | None => None
               end
             else None) [(1001, 1); (1002, 1); (1003, 3)]).
Proof.
  apply (registered_users_are_addressed string Sample.render Sample.fanoutAllWell
           [(1001, 1); (1002, 1); (1003, 3)]).
  - reflexivity.
  - repeat constructor; unfold Reference.safeInteger; simpl; lia.
Defined.

(** ** Sanitizing pronunciations *)

Section SanitizeFacts.
Import Sanitize.

Lemma trimStart_suffix (s : CodeUnits) : ∃ pre, s = pre ++ trimStart s.
Proof.
  induction s as [|c s [pre IH]]; [by exists []|]. simpl.
  destruct (isSpace c); [exists (c :: pre); simpl; by f_equal | by exists []].
Qed.

Lemma trimStart_head (s : CodeUnits) :
  match trimStart s with [] => True | c :: _ => isSpace c = false end.
Proof.
  induction s as [|c s IH]; [done|]. simpl. by destruct (isSpace c) eqn:Hc.
Qed.

Lemma trimStart_clean (s : CodeUnits) :
  match s with [] => True | c :: _ => isSpace c = false end → trimStart s = s.
Proof. destruct s as [|c s]; [done|]. simpl. by intros ->. Qed.

(** Trimming at the start keeps the end of a text that does not consist
    of white space only. *)
Lemma trimStart_keeps_end (s : CodeUnits) (c : N) :
  isSpace c = false → ∃ pre, trimStart (s ++ [c]) = pre ++ [c].
Proof.
  intros Hc. induction s as [|d s [pre IH]]; simpl.
  - rewrite Hc. by exists [].
  - destruct (isSpace d); [by exists pre | by exists (d :: s)].
Qed.

Lemma trim_trimmed (s : CodeUnits) : trimmed (trim s).
Proof.
  unfold trimmed, trim, trimEnd. rewrite rev_involutive.
  split; [|apply trimStart_head].
  pose proof (trimStart_head s) as Hhead.
  destruct (trimStart s) as [|c s']; [done|]. simpl.
  destruct (trimStart_keeps_end (rev s') c Hhead) as [pre ->].
  by rewrite rev_app_distr.
Qed.

Lemma trim_clean (s : CodeUnits) : trimmed s → trim s = s.
Proof.
  intros [Hhead Hlast]. unfold trim, trimEnd.
  rewrite (trimStart_clean s Hhead), (trimStart_clean (rev s) Hlast).
  apply rev_involutive.
Qed.

Lemma trim_Forall (P : N → Prop) (s : CodeUnits) : Forall P s → Forall P (trim s).
Proof.
  intros H. unfold trim, trimEnd. apply Forall_rev.
  destruct (trimStart_suffix (rev (trimStart s))) as [pre Hpre].
  assert (Forall P (rev (trimStart s))) as Hall.
  { apply Forall_rev. destruct (trimStart_suffix s) as [pre' Hpre'].
    rewrite Hpre' in H. by apply Forall_app in H as [_ ?]. }
  rewrite Hpre in Hall. by apply Forall_app in Hall as [_ ?].
Qed.

Lemma filter_kept (kept : N → bool) (s : CodeUnits) :
  Forall (fun c => kept c = true) s → filter (fun c => kept c = true) s = s.
Proof.
  induction 1 as [|c s Hc Hs IH]; [done|].
  rewrite (filter_cons_True (fun c => kept c = true)) by done. f_equal. exact IH.
Qed.

Lemma sanitize_clean (kept : N → bool) (text : CodeUnits) :
  Forall (fun c => kept c = true) text → trimmed text → sanitize kept text = text.
Proof.
  intros Hall Htrim. destruct text as [|c text]; [done|].
  unfold sanitize. rewrite filter_kept by done. by apply trim_clean.
Qed.

Lemma sanitize_spec (kept : N → bool) (text : CodeUnits) :
  Forall (fun c => kept c = true) (sanitize kept text) ∧ trimmed (sanitize kept text).
Proof.
  destruct text as [|c text]; [by repeat split|]. unfold sanitize. split.
  - apply trim_Forall. apply Forall_forall. intros x Hx.
    apply list_elem_of_filter in Hx. tauto.
  - apply trim_trimmed.
Qed.

Lemma trim_spaces (s : CodeUnits) :
  Forall (fun c => isSpace c = true) s → trim s = [].
Proof.
  intros Hs. unfold trim.
  assert (trimStart s = []) as ->; [|done].
  induction Hs as [|c s Hc Hs IH]; [done|]. simpl. by rewrite Hc.
Qed.
End SanitizeFacts.

(** X15.  What [sanitizePronunciation] of the scheduler returns consists of
    Latin letters, white space, hyphens and apostrophes only and has no
    white space at either end; a text that is already of this form is
    returned unchanged, so sanitizing twice is sanitizing once. *)
Theorem sanitizeLatin_spec (text : Sanitize.CodeUnits) :
  Forall (fun c => Sanitize.latinKept c = true) (Sanitize.sanitizeLatin text) ∧
  Sanitize.trimmed (Sanitize.sanitizeLatin text) ∧
  Sanitize.sanitizeLatin (Sanitize.sanitizeLatin text) = Sanitize.sanitizeLatin text.
Proof.
  destruct (sanitize_spec Sanitize.latinKept text) as [Hall Htrim].
  split; [done|]. split; [done|]. by apply sanitize_clean.
Qed.

(** X16.  The same for [sanitizePronunciation] of the bot, which keeps the
    katakana block, white space and hyphens. *)
Theorem sanitizeKatakana_spec (text : Sanitize.CodeUnits) :
  Forall (fun c => Sanitize.katakanaKept c = true) (Sanitize.sanitizeKatakana text) ∧
  Sanitize.trimmed (Sanitize.sanitizeKatakana text) ∧
  Sanitize.sanitizeKatakana (Sanitize.sanitizeKatakana text) =
    Sanitize.sanitizeKatakana text.
Proof.
  destruct (sanitize_spec Sanitize.katakanaKept text) as [Hall Htrim].
  split; [done|]. split; [done|]. by apply sanitize_clean.
Qed.

(** X17.  The sanitizer of the bot returns the empty string for every
    pronunciation written in Latin letters and spaces, such as the
    pronunciations of the built-in fallback sentences. *)
Theorem sanitizeKatakana_erases_romaji (text : Sanitize.CodeUnits) :
  Forall (fun c => Sanitize.isLatinLetter c || Sanitize.isSpace c = true) text →
  Sanitize.sanitizeKatakana text = [].
Proof.
  intros Hall. destruct text as [|c0 text0]; [done|].
  unfold Sanitize.sanitizeKatakana, Sanitize.sanitize.
  apply trim_spaces, Forall_forall. intros c Hc.
  apply list_elem_of_filter in Hc as [Hk Hin].
  rewrite Forall_forall in Hall. apply Hall in Hin.
  apply orb_true_iff in Hin as [Hl | Hs]; [|done].
  unfold Sanitize.isLatinLetter in Hl. unfold Sanitize.katakanaKept in Hk.
  destruct (Sanitize.isSpace c); [done|]. exfalso.
  rewrite !orb_true_iff, !andb_true_iff, !N.leb_le, !N.eqb_eq in *. lia.
Qed.

Lemma sanitizeKatakana_erases_romaji_witness :
  Sanitize.sanitizeKatakana [116; 117; 32; 105; 105; 116; 111]%N = [].
Proof.
  apply (sanitizeKatakana_erases_romaji [116; 117; 32; 105; 105; 116; 111]%N).
  repeat constructor.
Defined.

(** ** Subscribing *)

Section SubscribeFacts.
Import Reference Subscribe.

Lemma isDigit_isUnreserved (c : ascii) : isDigit c = true → isUnreserved c = true.
Proof.
  intros H. apply isDigit_cases in H.
  repeat (destruct H as [-> | H]; [done|]). by subst.
Qed.

Lemma encodeURIComponent_unreserved (s : string) :
  allChars isUnreserved s = true → encodeURIComponent s = s.
Proof.
  induction s as [|c s IH]; [done|]. simpl.
  rewrite andb_true_iff. intros [Hc Hs]. by rewrite Hc, (IH Hs).
Qed.

Lemma paymentReference_unreserved (userId now : Z) :
  allChars isUnreserved (paymentReference userId now) = true.
Proof.
  assert (∀ n, allChars isUnreserved (Dedup.numberToString n) = true) as Hn
    by (intros n; apply numberToString_chars; [apply isDigit_isUnreserved | done]).
  unfold paymentReference. by rewrite !allChars_app, !Hn.
Qed.

(** The last element of an array survives [slice(-k)] for a positive
    [k]. *)
Lemma slice_last_snoc {A} (k : nat) (l : list A) (x : A) :
  (0 < k)%nat → ∃ pre, Js.slice_last k (l ++ [x]) = pre ++ [x].
Proof.
  intros Hk. unfold Js.slice_last. rewrite length_app. simpl.
  exists (drop (length l + 1 - k) l).
  rewrite drop_app_le by lia. done.
Qed.

Section RecordFacts.
Variable Amount : Type.
Variable truthyAmount : Amount → bool.
Variable toNano : Amount → Z.
Variable toFixed4 : Amount → string.
Variable fallbackAmount : Amount.
Variable cfg : Config.
Variable TON_ADDRESS : string.
Variable env : Env Amount.

(** Once the price service has answered, the payment is on record,
    whatever happens afterwards. *)
Lemma handleSubscribe_recorded (chatId userId : Z) (w : State Amount) (q : option Amount) :
  activeSubscription env = Some false →
  quote env = Some q →
  botState (snd (handleSubscribe truthyAmount toNano toFixed4 fallbackAmount cfg
                   TON_ADDRESS env chatId userId w)) =
  Ledger.record (userKey userId)
    (newPayment toNano cfg env userId (quotedOrFallback truthyAmount fallbackAmount q))
    (botState w).
Proof.
  intros Hactive Hquote.
  unfold handleSubscribe, Async.tryCatch, Async.bind, getActiveSubscription,
    getTonAmountForUSD, formatPriceMessage, sendNotice, sendOffer, modifyBot,
    logCall, Async.unitOrThrow.
  rewrite Hactive, Hquote. simpl.
  destruct (priceMessage env _) as [t|]; simpl; [|done].
  by destruct (chatOk env _).
Qed.

(** The newest pending payment after a [record] is the one recorded, and
    the entry has at most three elements. *)
Lemma record_newest (key : string) (p : PendingPayment) (st : BotState) :
  ∃ earlier,
    pendingPayments (Ledger.record key p st) !! key = Some (earlier ++ [p]) ∧
    (length (earlier ++ [p]) ≤ 3)%nat.
Proof.
  destruct (slice_last_snoc 3 (Ledger.pendingOf key st) p) as [pre Hpre]; [lia|].
  exists pre. unfold Ledger.record. simpl. rewrite lookup_insert_eq, <- Hpre.
  split; [done|]. rewrite slice_last_length. lia.
Qed.
End RecordFacts.
End SubscribeFacts.

(** X18.  [handleSubscribe] records a pending payment exactly when the store
    reports no active subscription and the price service does not throw,
    whether or not the price text can be formatted and the offer can be
    sent afterwards; the payment carries the reference made from the user
    and the first clock reading, and the amount quoted or, when nothing
    usable is quoted, the fallback amount.  In every other case the bot
    object is left as it was.  An offer is issued only after the payment
    was recorded, and it is the offer built for that payment. *)
Theorem subscribe_records_iff_quoted
    (Amount : Type) (truthyAmount : Amount → bool) (toNano : Amount → Z)
    (toFixed4 : Amount → string) (fallbackAmount : Amount) (cfg : Config)
    (TON_ADDRESS : string) (env : Subscribe.Env Amount) (chatId userId : Z)
    (w : Subscribe.State Amount) :
  let r := Subscribe.handleSubscribe truthyAmount toNano toFixed4 fallbackAmount cfg
             TON_ADDRESS env chatId userId w in
  let tonAmountForUSD :=
    Subscribe.quotedOrFallback truthyAmount fallbackAmount
      (default None (Subscribe.quote env)) in
  let recorded :=
    match Subscribe.activeSubscription env, Subscribe.quote env with
    | Some false, Some _ => true
    | _, _ => false
    end in
  Subscribe.botState (snd r) =
    (if recorded
     then Ledger.record (Reference.userKey userId)
            (Subscribe.newPayment toNano cfg env userId tonAmountForUSD)
            (Subscribe.botState w)
     else Subscribe.botState w) ∧
  ∃ new,
    Subscribe.log (snd r) = Subscribe.log w ++ new ∧
    Subscribe.offers new =
      if recorded
      then match Subscribe.priceMessage env tonAmountForUSD with
           | Some priceMessage =>
               [Subscribe.offerFor toNano toFixed4 cfg TON_ADDRESS env userId
                  tonAmountForUSD priceMessage]
           | None => []
           end
      else [].
Proof.
  cbv zeta.
  unfold Subscribe.handleSubscribe, Async.tryCatch, Async.bind,
    Subscribe.getActiveSubscription, Subscribe.getTonAmountForUSD,
    Subscribe.formatPriceMessage, Subscribe.sendNotice, Subscribe.sendOffer,
    Subscribe.modifyBot, Subscribe.logCall, Async.unitOrThrow.
  destruct (Subscribe.activeSubscription env) as [[|]|]; simpl.
  3: { split; [done|]. rewrite <- app_assoc. by eexists. }
  - destruct (Subscribe.chatOk env _); simpl.
    + split; [done|]. rewrite <- app_assoc. by eexists.
    + split; [done|]. rewrite <- !app_assoc. by eexists.
  - destruct (Subscribe.quote env) as [q|]; simpl.
    2: { split; [done|]. rewrite <- !app_assoc. by eexists. }
    destruct (Subscribe.priceMessage env _) as [t|]; simpl.
    2: { split; [done|]. rewrite <- !app_assoc. by eexists. }
    destruct (Subscribe.chatOk env _); simpl.
    + split; [done|]. rewrite <- !app_assoc. by eexists.
    + split; [done|]. rewrite <- !app_assoc. by eexists.
Qed.

(** X19.  Every offer that a run of [handleSubscribe] issues is backed by
    the ledger of pending payments as the run leaves it, the run being taken
    on its own: in the state of the bot object at the end of the run, the
    newest pending payment of the user carries the reference that the three
    payment links name (as transfer text and as wallet comment, which
    [encodeURIComponent] leaves unchanged) and the amounts the two transfer
    links ask for, the entry of the user has at most three payments, and
    the data of the offer's check button is routed to [handleCheckPayment]
    for the key of that entry.  (Between the record and the send the run
    awaits the price text; what other handlers do to the entry in the
    meantime is outside a run taken on its own.) *)
Theorem offer_is_backed_by_ledger
    (Amount : Type) (truthyAmount : Amount → bool) (toNano : Amount → Z)
    (toFixed4 : Amount → string) (fallbackAmount : Amount) (cfg : Config)
    (TON_ADDRESS : string) (env : Subscribe.Env Amount) (chatId userId : Z)
    (w : Subscribe.State Amount) :
  let r := Subscribe.handleSubscribe truthyAmount toNano toFixed4 fallbackAmount cfg
             TON_ADDRESS env chatId userId w in
  ∃ new,
    Subscribe.log (snd r) = Subscribe.log w ++ new ∧
    ∀ offer, offer ∈ Subscribe.offers new →
      ∃ earlier p tonAmountForUSD,
        pendingPayments (Subscribe.botState (snd r)) !! Reference.userKey userId =
          Some (earlier ++ [p]) ∧
        (length (earlier ++ [p]) ≤ 3)%nat ∧
        reference p = Reference.paymentReference userId (Subscribe.referenceTime env) ∧
        usdtAmount p = usdtAmountMicro cfg ∧
        Subscribe.tonDeepLink offer =
          "ton://transfer/" +:+ TON_ADDRESS +:+
          "?amount=" +:+ Dedup.numberToString (amount p) +:+
          "&text=" +:+ reference p ∧
        Subscribe.tonUsdtDeepLink offer =
          "ton://transfer/" +:+ TON_ADDRESS +:+
          "?amount=" +:+ Dedup.numberToString (usdtAmount p) +:+
          "&text=" +:+ reference p +:+
          "&jetton=" +:+ USDT_CONTRACT_ADDRESS cfg ∧
        Subscribe.telegramWalletLink offer =
          "https://t.me/wallet?start=pay&address=" +:+ TON_ADDRESS +:+
          "&amount=" +:+ toFixed4 tonAmountForUSD +:+
          "&comment=" +:+ reference p ∧
        Router.route (Subscribe.checkButtonData offer) =
          Router.ToCheckPayment (Some (Reference.userKey userId)).
Proof.
  cbv zeta.
  unfold Subscribe.handleSubscribe, Async.tryCatch, Async.bind,
    Subscribe.getActiveSubscription, Subscribe.getTonAmountForUSD,
    Subscribe.formatPriceMessage, Subscribe.sendNotice, Subscribe.sendOffer,
    Subscribe.modifyBot, Subscribe.logCall, Async.unitOrThrow.
  assert (∀ x : Subscribe.Offer, x ∈ [] → False) as Hnil
    by (intros x Hx; by apply elem_of_nil in Hx).
  destruct (Subscribe.activeSubscription env) as [[|]|]; simpl.
  3: { rewrite <- app_assoc. eexists. split; [done|]. intros o Ho. by apply Hnil in Ho. }
  - destruct (Subscribe.chatOk env _); simpl; rewrite <- ?app_assoc;
      (eexists; split; [done|]); intros o Ho; by apply Hnil in Ho.
  - destruct (Subscribe.quote env) as [q|]; simpl.
    2: { rewrite <- !app_assoc. eexists. split; [done|]. intros o Ho. by apply Hnil in Ho. }
    destruct (Subscribe.priceMessage env _) as [t|]; simpl.
    2: { rewrite <- !app_assoc. eexists. split; [done|]. intros o Ho. by apply Hnil in Ho. }
    set (a := Subscribe.quotedOrFallback truthyAmount fallbackAmount q).
    set (p := Subscribe.newPayment toNano cfg env userId a).
    destruct (record_newest (Reference.userKey userId) p (Subscribe.botState w))
      as (earlier & Hlook & Hlen).
    destruct (Subscribe.chatOk env _); simpl; rewrite <- !app_assoc;
      (eexists; split; [done|]); simpl; intros o Ho.
    all: apply list_elem_of_singleton in Ho as ->.
    all: exists earlier, p, a; split_and!; try done.
    all: try (simpl; by rewrite encodeURIComponent_unreserved
                by apply paymentReference_unreserved).
    all: apply route_checkPaymentData.
Qed.

(** X20.  From the offer to the subscription.  After [handleSubscribe] recorded
    a payment for a user whose check is not running, suppose the first
    ledger request of the check shows a transaction with the reference as
    its comment, and the chat and the store work.  Then pressing the check
    button of the offer confirms the payment at the first attempt: one
    ledger request, one subscription for this user under this reference
    for the configured number of days, the replies "checking" and
    "confirmed", no pending payment left for the user, and the flag
    removed. *)
Theorem subscribe_pay_check_confirms
    (Amount : Type) (truthyAmount : Amount → bool) (toNano : Amount → Z)
    (toFixed4 : Amount → string) (fallbackAmount : Amount) (cfg : Config)
    (TON_ADDRESS : string) (senv : Subscribe.Env Amount) (env : Env)
    (chatId userId : Z) (st : BotState) (q : option Amount)
    (data : option (list Transaction)) (tx : Transaction) :
  Subscribe.activeSubscription senv = Some false →
  Subscribe.quote senv = Some q →
  checkKey (Reference.userKey userId) ∉ checkingPayments st →
  (1 ≤ MAX_ATTEMPTS cfg)%nat →
  (∀ i, chatOk env i = true) →
  (∀ i, storeOk env i = true) →
  ledger env 1 = FetchOk data →
  In tx (transactionsOf data) →
  Matcher.carriesMemo tx
    (Reference.paymentReference userId (Subscribe.referenceTime senv)) →
  let st1 :=
    Subscribe.botState
      (snd (Subscribe.handleSubscribe truthyAmount toNano toFixed4 fallbackAmount cfg
              TON_ADDRESS senv chatId userId
              {| Subscribe.botState := st; Subscribe.log := [] |})) in
  match Router.route (Reference.checkPaymentData userId) with
  | Router.ToCheckPayment (Some targetUserId) =>
      let r := handleCheckPayment cfg env chatId targetUserId
                 {| bot := st1; history := [] |} in
      fst r = Normal tt ∧
      issued (history (snd r)) = [ReplyChecking; ReplyConfirmed] ∧
      Trace.fetchAttempts (history (snd r)) = [1%nat] ∧
      Trace.subscriptions (history (snd r)) =
        [(Reference.userKey userId,
          Reference.paymentReference userId (Subscribe.referenceTime senv),
          SUBSCRIPTION_DAYS cfg, true)] ∧
      pendingPayments (bot (snd r)) !! Reference.userKey userId = None ∧
      checkingPayments (bot (snd r)) = checkingPayments st
  | _ => False
  end.
Proof.
  intros Hactive Hquote Hflag Hmax Hchat Hstore Hledger Hin Hmemo.
  rewrite route_checkPaymentData. cbv zeta.
  rewrite (handleSubscribe_recorded Amount truthyAmount toNano toFixed4 fallbackAmount
             cfg TON_ADDRESS senv chatId userId _ q) by done.
  simpl Subscribe.botState.
  set (key := Reference.userKey userId).
  set (p := Subscribe.newPayment toNano cfg senv userId
              (Subscribe.quotedOrFallback truthyAmount fallbackAmount q)).
  set (st1 := Ledger.record key p st).
  destruct (record_newest key p st) as (earlier & Hlook & _). fold st1 in Hlook.
  set (ps := earlier ++ [p]) in *.
  assert (Matcher.findPayment cfg ps (transactionsOf data) = Some p) as Hfind.
  { apply findPayment_Some. exists earlier, []. split; [done|]. split; [|constructor].
    rewrite paymentMatches_orb. apply orb_true_iff. left.
    apply tonCheck_iff. exists tx, (reference p). split; [done|].
    split; [exact Hmemo | apply contains_self]. }
  set (w := {| bot := st1; history := [] |}).
  assert (checkKey key ∉ checkingPayments (bot w)) as Hflag' by done.
  assert (ps ≠ []) as Hne by (unfold ps; by destruct earlier).
  destruct (handleCheckPayment cfg env chatId key w) as [c0 w'] eqn:Hr.
  rewrite (handle_reaches_polling cfg env chatId key w ps) in Hr by done.
  unfold Async.tryCatch at 1 in Hr. rewrite innerTry_unfold in Hr.
  destruct (MAX_ATTEMPTS cfg) as [|m] eqn:Hm; [lia|].
  rewrite (pollLoop_found cfg env chatId ps m 1 _ data p) in Hr by done.
  pose proof (after_trace cfg env chatId key (Normal (Break p))
                (logCall (AxiosGet 1 (FetchOk data)) (pollingWorld cfg chatId key w)))
    as Hafter.
  cbv beta iota zeta in Hafter, Hr.
  destruct (Async.tryCatch _ _ _) as [c' w2].
  cbv beta iota zeta in Hafter, Hr. rewrite Hr, Hstore in Hafter. simpl in Hafter.
  destruct Hafter as (t2 & Ht2 & Hf2 & _ & _ & Hck & [Hs2 Hp] & Hv).
  destruct (Hv Hchat) as [Hnormal Hi2]. simpl.
  split; [done|]. rewrite Ht2.
  change ((?a :: ?b :: ?c :: ?t)) with ([a; b; c] ++ t).
  rewrite issued_app, fetchAttempts_app, subscriptions_app, Hi2, Hf2, Hs2, Hp, Hck.
  split_and!; try done.
  - by rewrite lookup_delete_eq.
  - rewrite remove_added by done. done.
Qed.

Lemma subscribe_pay_check_confirms_witness :
  match Router.route (Reference.checkPaymentData 7) with
  | Router.ToCheckPayment (Some targetUserId) =>
      let r := handleCheckPayment Sample.cfg Checkout.paidEnv 42 targetUserId
                 {| bot := Checkout.afterSubscribe; history := [] |} in
      fst r = Normal tt ∧
      issued (history (snd r)) = [ReplyChecking; ReplyConfirmed] ∧
      Trace.fetchAttempts (history (snd r)) = [1%nat] ∧
      Trace.subscriptions (history (snd r)) =
        [(Reference.userKey 7,
          Reference.paymentReference 7 (Subscribe.referenceTime Checkout.subscribeEnv),
          SUBSCRIPTION_DAYS Sample.cfg, true)] ∧
      pendingPayments (bot (snd r)) !! Reference.userKey 7 = None ∧
      checkingPayments (bot (snd r)) = checkingPayments initialBot
  | _ => False
  end.
Proof.
  apply (subscribe_pay_check_confirms Z (fun a => negb (a =? 0)) id (fun _ => "0.4000")
           400000000 Sample.cfg "UQ-bot-wallet" Checkout.subscribeEnv Checkout.paidEnv
           42 7 initialBot None
           (Some [Sample.tonTx (Reference.paymentReference 7 1700000000000)])
           (Sample.tonTx (Reference.paymentReference 7 1700000000000))).
  - reflexivity.
  - reflexivity.
  - apply not_elem_of_empty.
  - simpl. lia.
  - intros i. reflexivity.
  - intros i. reflexivity.
  - reflexivity.
  - simpl. tauto.
  - split; [discriminate|].
    exists (Sample.textMsg (Reference.paymentReference 7 1700000000000)),
      {| text := Some (Reference.paymentReference 7 1700000000000);
         jetton_transfer := None |}.
    split; [by left | split; reflexivity].
Defined.

(** ** The first lesson *)

(** X21.  [sendImmediateSentence] never throws, whatever fails.  It looks the
    user up; for a user that is found it asks the backend for a sentence
    of the user's level, takes the built-in sentence of that level when the
    backend fails (the one of level 1 when the level is not 1 to 5),
    records the sentence, and sends the lesson only when the record was
    accepted. *)
Theorem immediate_lesson_run
    (createMessage : Lesson.SentenceData → string) (env : Lesson.Env)
    (chatId : Z) (userId : string) (l : list Lesson.Call) :
  Lesson.sendImmediateSentence createMessage env chatId userId l =
  (Normal tt,
   l ++ Lesson.GetUser userId (Lesson.user env) ::
        match Lesson.user env with
        | Some (Some level) =>
            Lesson.Generate level (bool_decide (is_Some (Lesson.generate env level))) ::
            Lesson.SaveSentence (Lesson.sentenceFor env level) level (Lesson.saveOk env) ::
            (if Lesson.saveOk env
             then [Lesson.SendLesson chatId (createMessage (Lesson.sentenceFor env level))
                     (Lesson.chatOk env)]
             else [])
        | _ => []
        end) ∧
  (∀ level, ¬ (1 ≤ level ≤ 5) → Lesson.fallbackFor level = Lesson.fallback1).
Proof.
  split.
  - unfold Lesson.sendImmediateSentence, Lesson.generateSentence, Async.tryCatch, Async.bind,
      Lesson.getUser, Lesson.generateEnglishSentence, Lesson.saveSentence,
      Lesson.sendMessage, Lesson.sentenceFor, Async.unitOrThrow, Async.ret.
    destruct (Lesson.user env) as [[level|]|]; simpl; try done.
    destruct (Lesson.generate env level) as [s|]; simpl.
    all: destruct (Lesson.saveOk env); simpl; rewrite <- ?app_assoc; simpl; try done.
    all: destruct (Lesson.chatOk env); simpl; by rewrite <- ?app_assoc.
  - intros level Hout. unfold Lesson.fallbackFor, Lesson.fallbackSentences.
    destruct (level =? 1) eqn:H1; [done|].
    destruct (level =? 2) eqn:H2; [apply Z.eqb_eq in H2; lia|].
    destruct (level =? 3) eqn:H3; [apply Z.eqb_eq in H3; lia|].
    destruct (level =? 4) eqn:H4; [apply Z.eqb_eq in H4; lia|].
    destruct (level =? 5) eqn:H5; [apply Z.eqb_eq in H5; lia|]. done.
Qed.

(** X22.  Every pronunciation of the built-in sentences is written in Latin
    letters, and the sanitizer of the bot keeps katakana only: in the
    lesson made from a built-in sentence the pronunciation of every word
    is printed as the empty string. *)
Theorem fallback_pronunciations_are_blank (level : Z) :
  Forall (fun e => Lesson.printedPronunciation e = Some [])
    (Lesson.word_breakdown (Lesson.fallbackFor level)).
Proof.
  unfold Lesson.fallbackFor, Lesson.fallbackSentences.
  destruct (level =? 1); [by repeat constructor|].
  destruct (level =? 2); [by repeat constructor|].
  destruct (level =? 3); [by repeat constructor|].
  destruct (level =? 4); [by repeat constructor|].
  destruct (level =? 5); by repeat constructor.
Qed.

(** ** More transactions *)

(** X23.  A pending payment that is found in a batch of transactions is found
    in every batch that contains it: asking the ledger for more
    transactions never turns a match into a miss. *)
Theorem more_transactions_keep_the_match
    (cfg : Config) (ps : list PendingPayment) (txs txs' : list Transaction) :
  (∀ tx, In tx txs → In tx txs') →
  is_Some (Matcher.findPayment cfg ps txs) →
  is_Some (Matcher.findPayment cfg ps txs').
Proof.
  intros Hsub [p Hfind].
  apply findPayment_Some in Hfind as (before & after & -> & Hm & _).
  assert (Matcher.paymentMatches cfg txs' p = true) as Hm'.
  { rewrite paymentMatches_orb in *. apply orb_true_iff in Hm as [Ht | Hu];
      apply orb_true_iff; [left | right].
    - unfold Matcher.tonCheck in *. apply existsb_exists in Ht as (tx & Hin & Htx).
      apply existsb_exists. exists tx. split; [by apply Hsub | done].
    - unfold Matcher.usdtCheck in *. apply existsb_exists in Hu as (tx & Hin & Htx).
      apply existsb_exists. exists tx. split; [by apply Hsub | done]. }
  destruct (Matcher.findPayment cfg (before ++ p :: after) txs') as [p'|] eqn:Hfind'; [by eexists|].
  apply findPayment_None in Hfind'.
  apply Forall_app in Hfind' as [_ Hall]. apply Forall_cons_1 in Hall as [Hp _]. congruence.
Qed.

Lemma more_transactions_keep_the_match_witness :
  is_Some (Matcher.findPayment Sample.cfg [Sample.older; Sample.newer]
             [Sample.tonTx "hello"; Sample.tonTx Sample.R]).
Proof.
  apply (more_transactions_keep_the_match Sample.cfg [Sample.older; Sample.newer]
           [Sample.tonTx Sample.R] [Sample.tonTx "hello"; Sample.tonTx Sample.R]).
  - intros tx Hin. simpl in *. tauto.
  - vm_compute. by eexists.
Defined.

(** ** An invariant of the pending payments *)

(** A run of the check leaves the pending payments as they were or
    deletes the entry of its user. *)
Lemma handleCheckPayment_pending
    (cfg : Config) (env : Env) (chatId : Z) (userId : string) (w : World) :
  pendingPayments (bot (snd (handleCheckPayment cfg env chatId userId w))) =
    pendingPayments (bot w) ∨
  pendingPayments (bot (snd (handleCheckPayment cfg env chatId userId w))) =
    delete userId (pendingPayments (bot w)).
Proof.
  destruct (run_cases cfg env userId w)
    as [Hin | [[Hnin Hcase] | (Hnin & Hchat & ps & Hps & Hne & _)]].
  - destruct (flagged_trace cfg env chatId userId w Hin) as (new & _ & _ & _ & Hb & _).
    left. cbv zeta in Hb. by rewrite Hb.
  - destruct (no_polling_trace cfg env chatId userId w Hnin Hcase)
      as (new & _ & _ & _ & Hp & _).
    by left.
  - destruct (polling_trace cfg env chatId userId w ps Hnin Hps Hne Hchat)
      as (c & k & t1 & t2 & stored & _ & _ & _ & _ & _ & _ & _ & _ & _ & Hc & _).
    cbv zeta in Hc. destruct c as [[p| |]|].
    + destruct Hc as (_ & _ & _ & _ & Hp). destruct stored; [by right | by left].
    + destruct Hc as (_ & _ & _ & _ & Hp). by left.
    + destruct Hc as (_ & _ & _ & _ & _ & Hp). by left.
    + destruct Hc as (_ & _ & _ & _ & _ & Hp & _). by left.
Qed.

(** A run of [handleSubscribe] leaves the bot object as it was or records
    one payment for its user. *)
Lemma handleSubscribe_botState
    (Amount : Type) (truthyAmount : Amount → bool) (toNano : Amount → Z)
    (toFixed4 : Amount → string) (fallbackAmount : Amount) (cfg : Config)
    (TON_ADDRESS : string) (env : Subscribe.Env Amount) (chatId userId : Z)
    (w : Subscribe.State Amount) :
  let st' := Subscribe.botState
               (snd (Subscribe.handleSubscribe truthyAmount toNano toFixed4 fallbackAmount
                       cfg TON_ADDRESS env chatId userId w)) in
  st' = Subscribe.botState w ∨
  ∃ a, st' = Ledger.record (Reference.userKey userId)
               (Subscribe.newPayment toNano cfg env userId a) (Subscribe.botState w).
Proof.
  cbv zeta.
  unfold Subscribe.handleSubscribe, Async.tryCatch, Async.bind,
    Subscribe.getActiveSubscription, Subscribe.getTonAmountForUSD,
    Subscribe.formatPriceMessage, Subscribe.sendNotice, Subscribe.sendOffer,
    Subscribe.modifyBot, Subscribe.logCall, Async.unitOrThrow.
  destruct (Subscribe.activeSubscription env) as [[|]|]; simpl; [| | by left].
  - destruct (Subscribe.chatOk env _); by left.
  - destruct (Subscribe.quote env) as [q|]; simpl; [| by left].
    destruct (Subscribe.priceMessage env _) as [t|]; simpl; [| right; by eexists].
    destruct (Subscribe.chatOk env _); right; by eexists.
Qed.

(** The listeners of chat events do not touch the pending payments. *)
Lemma step_pending (st : BotState) (e : Dedup.Event) :
  pendingPayments (snd (Dedup.step st e)) = pendingPayments st.
Proof.
  destruct e as [cq | cq | msg | msg]; simpl; try done.
  - unfold Dedup.onCallbackQuery. by destruct (decide _).
  - unfold Dedup.onMessage.
    destruct (_ && _); [done|]. destruct (Dedup.from_is_bot msg); [done|].
    destruct (Js.present _); [|done]. by destruct (decide _).
Qed.

Lemma slice_last_sublist {A} (k : nat) (l : list A) (P : A → Prop) :
  Forall P l → Forall P (Js.slice_last k l).
Proof. unfold Js.slice_last. apply Forall_drop. Qed.

(** X24.  In every state in which whole runs leave the bot object, whatever
    the users do and whatever the surroundings answer, the entry of a user
    in the map of pending payments holds at least one and at most three
    payments (never an empty array), each with a reference that
    [handleSubscribe] made for that user and with the configured token
    amount.  This is an invariant of the map between runs.  It says nothing
    of the array that a check in flight scans: that is the array object
    stored when the check started, which a [handleSubscribe] running during
    the awaits of the check extends by [push]. *)
Theorem pending_entries_invariant
    (Amount : Type) (truthyAmount : Amount → bool) (toNano : Amount → Z)
    (toFixed4 : Amount → string) (fallbackAmount : Amount) (cfg : Config)
    (TON_ADDRESS : string) (st : BotState) :
  Reach.Reachable Amount truthyAmount toNano toFixed4 fallbackAmount cfg TON_ADDRESS st →
  ∀ key ps,
    pendingPayments st !! key = Some ps →
    (1 ≤ length ps ≤ 3)%nat ∧
    Forall (fun p => ∃ userId now,
                       key = Reference.userKey userId ∧
                       reference p = Reference.paymentReference userId now ∧
                       usdtAmount p = usdtAmountMicro cfg) ps.
Proof.
  induction 1 as [| st env chatId userId log Hreach IH
                  | st env chatId userId history Hreach IH
                  | st e Hreach IH]; intros key ps Hlook.
  - simpl in Hlook. by rewrite lookup_empty in Hlook.
  - destruct (handleSubscribe_botState Amount truthyAmount toNano toFixed4 fallbackAmount
                cfg TON_ADDRESS env chatId userId
                {| Subscribe.botState := st; Subscribe.log := log |}) as [Heq | [a Heq]];
      cbv zeta in Heq; rewrite Heq in Hlook; simpl in Hlook; [by apply IH|].
    destruct (decide (key = Reference.userKey userId)) as [-> | Hne].
    + rewrite lookup_insert_eq in Hlook. injection Hlook as <-.
      split.
      * rewrite slice_last_length, length_app. simpl. lia.
      * apply slice_last_sublist, Forall_app. split.
        -- unfold Ledger.pendingOf.
           destruct (pendingPayments st !! Reference.userKey userId) as [old|] eqn:Hold;
             [by apply (IH _ _ Hold) | constructor].
        -- constructor; [|constructor].
           exists userId, (Subscribe.referenceTime env). done.
    + rewrite lookup_insert_ne in Hlook by done. by apply IH.
  - destruct (handleCheckPayment_pending cfg env chatId userId
                {| bot := st; history := history |}) as [Heq | Heq];
      rewrite Heq in Hlook; simpl in Hlook; [by apply IH|].
    destruct (decide (key = userId)) as [-> | Hne].
    + by rewrite lookup_delete_eq in Hlook.
    + rewrite lookup_delete_ne in Hlook by done. by apply IH.
  - rewrite step_pending in Hlook. by apply IH.
Qed.

Lemma pending_entries_invariant_witness :
  (1 ≤ length [Checkout.payment] ≤ 3)%nat ∧
  Forall (fun p => ∃ userId now,
                     "7" = Reference.userKey userId ∧
                     reference p = Reference.paymentReference userId now ∧
                     usdtAmount p = usdtAmountMicro Sample.cfg)
    [Checkout.payment].
Proof.
  apply (pending_entries_invariant Z (fun a => negb (a =? 0)) id (fun _ => "0.4000")
           400000000 Sample.cfg "UQ-bot-wallet" Checkout.afterSubscribe).
  - apply Reach.reach_subscribe. apply Reach.reach_initial.
  - reflexivity.
Defined.
